(** * The chat session synchronisation engine of velumchat

    A shallow embedding of [client/src/hooks/use-persistent-chats.ts]
    (the hook [usePersistentChats], first and most complete version in the
    file) together with the properties of its message store, expiry timers,
    unread counters, presence cache and chat list.

    Conventions of the embedding.
    - Numbers that the hook uses as identifiers, counters and millisecond
      timestamps are integers of the safe range and are modelled by [Z].
    - A JavaScript [Map] is a [gmap]; React state is a field of [state] and
      every [setX(prev => next)] is a pure update of that field.
    - The clock is an argument [now] of every handler that reads it.
      [sendMessage] reads it four times before its first state update; its
      reads are the fields of a [send_clock].
    - [setTimeout] and [clearTimeout] act on the field [pending], the set of
      live timers of the runtime, keyed by their handle. The runtime takes
      the delay of a timeout as a signed 32-bit integer. [pending] holds the
      timers
      whose handles the hook keeps: the expiry timers of messages and the
      idle timers of the typing indicator. The two timeouts that the hook
      arms and forgets (the scroll after [selectChat], the silent refresh
      after [deleteChat]) are not in it; the refresh is an event of its own.
    - An awaited network call is an argument carrying its outcome. *)

From Stdlib Require Import ZArith String.
From stdpp Require Import base option list sorting gmap strings.

Local Open Scope Z_scope.

(** ** Helpers: date-like values and [toMs] *)

(** What a timestamp field of a JSON object can hold, as far as
    [new Date(v)] and the truthiness of [v] can tell. *)
Inductive datelike : Type :=
  | DAbsent                (* undefined, or the empty string *)
  | DNull                  (* JSON null: falsy, and [new Date(null)] is the epoch *)
  | DInvalid               (* a non-empty string that is not a date *)
  | DAt (ms : Z).          (* a date string, [ms] milliseconds after the epoch *)

#[global] Instance datelike_eq_dec : EqDecision datelike.
Proof. solve_decision. Defined.

(** [new Date(v).getTime()]; [None] stands for NaN. *)
Definition getTime (v : datelike) : option Z :=
  match v with
  | DAbsent | DInvalid => None
  | DNull => Some 0
  | DAt ms => Some ms
  end.

(** [toMs]: the time in milliseconds, and 0 when it is not finite. *)
Definition toMs (v : datelike) : Z :=
  match getTime v with
  | Some t => t
  | None => 0
  end.

(** Truthiness of a date-like value, for [!v] and [v || w]. *)
Definition date_truthy (v : datelike) : bool :=
  match v with
  | DAbsent | DNull => false
  | DInvalid | DAt _ => true
  end.

(** [v || w] on date-like values. *)
Definition date_or (v w : datelike) : datelike :=
  if date_truthy v then v else w.

(** [s || t] on strings: the empty string is falsy. *)
Definition str_or (s : option string) (t : string) : string :=
  match s with
  | Some EmptyString | None => t
  | Some s' => s'
  end.

(** [n || m] on numbers: zero and undefined are falsy. *)
Definition num_or (n : option Z) (m : Z) : Z :=
  match n with
  | Some 0 | None => m
  | Some n' => n'
  end.

(** ** Data model *)

Record user : Type := User {
  user_id : Z;
  username : string;
  isOnline : bool
}.

Record message : Type := Message {
  msg_id : Z;
  msg_chatId : Z;
  msg_senderId : Z;
  msg_receiverId : Z;
  msg_content : string;
  msg_messageType : string;
  msg_fileName : option string;
  msg_fileSize : option Z;
  msg_createdAt : datelike;
  msg_expiresAt : datelike;
  msg_expires_at : datelike;
  msg_destructTimer : option Z
}.

(** The [lastMessage] of a chat summary; only [createdAt] is ever read. *)
Record preview : Type := Preview {
  pv_id : Z;
  pv_content : string;
  pv_createdAt : datelike
}.

Record chat : Type := Chat {
  chat_id : Z;
  participant1Id : Z;
  participant2Id : Z;
  otherUser : user;
  lastMessage : option preview;
  lastMessageTimestamp : datelike;
  chat_createdAt : datelike;
  unreadCount1 : option Z;
  unreadCount2 : option Z;
  unreadCount : option Z
}.

#[global] Instance user_eq_dec : EqDecision user.
Proof. solve_decision. Defined.
#[global] Instance message_eq_dec : EqDecision message.
Proof. solve_decision. Defined.
#[global] Instance preview_eq_dec : EqDecision preview.
Proof. solve_decision. Defined.
#[global] Instance chat_eq_dec : EqDecision chat.
Proof. solve_decision. Defined.

(** A [File] object: its name, its size and the object URL that
    [URL.createObjectURL] hands out for it. *)
Record file : Type := File {
  file_name : string;
  file_size : Z;
  file_objectURL : string
}.

(** Outcome of [uploadFile]: it throws, or returns [{url, originalName, size}]. *)
Inductive upload_outcome : Type :=
  | UploadFailed
  | UploadOk (url : string) (originalName : option string) (size : option Z).

(** The outbound socket frame [{type: "message", ...}]. *)
Record ws_payload : Type := WsPayload {
  out_chatId : Z;
  out_senderId : Z;
  out_receiverId : Z;
  out_content : string;
  out_messageType : string;
  out_destructTimer : Z;
  out_fileName : option string;
  out_fileSize : option Z
}.

(** What a live timer will do when it fires: the closure given to
    [setTimeout] by [scheduleMessageDeletion] (it captured [message.chatId]
    and [message.id]) or by the typing handler (it captured [chatId]). *)
Inductive job : Type :=
  | ExpireMessage (chatId : Z) (messageId : Z)
  | ClearTyping (chatId : Z).

#[global] Instance job_eq_dec : EqDecision job.
Proof. solve_decision. Defined.

Record timer : Type := Timer {
  due : Z;
  timer_job : job
}.

#[global] Instance timer_eq_dec : EqDecision timer.
Proof. solve_decision. Defined.

(** The state of one engine instance: the hook's [useState] and [useRef]
    cells, its two arguments [userId] and [socket], and the part of the
    runtime it acts on (live timers, frames handed to [socket.send]). *)
Record state : Type := State {
  userId : option Z;
  socketHasSend : bool;
  persistentContacts : list chat;
  activeMessages : gmap Z (list message);
  selectedChat : option chat;
  isLoading : bool;
  firstLoadDone : bool;
  unreadCounts : gmap Z Z;
  typingByChat : gmap Z bool;
  typingTimeouts : gmap Z Z;
  deletionTimers : gmap Z Z;
  cutoffs : gmap Z datelike;
  presence : gmap Z bool;
  pending : gmap Z timer;
  nextHandle : Z;
  sent : list ws_payload
}.

Definition init_state (uid : option Z) (hasSend : bool) : state :=
  {| userId := uid; socketHasSend := hasSend;
     persistentContacts := []; activeMessages := ∅; selectedChat := None;
     isLoading := false; firstLoadDone := false;
     unreadCounts := ∅; typingByChat := ∅; typingTimeouts := ∅;
     deletionTimers := ∅; cutoffs := ∅; presence := ∅;
     pending := ∅; nextHandle := 1; sent := [] |}.

(** Field updates. *)
Definition setPersistentContacts (f : list chat → list chat) (st : state) : state :=
  {| userId := userId st; socketHasSend := socketHasSend st;
     persistentContacts := f (persistentContacts st);
     activeMessages := activeMessages st; selectedChat := selectedChat st;
     isLoading := isLoading st; firstLoadDone := firstLoadDone st;
     unreadCounts := unreadCounts st; typingByChat := typingByChat st;
     typingTimeouts := typingTimeouts st; deletionTimers := deletionTimers st;
     cutoffs := cutoffs st; presence := presence st;
     pending := pending st; nextHandle := nextHandle st; sent := sent st |}.

Definition setActiveMessages
    (f : gmap Z (list message) → gmap Z (list message)) (st : state) : state :=
  {| userId := userId st; socketHasSend := socketHasSend st;
     persistentContacts := persistentContacts st;
     activeMessages := f (activeMessages st); selectedChat := selectedChat st;
     isLoading := isLoading st; firstLoadDone := firstLoadDone st;
     unreadCounts := unreadCounts st; typingByChat := typingByChat st;
     typingTimeouts := typingTimeouts st; deletionTimers := deletionTimers st;
     cutoffs := cutoffs st; presence := presence st;
     pending := pending st; nextHandle := nextHandle st; sent := sent st |}.

Definition setSelectedChat (f : option chat → option chat) (st : state) : state :=
  {| userId := userId st; socketHasSend := socketHasSend st;
     persistentContacts := persistentContacts st;
     activeMessages := activeMessages st; selectedChat := f (selectedChat st);
     isLoading := isLoading st; firstLoadDone := firstLoadDone st;
     unreadCounts := unreadCounts st; typingByChat := typingByChat st;
     typingTimeouts := typingTimeouts st; deletionTimers := deletionTimers st;
     cutoffs := cutoffs st; presence := presence st;
     pending := pending st; nextHandle := nextHandle st; sent := sent st |}.

Definition setLoadFlags (loading done : bool) (st : state) : state :=
  {| userId := userId st; socketHasSend := socketHasSend st;
     persistentContacts := persistentContacts st;
     activeMessages := activeMessages st; selectedChat := selectedChat st;
     isLoading := loading; firstLoadDone := done;
     unreadCounts := unreadCounts st; typingByChat := typingByChat st;
     typingTimeouts := typingTimeouts st; deletionTimers := deletionTimers st;
     cutoffs := cutoffs st; presence := presence st;
     pending := pending st; nextHandle := nextHandle st; sent := sent st |}.

Definition setUnreadCounts (f : gmap Z Z → gmap Z Z) (st : state) : state :=
  {| userId := userId st; socketHasSend := socketHasSend st;
     persistentContacts := persistentContacts st;
     activeMessages := activeMessages st; selectedChat := selectedChat st;
     isLoading := isLoading st; firstLoadDone := firstLoadDone st;
     unreadCounts := f (unreadCounts st); typingByChat := typingByChat st;
     typingTimeouts := typingTimeouts st; deletionTimers := deletionTimers st;
     cutoffs := cutoffs st; presence := presence st;
     pending := pending st; nextHandle := nextHandle st; sent := sent st |}.

Definition setTypingByChat (f : gmap Z bool → gmap Z bool) (st : state) : state :=
  {| userId := userId st; socketHasSend := socketHasSend st;
     persistentContacts := persistentContacts st;
     activeMessages := activeMessages st; selectedChat := selectedChat st;
     isLoading := isLoading st; firstLoadDone := firstLoadDone st;
     unreadCounts := unreadCounts st; typingByChat := f (typingByChat st);
     typingTimeouts := typingTimeouts st; deletionTimers := deletionTimers st;
     cutoffs := cutoffs st; presence := presence st;
     pending := pending st; nextHandle := nextHandle st; sent := sent st |}.

Definition setTypingTimeouts (f : gmap Z Z → gmap Z Z) (st : state) : state :=
  {| userId := userId st; socketHasSend := socketHasSend st;
     persistentContacts := persistentContacts st;
     activeMessages := activeMessages st; selectedChat := selectedChat st;
     isLoading := isLoading st; firstLoadDone := firstLoadDone st;
     unreadCounts := unreadCounts st; typingByChat := typingByChat st;
     typingTimeouts := f (typingTimeouts st); deletionTimers := deletionTimers st;
     cutoffs := cutoffs st; presence := presence st;
     pending := pending st; nextHandle := nextHandle st; sent := sent st |}.

Definition setDeletionTimers (f : gmap Z Z → gmap Z Z) (st : state) : state :=
  {| userId := userId st; socketHasSend := socketHasSend st;
     persistentContacts := persistentContacts st;
     activeMessages := activeMessages st; selectedChat := selectedChat st;
     isLoading := isLoading st; firstLoadDone := firstLoadDone st;
     unreadCounts := unreadCounts st; typingByChat := typingByChat st;
     typingTimeouts := typingTimeouts st; deletionTimers := f (deletionTimers st);
     cutoffs := cutoffs st; presence := presence st;
     pending := pending st; nextHandle := nextHandle st; sent := sent st |}.

Definition setCutoffs (f : gmap Z datelike → gmap Z datelike) (st : state) : state :=
  {| userId := userId st; socketHasSend := socketHasSend st;
     persistentContacts := persistentContacts st;
     activeMessages := activeMessages st; selectedChat := selectedChat st;
     isLoading := isLoading st; firstLoadDone := firstLoadDone st;
     unreadCounts := unreadCounts st; typingByChat := typingByChat st;
     typingTimeouts := typingTimeouts st; deletionTimers := deletionTimers st;
     cutoffs := f (cutoffs st); presence := presence st;
     pending := pending st; nextHandle := nextHandle st; sent := sent st |}.

Definition setPresence (f : gmap Z bool → gmap Z bool) (st : state) : state :=
  {| userId := userId st; socketHasSend := socketHasSend st;
     persistentContacts := persistentContacts st;
     activeMessages := activeMessages st; selectedChat := selectedChat st;
     isLoading := isLoading st; firstLoadDone := firstLoadDone st;
     unreadCounts := unreadCounts st; typingByChat := typingByChat st;
     typingTimeouts := typingTimeouts st; deletionTimers := deletionTimers st;
     cutoffs := cutoffs st; presence := f (presence st);
     pending := pending st; nextHandle := nextHandle st; sent := sent st |}.

Definition setPending (f : gmap Z timer → gmap Z timer) (next : Z) (st : state) : state :=
  {| userId := userId st; socketHasSend := socketHasSend st;
     persistentContacts := persistentContacts st;
     activeMessages := activeMessages st; selectedChat := selectedChat st;
     isLoading := isLoading st; firstLoadDone := firstLoadDone st;
     unreadCounts := unreadCounts st; typingByChat := typingByChat st;
     typingTimeouts := typingTimeouts st; deletionTimers := deletionTimers st;
     cutoffs := cutoffs st; presence := presence st;
     pending := f (pending st); nextHandle := next; sent := sent st |}.

Definition setSent (f : list ws_payload → list ws_payload) (st : state) : state :=
  {| userId := userId st; socketHasSend := socketHasSend st;
     persistentContacts := persistentContacts st;
     activeMessages := activeMessages st; selectedChat := selectedChat st;
     isLoading := isLoading st; firstLoadDone := firstLoadDone st;
     unreadCounts := unreadCounts st; typingByChat := typingByChat st;
     typingTimeouts := typingTimeouts st; deletionTimers := deletionTimers st;
     cutoffs := cutoffs st; presence := presence st;
     pending := pending st; nextHandle := nextHandle st; sent := f (sent st) |}.

(** [!userId]: the hook runs for a user only when its id is a non-zero number. *)
Definition noUser (st : state) : bool :=
  match userId st with
  | Some 0 | None => true
  | Some _ => false
  end.

(** [activeMessages.get(chatId) || []]. *)
Definition messagesOf (st : state) (chatId : Z) : list message :=
  default [] (activeMessages st !! chatId).

(** [unreadCounts.get(chatId) || 0]. *)
Definition unreadOf (st : state) (chatId : Z) : Z :=
  default 0 (unreadCounts st !! chatId).

(** ** Runtime timers *)

(** The delay of a timeout is a [long] of the DOM interface: the number is
    taken modulo 2^32 into the signed 32-bit range. *)
Definition toInt32 (n : Z) : Z := (n + 2147483648) mod 4294967296 - 2147483648.

(** The delay that the runtime waits: a negative delay counts as 0. A delay
    from 2^31 up to 2^32 - 1 ms wraps to a negative number, so such a
    timeout is due at once; 2^31 - 1 ms are about 24.8 days. *)
Definition timerDelay (ms : Z) : Z := Z.max (toInt32 ms) 0.

(** The longest delay that the runtime keeps as it is. *)
Definition maxDelay : Z := 2147483647.

(** [setTimeout(job, ms)] at time [now]: a fresh positive handle. *)
Definition setTimeout (now ms : Z) (j : job) (st : state) : Z * state :=
  let h := nextHandle st in
  (h, setPending (λ p, <[h := {| due := now + timerDelay ms; timer_job := j |}]> p)
                 (h + 1) st).

(** [clearTimeout(h)]. *)
Definition clearTimeout (h : Z) (st : state) : state :=
  setPending (λ p, delete h p) (nextHandle st) st.

(** ** Deleted chat cutoffs *)

(** [cutoffsRef.current[String(chatId)]]. *)
Definition cutoffIsoOf (st : state) (chatId : Z) : datelike :=
  default DAbsent (cutoffs st !! chatId).

Definition filterByCutoff (chatId : Z) (msgs : list message) (cutoffIso : datelike)
    : list message :=
  if negb (date_truthy cutoffIso) then msgs
  else
    let cutoff := toMs cutoffIso in
    if cutoff =? 0 then msgs
    else filter (λ m, cutoff < toMs (msg_createdAt m)) msgs.

(** ** Timers of self-destructing messages *)

Definition clearTimer (messageId : Z) (st : state) : state :=
  let st1 :=
    match deletionTimers st !! messageId with
    | Some t => if t =? 0 then st else clearTimeout t st
    | None => st
    end in
  setDeletionTimers (λ d, delete messageId d) st1.

(** The body of the timeout set by [scheduleMessageDeletion]. *)
Definition expireMessage (chatId messageId : Z) (st : state) : state :=
  let st1 :=
    setActiveMessages
      (λ prev, <[chatId := filter (λ m, msg_id m ≠ messageId)
                                  (default [] (prev !! chatId))]> prev) st in
  clearTimer messageId st1.

(** [toMs(message?.expiresAt || message?.expires_at)]. *)
Definition expiryMs (m : message) : Z :=
  toMs (date_or (msg_expiresAt m) (msg_expires_at m)).

Definition scheduleMessageDeletion (now : Z) (m : message) (st : state) : state :=
  let expMs := expiryMs m in
  if expMs =? 0 then st
  else
    let ms := Z.max (expMs - now) 200 in
    let st1 := clearTimer (msg_id m) st in
    let '(t, st2) := setTimeout now ms (ExpireMessage (msg_chatId m) (msg_id m)) st1 in
    setDeletionTimers (λ d, <[msg_id m := t]> d) st2.

(** ** Presence *)

Definition withOnline (online : bool) (c : chat) : chat :=
  {| chat_id := chat_id c; participant1Id := participant1Id c;
     participant2Id := participant2Id c;
     otherUser := {| user_id := user_id (otherUser c);
                     username := username (otherUser c);
                     isOnline := online |};
     lastMessage := lastMessage c;
     lastMessageTimestamp := lastMessageTimestamp c;
     chat_createdAt := chat_createdAt c;
     unreadCount1 := unreadCount1 c; unreadCount2 := unreadCount2 c;
     unreadCount := unreadCount c |}.

Definition withUsername (name : string) (c : chat) : chat :=
  {| chat_id := chat_id c; participant1Id := participant1Id c;
     participant2Id := participant2Id c;
     otherUser := {| user_id := user_id (otherUser c);
                     username := name;
                     isOnline := isOnline (otherUser c) |};
     lastMessage := lastMessage c;
     lastMessageTimestamp := lastMessageTimestamp c;
     chat_createdAt := chat_createdAt c;
     unreadCount1 := unreadCount1 c; unreadCount2 := unreadCount2 c;
     unreadCount := unreadCount c |}.

Definition withUnreadCount (n : option Z) (c : chat) : chat :=
  {| chat_id := chat_id c; participant1Id := participant1Id c;
     participant2Id := participant2Id c; otherUser := otherUser c;
     lastMessage := lastMessage c;
     lastMessageTimestamp := lastMessageTimestamp c;
     chat_createdAt := chat_createdAt c;
     unreadCount1 := unreadCount1 c; unreadCount2 := unreadCount2 c;
     unreadCount := n |}.

Definition withLastMessage (p : preview) (ts : datelike) (c : chat) : chat :=
  {| chat_id := chat_id c; participant1Id := participant1Id c;
     participant2Id := participant2Id c; otherUser := otherUser c;
     lastMessage := Some p;
     lastMessageTimestamp := ts;
     chat_createdAt := chat_createdAt c;
     unreadCount1 := unreadCount1 c; unreadCount2 := unreadCount2 c;
     unreadCount := unreadCount c |}.

Definition applyPresence (uid : Z) (online : bool) (st : state) : state :=
  if uid =? 0 then st
  else
    let st1 := setPresence (λ p, <[uid := online]> p) st in
    let st2 :=
      setPersistentContacts
        (λ prev, map (λ c, if decide (user_id (otherUser c) ≠ uid) then c
                           else withOnline online c) prev) st1 in
    setSelectedChat
      (λ prev, match prev with
               | None => None
               | Some c => if decide (user_id (otherUser c) ≠ uid) then Some c
                           else Some (withOnline online c)
               end) st2.

Definition setAllOffline (st : state) : state :=
  let st1 := setPresence (λ _, ∅) st in
  let st2 := setPersistentContacts (λ prev, map (withOnline false) prev) st1 in
  setSelectedChat (λ prev, withOnline false <$> prev) st2.

(** [Boolean(presenceRef.current.get(oid))], and offline for no id. *)
Definition presenceSnapshot (st : state) (oid : Z) : bool :=
  if oid =? 0 then false else default false (presence st !! oid).

(** ** Chat list: local update *)

Definition bumpList (now chatId : Z) (lastMsg : preview) (prev : list chat) : list chat :=
  match list_find (λ c, chat_id c = chatId) prev with
  | None => prev
  | Some (idx, current) =>
      let updated :=
        withLastMessage lastMsg (date_or (pv_createdAt lastMsg) (DAt now)) current in
      updated :: delete idx prev
  end.

Definition bumpChatToTopAndUpdateLast (now chatId : Z) (lastMsg : preview) (st : state)
    : state :=
  setPersistentContacts (bumpList now chatId lastMsg) st.

(** ** Loading the contacts *)

(** The unread counter of the local user's participant slot. *)
Definition serverUnreadOf (uid : option Z) (c : chat) : Z :=
  if decide (uid = Some (participant1Id c)) then num_or (unreadCount1 c) 0
  else if decide (uid = Some (participant2Id c)) then num_or (unreadCount2 c) 0
  else 0.

Definition collectServerUnread (uid : option Z) (contacts : list chat) : gmap Z Z :=
  foldl (λ acc c, let unread := serverUnreadOf uid c in
                  if 0 <? unread then <[chat_id c := unread]> acc else acc)
        ∅ contacts.

(** The loop over [serverUnread.entries()]. *)
Definition mergeUnread (serverUnread prev : gmap Z Z) : gmap Z Z :=
  map_fold (λ chatId cnt next, <[chatId := Z.max (default 0 (next !! chatId)) cnt]> next)
           prev serverUnread.

(** [a.lastMessage?.createdAt || a.lastMessageTimestamp || a.createdAt]. *)
Definition sortTime (c : chat) : datelike :=
  date_or (match lastMessage c with Some p => pv_createdAt p | None => DAbsent end)
          (date_or (lastMessageTimestamp c) (chat_createdAt c)).

(** The comparator of the sort; [None] is NaN. *)
Definition compareChats (a b : chat) : option Z :=
  match getTime (sortTime b), getTime (sortTime a) with
  | Some tb, Some ta => Some (tb - ta)
  | _, _ => None
  end.

(** [Array.prototype.sort] is stable, and takes a NaN from the comparator
    for +0. With a comparator that orders the elements consistently every
    stable sort returns the same array; insertion from the right is one. *)
Definition comesAfter {A} (cmp : A → A → option Z) (x y : A) : bool :=
  match cmp x y with
  | Some v => 0 <? v
  | None => false
  end.

Fixpoint insertSorted {A} (cmp : A → A → option Z) (x : A) (l : list A) : list A :=
  match l with
  | [] => [x]
  | y :: l' => if comesAfter cmp x y then y :: insertSorted cmp x l' else x :: l
  end.

Definition arraySort {A} (cmp : A → A → option Z) (l : list A) : list A :=
  foldr (insertSorted cmp) [] l.

(** [resp] is [None] when [authedFetch] throws and the array otherwise. *)
Definition fetchContacts (showSpinner : bool) (resp : option (list chat)) (st : state)
    : state :=
  if noUser st then st
  else
    let st0 := if showSpinner then setLoadFlags true (firstLoadDone st) st else st in
    let st1 :=
      match resp with
      | Some contacts =>
          let annotated :=
            map (λ c, withUnreadCount (Some (serverUnreadOf (userId st) c)) c) contacts in
          let serverUnread := collectServerUnread (userId st) contacts in
          let st' := setUnreadCounts (mergeUnread serverUnread) st0 in
          let sorted := arraySort compareChats annotated in
          let withPresence :=
            map (λ c, withOnline (presenceSnapshot st (user_id (otherUser c))) c) sorted in
          setPersistentContacts (λ _, withPresence) st'
      | None =>
          if showSpinner then setPersistentContacts (λ _, []) st0 else st0
      end in
    setLoadFlags (if showSpinner then false else isLoading st1) true st1.



(** ** Loading the messages of a chat *)

(** [resp] is [None] when the fetch throws; a body that is not an array
    counts as the empty array. *)
Definition loadActiveMessages (now chatId : Z) (resp : option (list message)) (st : state)
    : state :=
  match resp with
  | Some msgsRaw =>
      let msgs := filterByCutoff chatId msgsRaw (cutoffIsoOf st chatId) in
      let st1 := setActiveMessages (λ prev, <[chatId := msgs]> prev) st in
      foldl (λ s m, scheduleMessageDeletion now m s) st1 msgs
  | None => setActiveMessages (λ prev, <[chatId := []]> prev) st
  end.

(** ** Selecting and deleting a chat *)

(** [selectChat] up to its first [await]. *)
Definition selectChat_begin (c : option chat) (st : state) : state :=
  setSelectedChat (λ _, c) st.

(** [selectChat] between the mark-read call, whose outcome is ignored, and
    the fetch of the messages. *)
Definition selectChat_marked (ch : chat) (st : state) : state :=
  let st2 := setUnreadCounts (λ prev, delete (chat_id ch) prev) st in
  setPersistentContacts
    (λ prev, map (λ c', if decide (chat_id c' = chat_id ch)
                        then withUnreadCount (Some 0) c' else c') prev) st2.

(** A [selectChat] during whose calls nothing else happens. *)
Definition selectChat (now : Z) (c : option chat) (resp : option (list message))
    (st : state) : state :=
  let st1 := selectChat_begin c st in
  match c with
  | None => st1
  | Some ch =>
      if noUser st then st1
      else loadActiveMessages now (chat_id ch) resp (selectChat_marked ch st1)
  end.

(** The synchronous part and the ignored server call of [deleteChat]; the
    silent refresh it arms is a later [refreshContactsSilently]. *)
Definition deleteChat (now chatId : Z) (st : state) : state :=
  if noUser st then st
  else
    let st1 := setCutoffs (λ cs, <[chatId := DAt now]> cs) st in
    let st2 := setPersistentContacts (λ prev, filter (λ c, chat_id c ≠ chatId) prev) st1 in
    let st3 := setActiveMessages (λ prev, delete chatId prev) st2 in
    let st4 :=
      setSelectedChat
        (λ prev, match prev with
                 | Some c => if decide (chat_id c = chatId) then None else Some c
                 | None => None
                 end) st3 in
    setUnreadCounts (λ prev, delete chatId prev) st4.

(** ** Sending a message *)

(** [Math.max(Number(destructTimerSec) || 0, 5)]. The requested timer is
    [None] for a value that [Number] turns into NaN and [Some n] for the
    integer [n]; the callers of [sendMessage] pass the integer that
    [parseInt] gives, and on integers of this size the arithmetic of the
    runtime's numbers is exact. *)
Definition expirySeconds (destructTimerSec : option Z) : Z :=
  Z.max (num_or destructTimerSec 0) 5.

Definition previewContent (type content : string) : string :=
  if decide (type = "image") then "📷 Photo"
  else if decide (type = "file") then "📎 File"
  else content.

(** What the closure of one [sendMessage] call holds across its [await]. *)
Record send_ctx : Type := SendCtx {
  tempId : Z;
  ctx_chat : chat;
  ctx_userId : Z;
  secs : Z;
  ctx_content : string;
  ctx_type : string;
  ctx_file : option file
}.

(** The clock reads of one [sendMessage] call before its first state
    update, in the order of the code: [Date.now()] for the temporary id,
    [new Date()] for [createdAt], [Date.now()] for [expiresAt], and the
    [Date.now()] of [scheduleMessageDeletion]. *)
Record send_clock : Type := SendClock {
  at_tempId : Z;
  at_created : Z;
  at_expires : Z;
  at_schedule : Z
}.

(** A call during which the clock does not tick. *)
Definition atOnce (now : Z) : send_clock :=
  {| at_tempId := now; at_created := now; at_expires := now; at_schedule := now |}.

(** The time values of a [Date] that is valid: at most 8.64e15 ms from the
    epoch. [toISOString] of any other date throws a [RangeError]. *)
Definition validDate (t : Z) : bool :=
  (-8640000000000000 <=? t) && (t <=? 8640000000000000).

(** Whether building the optimistic message throws: one of its two
    [toISOString] calls is given a date that is not valid. *)
Definition sendThrows (clk : send_clock) (destructTimerSec : option Z) : bool :=
  negb (validDate (at_created clk)) ||
  negb (validDate (at_expires clk + expirySeconds destructTimerSec * 1000)).

Definition optimisticMessage (clk : send_clock) (sc : chat) (uid : Z)
    (content type : string) (destructTimerSec : option Z) (f : option file) : message :=
  let secs := expirySeconds destructTimerSec in
  {| msg_id := at_tempId clk;
     msg_chatId := chat_id sc;
     msg_senderId := uid;
     msg_receiverId := user_id (otherUser sc);
     msg_content :=
       match f with
       | Some fl =>
           if decide (type = "image") then file_objectURL fl
           else if decide (type = "file") then file_name fl
           else content
       | None => content
       end;
     msg_messageType := type;
     msg_fileName := file_name <$> f;
     msg_fileSize := file_size <$> f;
     msg_createdAt := DAt (at_created clk);
     msg_expiresAt := DAt (at_expires clk + secs * 1000);
     msg_expires_at := DAbsent;
     msg_destructTimer := Some secs |}.

(** [sendMessage] up to its [await]. It is [None] when the call ends before
    any state update: a guard returns, or the optimistic message cannot be
    built because [toISOString] throws, which rejects the promise of the
    call. *)
Definition sendMessage_start (clk : send_clock) (content type : string)
    (destructTimerSec : option Z) (f : option file) (st : state)
    : option (send_ctx * state) :=
  match selectedChat st with
  | None => None
  | Some sc =>
      if noUser st then None
      else if negb (socketHasSend st) then None
      else if sendThrows clk destructTimerSec then None
      else
        let uid := default 0 (userId st) in
        let secs := expirySeconds destructTimerSec in
        let tempId := at_tempId clk in
        let optimistic := optimisticMessage clk sc uid content type destructTimerSec f in
        let st1 :=
          setActiveMessages
            (λ prev, <[chat_id sc := default [] (prev !! chat_id sc) ++ [optimistic]]> prev)
            st in
        let st2 := scheduleMessageDeletion (at_schedule clk) optimistic st1 in
        let st3 :=
          bumpChatToTopAndUpdateLast (at_schedule clk) (chat_id sc)
            {| pv_id := tempId; pv_content := previewContent type content;
               pv_createdAt := msg_createdAt optimistic |} st2 in
        Some ({| tempId := tempId; ctx_chat := sc; ctx_userId := uid; secs := secs;
                 ctx_content := content; ctx_type := type; ctx_file := f |}, st3)
  end.

Definition withUploaded (content : string) (name : string) (size : Z) (m : message)
    : message :=
  {| msg_id := msg_id m; msg_chatId := msg_chatId m; msg_senderId := msg_senderId m;
     msg_receiverId := msg_receiverId m;
     msg_content := content; msg_messageType := msg_messageType m;
     msg_fileName := Some name; msg_fileSize := Some size;
     msg_createdAt := msg_createdAt m; msg_expiresAt := msg_expiresAt m;
     msg_expires_at := msg_expires_at m; msg_destructTimer := msg_destructTimer m |}.

Definition emit (p : ws_payload) (st : state) : state :=
  setSent (λ out, out ++ [p]) st.

(** [sendMessage] from its [await] on; [up] is read only when a file is
    attached. The chat is the one selected when the call started. *)
Definition sendMessage_finish (ctx : send_ctx) (up : upload_outcome) (st : state) : state :=
  let cid := chat_id (ctx_chat ctx) in
  let payload content name size :=
    {| out_chatId := cid; out_senderId := ctx_userId ctx;
       out_receiverId := user_id (otherUser (ctx_chat ctx));
       out_content := content; out_messageType := ctx_type ctx;
       out_destructTimer := secs ctx;
       out_fileName := name; out_fileSize := size |} in
  match ctx_file ctx with
  | None => emit (payload (ctx_content ctx) None None) st
  | Some fl =>
      match up with
      | UploadOk url originalName size =>
          let finalContent := url in
          let fileName := str_or originalName (file_name fl) in
          let fileSize := num_or size (file_size fl) in
          let st1 :=
            setActiveMessages
              (λ prev, <[cid := map (λ m, if decide (msg_id m = tempId ctx)
                                          then withUploaded finalContent fileName fileSize m
                                          else m)
                                    (default [] (prev !! cid))]> prev) st in
          emit (payload finalContent
                        (Some (str_or (Some fileName) (file_name fl)))
                        (Some (num_or (Some fileSize) (file_size fl)))) st1
      | UploadFailed =>
          setActiveMessages
            (λ prev, <[cid := filter (λ m, msg_id m ≠ tempId ctx)
                                     (default [] (prev !! cid))]> prev) st
      end
  end.

(** A send during whose upload nothing else happens. *)
Definition sendMessage (clk : send_clock) (content type : string)
    (destructTimerSec : option Z) (f : option file) (up : upload_outcome) (st : state)
    : state :=
  match sendMessage_start clk content type destructTimerSec f st with
  | None => st
  | Some (ctx, st1) => sendMessage_finish ctx up st1
  end.

(** ** Incoming socket events *)

Definition clearTypingTimer (chatId : Z) (st : state) : state :=
  let st1 :=
    match typingTimeouts st !! chatId with
    | Some t => if t =? 0 then st else clearTimeout t st
    | None => st
    end in
  setTypingTimeouts (λ d, delete chatId d) st1.

Definition setTypingState (chatId : Z) (isTyping : bool) (st : state) : state :=
  setTypingByChat
    (λ prev, if isTyping then <[chatId := true]> prev else delete chatId prev) st.

(** The tagged events, with [Number(..) || 0], [toBool] and [trim] applied. *)
Inductive ws_event : Type :=
  | OnlineUsers (userIds : list Z)
  | UserStatus (uid : Z) (online : bool)
  | ProfileUpdated (uid : Z) (name : string)
  | TypingEvent (chatId senderId receiverId : Z) (isTyping : bool)
  | NewMessage (m : message).

(** The cutoff test of an inbound message. *)
Definition rejectedByCutoff (st : state) (m : message) : bool :=
  let cutoffIso := cutoffIsoOf st (msg_chatId m) in
  if date_truthy cutoffIso then
    let cutoffMs := toMs cutoffIso in
    let createdMs := toMs (msg_createdAt m) in
    negb (cutoffMs =? 0) && negb (createdMs =? 0) && (createdMs <=? cutoffMs)
  else false.

(** Whether [chatId] is the chat that is open. *)
Definition isOpen (st : state) (chatId : Z) : bool :=
  match selectedChat st with
  | Some c => bool_decide (chat_id c = chatId)
  | None => false
  end.

Definition handleWSData (now : Z) (data : ws_event) (st : state) : state :=
  match data with
  | OnlineUsers userIds =>
      foldl (λ s uid, if negb (uid =? 0) && negb (bool_decide (Some uid = userId st))
                      then applyPresence uid true s else s)
            st (filter (λ x, x ≠ 0) userIds)
  | UserStatus uid online =>
      if uid =? 0 then st else applyPresence uid online st
  | ProfileUpdated uid name =>
      if (uid =? 0) || bool_decide (name = EmptyString) then st
      else
        let st1 :=
          setPersistentContacts
            (λ prev, map (λ c, if decide (user_id (otherUser c) ≠ uid) then c
                               else withUsername name c) prev) st in
        setSelectedChat
          (λ prev, match prev with
                   | None => None
                   | Some c => if decide (user_id (otherUser c) ≠ uid) then Some c
                               else Some (withUsername name c)
                   end) st1
  | TypingEvent chatId senderId receiverId isTyping =>
      if (chatId =? 0) || negb (bool_decide (Some receiverId = userId st)) then st
      else if bool_decide (Some senderId = userId st) then st
      else
        let st1 := clearTypingTimer chatId st in
        let st2 := setTypingState chatId isTyping st1 in
        if isTyping then
          let '(t, st3) := setTimeout now 3000 (ClearTyping chatId) st2 in
          setTypingTimeouts (λ d, <[chatId := t]> d) st3
        else st2
  | NewMessage m =>
      if negb (bool_decide (Some (msg_receiverId m) = userId st)) then st
      else if rejectedByCutoff st m then st
      else
        let st1 :=
          setActiveMessages
            (λ prev, let arr := default [] (prev !! msg_chatId m) in
                     if bool_decide (Exists (λ x, msg_id x = msg_id m) arr) then prev
                     else <[msg_chatId m := arr ++ [m]]> prev) st in
        let st2 := scheduleMessageDeletion now m st1 in
        let st3 :=
          bumpChatToTopAndUpdateLast now (msg_chatId m)
            {| pv_id := msg_id m;
               pv_content := previewContent (msg_messageType m) (msg_content m);
               pv_createdAt := date_or (msg_createdAt m) (DAt now) |} st2 in
        if negb (isOpen st (msg_chatId m)) then
          setUnreadCounts
            (λ prev, <[msg_chatId m := default 0 (prev !! msg_chatId m) + 1]> prev) st3
        else st3
  end.

(** ** Timers firing, and teardown *)

(** The runtime fires the live timer [h]: it is live no more, and its
    closure runs. A handle that is not live fires nothing. *)
Definition fire (h : Z) (st : state) : state :=
  match pending st !! h with
  | None => st
  | Some t =>
      let st1 := clearTimeout h st in
      match timer_job t with
      | ExpireMessage chatId messageId => expireMessage chatId messageId st1
      | ClearTyping chatId => clearTypingTimer chatId (setTypingState chatId false st1)
      end
  end.

(** [handles.forEach((t) => clearTimeout(t))]. *)
Definition clearAllTimeouts (handles : gmap Z Z) (p : gmap Z timer) : gmap Z timer :=
  map_fold (λ _ t p', delete t p') p handles.

(** The cleanup effect of the hook. *)
Definition cleanup (st : state) : state :=
  let st1 := setPending (clearAllTimeouts (deletionTimers st)) (nextHandle st) st in
  let st2 := setDeletionTimers (λ _, ∅) st1 in
  let st3 := setPending (clearAllTimeouts (typingTimeouts st)) (nextHandle st) st2 in
  setTypingTimeouts (λ _, ∅) st3.

(** ** The engine as a state machine *)

(** One event is one reaction of the hook: a handler called by the view, an
    effect, a frame from the socket (the handler is registered only for a
    user), or a timer of the runtime. [SelectChat] and [SendMessage] are
    the calls that nothing interrupts; the events after each of them are the
    stretches between the [await]s of such a call, for the runs in which
    other reactions come in between. *)
Inductive event : Type :=
  | Disconnected
  | FetchContacts (showSpinner : bool) (resp : option (list chat))
  | SelectChat (now : Z) (c : option chat) (resp : option (list message))
  | SelectChatBegins (c : option chat)
  | SelectChatMarksRead (ch : chat)
  | MessagesArrive (now : Z) (chatId : Z) (resp : option (list message))
  | DeleteChat (now : Z) (chatId : Z)
  | SendMessage (clk : send_clock) (content type : string)
      (destructTimerSec : option Z) (f : option file) (up : upload_outcome)
  | SendMessageBegins (clk : send_clock) (content type : string)
      (destructTimerSec : option Z) (f : option file)
  | UploadSettles (ctx : send_ctx) (up : upload_outcome)
  | Socket (now : Z) (data : ws_event)
  | TimerFires (h : Z)
  | Unmount.

Definition step (st : state) (e : event) : state :=
  match e with
  | Disconnected => setAllOffline st
  | FetchContacts showSpinner resp => fetchContacts showSpinner resp st
  | SelectChat now c resp => selectChat now c resp st
  | SelectChatBegins c => selectChat_begin c st
  | SelectChatMarksRead ch => if noUser st then st else selectChat_marked ch st
  | MessagesArrive now chatId resp => loadActiveMessages now chatId resp st
  | DeleteChat now chatId => deleteChat now chatId st
  | SendMessage clk content type d f up => sendMessage clk content type d f up st
  | SendMessageBegins clk content type d f =>
      match sendMessage_start clk content type d f st with
      | Some (_, st1) => st1
      | None => st
      end
  | UploadSettles ctx up => sendMessage_finish ctx up st
  | Socket now data => if noUser st then st else handleWSData now data st
  | TimerFires h => fire h st
  | Unmount => cleanup st
  end.

Definition run (evs : list event) (st : state) : state := foldl step st evs.


(** ** Predicates of the properties *)

(** The live timers of the runtime and the two handle maps of the hook are
    in step: a live timer is the one registered for the message (or chat)
    its closure names, and a registered handle is a live timer for that
    message (or chat). *)
Record timers_wf (st : state) : Prop := TimersWf {
  wf_next : 0 < nextHandle st;
  wf_pending : ∀ h t, pending st !! h = Some t →
    0 < h < nextHandle st ∧
    match timer_job t with
    | ExpireMessage _ i => deletionTimers st !! i = Some h
    | ClearTyping c => typingTimeouts st !! c = Some h
    end;
  wf_deletion : ∀ i h, deletionTimers st !! i = Some h →
    ∃ t c, pending st !! h = Some t ∧ timer_job t = ExpireMessage c i;
  wf_typing : ∀ c h, typingTimeouts st !! c = Some h →
    ∃ t, pending st !! h = Some t ∧ timer_job t = ClearTyping c
}.

(** The part of the state that [timers_wf] reads. *)
Definition timerView (st : state) : gmap Z timer * Z * gmap Z Z * gmap Z Z :=
  (pending st, nextHandle st, deletionTimers st, typingTimeouts st).

(** At most one live expiry timer names a given message id. *)
Definition oneTimerPerMessage (st : state) : Prop :=
  ∀ i h1 h2 t1 t2 c1 c2,
    pending st !! h1 = Some t1 → timer_job t1 = ExpireMessage c1 i →
    pending st !! h2 = Some t2 → timer_job t2 = ExpireMessage c2 i →
    h1 = h2.

(** The timer that a schedule at [now] arms for [m]. *)
Definition expiryTimer (now : Z) (m : message) : timer :=
  {| due := now + timerDelay (Z.max (expiryMs m - now) 200);
     timer_job := ExpireMessage (msg_chatId m) (msg_id m) |}.

(** The expiry of [m] is no more than the longest delay away from [now]. *)
Definition inTimerRange (now : Z) (m : message) : Prop :=
  expiryMs m - now ≤ maxDelay.

(** How often the id [i] occurs in a sequence of messages. *)
Definition occurrences (i : Z) (l : list message) : nat :=
  length (filter (λ m, msg_id m = i) l).

(** A live, registered expiry timer for the message id [i] whose due time
    satisfies [P]. *)
Definition armedWith (P : Z → Prop) (i : Z) (st : state) : Prop :=
  ∃ h t c, deletionTimers st !! i = Some h ∧ pending st !! h = Some t ∧
           timer_job t = ExpireMessage c i ∧ P (due t).

(** A live, registered expiry timer for the message id [i] that is due no
    sooner than [lo]. *)
Definition armedFrom (lo i : Z) (st : state) : Prop := armedWith (λ d, lo ≤ d) i st.

(** A live, registered expiry timer for the message id [i] that is due no
    sooner than 200 ms after [now]. *)
Definition armed (now i : Z) (st : state) : Prop := armedFrom (now + 200) i st.

(** No unread count is negative. *)
Definition unread_nonneg (st : state) : Prop :=
  ∀ k v, unreadCounts st !! k = Some v → 0 ≤ v.

(** The stores that a timer of the typing indicator never touches. *)
Definition storesView (st : state)
    : list chat * option chat * gmap Z Z * gmap Z bool * gmap Z datelike
      * list ws_payload * option Z :=
  (persistentContacts st, selectedChat st, unreadCounts st, presence st, cutoffs st,
   sent st, userId st).

(** The sort key as the specification words it: the most recent of the last
    message timestamp, the last-activity timestamp and the creation
    timestamp of the chat. *)
Definition specSortKey (c : chat) : Z :=
  Z.max (Z.max (toMs (match lastMessage c with
                      | Some p => pv_createdAt p
                      | None => DAbsent
                      end))
               (toMs (lastMessageTimestamp c)))
        (toMs (chat_createdAt c)).

(** The sort key of the code, in milliseconds. *)
Definition sortKey (c : chat) : Z := toMs (sortTime c).

(** A chat whose sort time is a date: the comparator never yields NaN on
    such chats. *)
Definition validKey (c : chat) : Prop := is_Some (getTime (sortTime c)).

(** Most recent first. *)
Definition newestFirst (key : chat → Z) (a b : chat) : Prop := key b ≤ key a.

(** A chat summary whose other participant reads offline. *)
Definition offline (c : chat) : Prop := isOnline (otherUser c) = false.

(** Everybody reads offline. *)
Definition allOffline (st : state) : Prop :=
  presence st = ∅ ∧
  Forall offline (persistentContacts st) ∧
  (∀ c, selectedChat st = Some c → offline c).

(** The presence map is empty and every chat summary reads offline. *)
Definition listOffline (st : state) : Prop :=
  presence st = ∅ ∧ Forall offline (persistentContacts st).

(** The events that are no presence event. *)
Definition noPresence (e : event) : Prop :=
  match e with
  | Socket _ (OnlineUsers _) | Socket _ (UserStatus _ _) => False
  | _ => True
  end.

(** The events that open no chat, or a chat summary that reads offline:
    [selectChat] stores the chat it is given as it is. *)
Definition opensOffline (e : event) : Prop :=
  match e with
  | SelectChat _ (Some c) _ | SelectChatBegins (Some c) => offline c
  | _ => True
  end.

(** The events that are no presence event and open no chat that reads
    online. *)
Definition quiet (e : event) : Prop :=
  match e with
  | Socket _ (OnlineUsers _) | Socket _ (UserStatus _ _) => False
  | SelectChat _ (Some c) _ | SelectChatBegins (Some c) => offline c
  | _ => True
  end.

(** The count that an answer of the server reports for the chat id [k]:
    the last positive count that it lists for a chat with this id. *)
Definition reportedUnread (uid : option Z) (contacts : list chat) (k : Z) : option Z :=
  last (filter (λ v, 0 < v) (serverUnreadOf uid <$> filter (λ c, chat_id c = k) contacts)).

(** The unread badge of the sidebar: [chat.unreadCount || 0], *)
Definition apiUnreadCount (c : chat) : Z := num_or (unreadCount c) 0.

(** [unreadCounts?.get(chat.id) || 0], *)
Definition mapUnreadCount (counts : gmap Z Z) (c : chat) : Z :=
  num_or (counts !! chat_id c) 0.

(** and [Math.max(apiUnreadCount, mapUnreadCount)], the number on the badge
    of a chat; the badge is drawn when it is positive. *)
Definition finalUnreadCount (counts : gmap Z Z) (c : chat) : Z :=
  Z.max (apiUnreadCount c) (mapUnreadCount counts c).

(** ** Sample data *)

Definition alice : user := {| user_id := 2; username := "alice"; isOnline := true |}.
Definition bob : user := {| user_id := 3; username := "bob"; isOnline := true |}.

(** A chat of user 1 with [other], as the server lists it. *)
Definition sampleChat (cid : Z) (other : user) (last : option preview)
    (lastTs created : datelike) (unread1 : option Z) : chat :=
  {| chat_id := cid; participant1Id := 1; participant2Id := user_id other;
     otherUser := other; lastMessage := last; lastMessageTimestamp := lastTs;
     chat_createdAt := created; unreadCount1 := unread1; unreadCount2 := None;
     unreadCount := None |}.

(** A text message sent by user 2 to user 1. *)
Definition sampleMessage (i c : Z) (created expires expires_snake : datelike) : message :=
  {| msg_id := i; msg_chatId := c; msg_senderId := 2; msg_receiverId := 1;
     msg_content := "hi"; msg_messageType := "text";
     msg_fileName := None; msg_fileSize := None;
     msg_createdAt := created; msg_expiresAt := expires;
     msg_expires_at := expires_snake; msg_destructTimer := None |}.

Definition samplePhoto : file :=
  {| file_name := "cat.png"; file_size := 2048; file_objectURL := "blob:cat" |}.

(** A message arrives, then the user deletes the chat: the expiry timer of
    the message is still live. *)
Definition afterDeleteChat : state :=
  run [Socket 1000 (NewMessage (sampleMessage 7 3 (DAt 900) (DAt 6000) DAbsent));
       DeleteChat 2000 3]
      (init_state (Some 1) true).

(** Two chats are listed, chat 1 before chat 2, and chat 2 is open. *)
Definition twoChats : state :=
  run [FetchContacts true
         (Some [sampleChat 1 alice None DAbsent (DAt 2000) None;
                sampleChat 2 bob None DAbsent (DAt 1000) None]);
       SelectChat 3000 (Some (sampleChat 2 bob None DAbsent (DAt 1000) None)) (Some [])]
      (init_state (Some 1) true).

(** Both participants are online and chat 2 is open. *)
Definition bothOnline : state :=
  run [Socket 3500 (OnlineUsers [2; 3])] twoChats.

(** * Further definitions *)

(** ** What the hook hands to the view *)

(** [selectedChat ? activeMessages.get(selectedChat.id) || [] : []]. *)
Definition messages (st : state) : list message :=
  match selectedChat st with
  | Some c => messagesOf st (chat_id c)
  | None => []
  end.

(** [selectedChat ? Boolean(typingByChat.get(selectedChat.id)) : false]. *)
Definition isOtherTyping (st : state) : bool :=
  match selectedChat st with
  | Some c => default false (typingByChat st !! chat_id c)
  | None => false
  end.

(** ** Predicates of the further properties *)

(** The events that do not delete the chat [c]. *)
Definition keepsCutoff (c : Z) (e : event) : Prop :=
  match e with
  | DeleteChat _ c' => c' ≠ c
  | _ => True
  end.

(** The typing flags and the handles of their idle timers. *)
Definition typingView (st : state) : gmap Z bool * gmap Z Z :=
  (typingByChat st, typingTimeouts st).

(** Every typing flag is [true] and has an idle timer registered. *)
Definition typingBacked (st : state) : Prop :=
  ∀ c b, typingByChat st !! c = Some b → b = true ∧ is_Some (typingTimeouts st !! c).

(** At most one live idle timer names a given chat. *)
Definition oneTimerPerChat (st : state) : Prop :=
  ∀ c h1 h2 t1 t2,
    pending st !! h1 = Some t1 → timer_job t1 = ClearTyping c →
    pending st !! h2 = Some t2 → timer_job t2 = ClearTyping c →
    h1 = h2.

(** The idle timer that a typing event at [now] arms for the chat [c]. *)
Definition typingTimer (now c : Z) : timer :=
  {| due := now + timerDelay 3000; timer_job := ClearTyping c |}.

(** The events other than the teardown of the hook. *)
Definition mounted (e : event) : Prop :=
  match e with
  | Unmount => False
  | _ => True
  end.

(** Every chat summary of the list shows what the presence map says of its
    other participant, offline when the map does not know that user. *)
Definition presenceConsistent (st : state) : Prop :=
  Forall (λ c, isOnline (otherUser c) = presenceSnapshot st (user_id (otherUser c)))
         (persistentContacts st).

(** A send reaches the socket when no file is attached or the upload of the
    attached file succeeds. *)
Definition delivers (f : option file) (up : upload_outcome) : Prop :=
  match f, up with
  | Some _, UploadFailed => False
  | _, _ => True
  end.


(** ** The unread badge of the sidebar *)

(** The count that a chat summary carries is at most the unread counter of
    its chat. *)
Definition listCountBacked (st : state) : Prop :=
  Forall (λ c, apiUnreadCount c ≤ unreadOf st (chat_id c)) (persistentContacts st).

(** The responses of the server list no chat twice. *)
Definition distinctChats (e : event) : Prop :=
  match e with
  | FetchContacts _ (Some contacts) => NoDup (map chat_id contacts)
  | _ => True
  end.

(** ** The loading flags *)



(** ** The message bubble

    The component [Message] reads the message object that the hook stores
    and shows a countdown to its expiry. It tells [undefined] and [null]
    from the empty string, which the hook does not, so the fields it reads
    are modelled with one more case than [datelike]. *)

Module Bubble.

(** A field of the message object as the component reads it. *)
Inductive raw : Type :=
  | RUndefined
  | RNull
  | REmpty
  | RInvalid
  | RAt (ms : Z).

(** The fields that the countdown reads; a numeric field is [None] when it
    is [undefined] or [null] and an integer otherwise. *)
Record bubble : Type := MkBubble {
  b_expiresAt : raw;
  b_expires_at : raw;
  b_expiresAtIso : raw;
  b_expiresAtISO : raw;
  b_createdAt : raw;
  b_destructTimer : option Z;
  b_destruct_timer : option Z
}.

(** [v ?? w]. *)
Definition coalesce (v w : raw) : raw :=
  match v with
  | RUndefined | RNull => w
  | _ => v
  end.

(** [toMs] of the component: [new Date(null)] is the epoch, every other
    value that is not a valid date gives NaN and so 0. *)
Definition toMs (v : raw) : Z :=
  match v with
  | RAt ms => ms
  | _ => 0
  end.

(** The same field as the hook sees it. *)
Definition toHook (v : raw) : datelike :=
  match v with
  | RUndefined | REmpty => DAbsent
  | RNull => DNull
  | RInvalid => DInvalid
  | RAt ms => DAt ms
  end.

(** The [useMemo] that computes [expiresAtMs]. *)
Definition expiresAtMs (b : bubble) : Z :=
  let expRaw :=
    coalesce (coalesce (coalesce (b_expiresAt b) (b_expires_at b)) (b_expiresAtIso b))
             (b_expiresAtISO b) in
  let expMs := toMs expRaw in
  if 0 <? expMs then expMs
  else
    let createdMs := toMs (b_createdAt b) in
    if createdMs =? 0 then 0
    else
      let dt :=
        match b_destructTimer b with
        | Some n => n
        | None => default 0 (b_destruct_timer b)
        end in
      if dt <=? 0 then 0
      else
        let dt' := if 100000 <? dt then dt / 1000 else dt in
        createdMs + dt' * 1000.

(** [expiresAtMs ? expiresAtMs - now : 0]. *)
Definition remainingMs (b : bubble) (now : Z) : Z :=
  if expiresAtMs b =? 0 then 0 else expiresAtMs b - now.

(** [expiresAtMs > 0 && remainingMs > 0]. *)
Definition showCountdown (b : bubble) (now : Z) : bool :=
  (0 <? expiresAtMs b) && (0 <? remainingMs b now).

(** The hours, minutes and seconds that [formatRemaining] prints. *)
Definition remainingParts (ms : Z) : Z * Z * Z :=
  let totalSec := Z.max 0 (ms / 1000) in
  let h := totalSec / 3600 in
  let m := (totalSec mod 3600) / 60 in
  let s := totalSec mod 60 in
  (h, m, s).

(** The component reads the message object that the hook holds as [m]. *)
Definition reads (b : bubble) (m : message) : Prop :=
  toHook (b_expiresAt b) = msg_expiresAt m ∧
  toHook (b_expires_at b) = msg_expires_at m ∧
  toHook (b_createdAt b) = msg_createdAt m ∧
  b_destructTimer b = msg_destructTimer m.

End Bubble.

(** ** Telling the peer about typing *)

(** The frame that [sendTyping] hands to the socket. *)
Record typing_frame : Type := TypingFrame {
  tf_chatId : Z;
  tf_senderId : Z;
  tf_receiverId : Z;
  tf_isTyping : bool
}.

(** [sendTyping]: the frame handed to [socket.send], and [None] when a
    guard returns [false]. The hook's state is not touched. *)
Definition sendTyping (isTyping : bool) (st : state) : option typing_frame :=
  match selectedChat st with
  | None => None
  | Some sc =>
      if noUser st then None
      else if negb (socketHasSend st) then None
      else Some {| tf_chatId := chat_id sc; tf_senderId := default 0 (userId st);
                   tf_receiverId := user_id (otherUser sc); tf_isTyping := isTyping |}
  end.

(** The [typing] event that a client receives when the frame is relayed
    with its four fields unchanged. *)
Definition relayed (f : typing_frame) : ws_event :=
  TypingEvent (tf_chatId f) (tf_senderId f) (tf_receiverId f) (tf_isTyping f).

(** ** The typing signal of the chat view

    The part of the component [ChatView] that tells the peer about typing:
    three refs, one idle timeout of the runtime, and the calls of the prop
    [onTyping]. A handler sees the props of the render that created it, so
    the idle timeout carries the props of the render that armed it. The
    clock is an argument, as in the hook. *)

Module Composer.

(** The props that the typing code reads; [selectedChat] is the id of the
    chat, and [None] for [null]. *)
Record props : Type := Props {
  isConnected : bool;
  selectedChat : option Z
}.

Record composer : Type := MkComposer {
  localTypingRef : bool;
  typingThrottleRef : Z;
  typingIdleTimerRef : option Z;
  timeouts : gmap Z (Z * props);
  nextTimeout : Z;
  onTypingCalls : list (Z * bool * Z)
}.

Definition init : composer :=
  {| localTypingRef := false; typingThrottleRef := 0; typingIdleTimerRef := None;
     timeouts := ∅; nextTimeout := 1; onTypingCalls := [] |}.

(** [onTyping(state)] in the render with the props [p], when the guard of
    [sendTypingSafe] lets it through. *)
Definition sendTypingSafe (now : Z) (p : props) (state : bool) (s : composer) : composer :=
  match selectedChat p with
  | Some c =>
      if isConnected p then
        {| localTypingRef := localTypingRef s; typingThrottleRef := typingThrottleRef s;
           typingIdleTimerRef := typingIdleTimerRef s; timeouts := timeouts s;
           nextTimeout := nextTimeout s;
           onTypingCalls := onTypingCalls s ++ [(now, state, c)] |}
      else s
  | None => s
  end.

(** [if (ref.current) clearTimeout(ref.current)]. *)
Definition clearIdle (s : composer) : composer :=
  match typingIdleTimerRef s with
  | Some h =>
      if h =? 0 then s
      else
        {| localTypingRef := localTypingRef s; typingThrottleRef := typingThrottleRef s;
           typingIdleTimerRef := typingIdleTimerRef s; timeouts := delete h (timeouts s);
           nextTimeout := nextTimeout s; onTypingCalls := onTypingCalls s |}
  | None => s
  end.

Definition setIdleRef (r : option Z) (s : composer) : composer :=
  {| localTypingRef := localTypingRef s; typingThrottleRef := typingThrottleRef s;
     typingIdleTimerRef := r; timeouts := timeouts s;
     nextTimeout := nextTimeout s; onTypingCalls := onTypingCalls s |}.

Definition setLocalTyping (b : bool) (throttle : Z) (s : composer) : composer :=
  {| localTypingRef := b; typingThrottleRef := throttle;
     typingIdleTimerRef := typingIdleTimerRef s; timeouts := timeouts s;
     nextTimeout := nextTimeout s; onTypingCalls := onTypingCalls s |}.

Definition stopTyping (now : Z) (p : props) (s : composer) : composer :=
  let s1 :=
    match typingIdleTimerRef s with
    | Some h => if h =? 0 then s else setIdleRef None (clearIdle s)
    | None => s
    end in
  if localTypingRef s1 then
    sendTypingSafe now p false (setLocalTyping false (typingThrottleRef s1) s1)
  else s1.

Definition startOrRefreshTyping (now : Z) (p : props) (s : composer) : composer :=
  if negb (localTypingRef s) || (2000 <? now - typingThrottleRef s) then
    sendTypingSafe now p true (setLocalTyping true now s)
  else s.

Definition handleInputChange (now : Z) (hasText : bool) (p : props) (s : composer)
    : composer :=
  match selectedChat p with
  | None => s
  | Some _ =>
      if negb (isConnected p) then s
      else if negb hasText then stopTyping now p s
      else
        let s1 := startOrRefreshTyping now p s in
        let s2 := clearIdle s1 in
        let h := nextTimeout s2 in
        {| localTypingRef := localTypingRef s2; typingThrottleRef := typingThrottleRef s2;
           typingIdleTimerRef := Some h;
           timeouts := <[h := (now + 1200, p)]> (timeouts s2);
           nextTimeout := h + 1; onTypingCalls := onTypingCalls s2 |}
  end.

(** The typing part of [handleSendMessage]; [hasText] says that the
    trimmed input is not empty. *)
Definition handleSendMessage (now : Z) (hasText : bool) (p : props) (s : composer)
    : composer :=
  match selectedChat p with
  | None => s
  | Some _ =>
      if negb hasText then s
      else if negb (isConnected p) then s
      else stopTyping now p s
  end.

(** The idle timeout [h] of the runtime fires. *)
Definition fireIdle (now h : Z) (s : composer) : composer :=
  match timeouts s !! h with
  | None => s
  | Some (_, p) =>
      stopTyping now p
        {| localTypingRef := localTypingRef s; typingThrottleRef := typingThrottleRef s;
           typingIdleTimerRef := typingIdleTimerRef s; timeouts := delete h (timeouts s);
           nextTimeout := nextTimeout s; onTypingCalls := onTypingCalls s |}
  end.

Inductive event : Type :=
  | InputChange (now : Z) (hasText : bool) (p : props)
  | IdleTimeout (now h : Z)
  | ChatChanged (now : Z) (p : props)
  | SendMessage (now : Z) (hasText : bool) (p : props).

(** [ChatChanged] is the effect on [selectedChat?.id]. *)
Definition step (s : composer) (e : event) : composer :=
  match e with
  | InputChange now hasText p => handleInputChange now hasText p s
  | IdleTimeout now h => fireIdle now h s
  | ChatChanged now p => stopTyping now p s
  | SendMessage now hasText p => handleSendMessage now hasText p s
  end.

Definition run (evs : list event) (s : composer) : composer := foldl step s evs.

(** The props with which a call of [onTyping] gets through. *)
Definition online (p : props) : Prop :=
  isConnected p = true ∧ is_Some (selectedChat p).

(** The refs, the runtime and the calls fit together: only the timeout of
    the ref is live, it is there exactly while the view counts as typing,
    it was armed by a render that can signal, no later than 3200 ms after
    the last [true], and while the view counts as typing its last call
    was a [true] at the time of the throttle. *)
Record wf (s : composer) : Prop := Wf {
  wf_next : 0 < nextTimeout s;
  wf_live : ∀ h t, timeouts s !! h = Some t →
    typingIdleTimerRef s = Some h ∧ 0 < h < nextTimeout s;
  wf_ref : ∀ h, typingIdleTimerRef s = Some h →
    localTypingRef s = true ∧
    ∃ due p, timeouts s !! h = Some (due, p) ∧ online p ∧
             due ≤ typingThrottleRef s + 3200;
  wf_idle : typingIdleTimerRef s = None → localTypingRef s = false;
  wf_last : localTypingRef s = true →
    ∃ c, last (onTypingCalls s) = Some (typingThrottleRef s, true, c)
}.

(** The calls [x] and [y] follow each other in [l]. *)
Definition adjacent {A} (x y : A) (l : list A) : Prop :=
  ∃ l1 l2, l = l1 ++ x :: y :: l2.

(** Every [false] comes directly after a [true]. *)
Definition falseAfterTrue (l : list (Z * bool * Z)) : Prop :=
  (∀ t c l', l ≠ (t, false, c) :: l') ∧
  (∀ t1 c1 t2 c2, ¬ adjacent (t1, false, c1) (t2, false, c2) l).


(** The time of an event. *)
Definition timeOf (e : event) : Z :=
  match e with
  | InputChange now _ _ | IdleTimeout now _ | ChatChanged now _ | SendMessage now _ _ => now
  end.


End Composer.


(** ** The older version of the hook

    The file holds a second, older version of the hook. Its
    [scheduleMessageDeletion] reads [expiresAt] only and has no guard. *)

Module Legacy.

Definition scheduleMessageDeletion (now : Z) (m : message) (st : state) : state :=
  let expiresAtMs := toMs (msg_expiresAt m) in
  let ms := Z.max (expiresAtMs - now) 200 in
  let st1 := clearTimer (msg_id m) st in
  let '(t, st2) := setTimeout now ms (ExpireMessage (msg_chatId m) (msg_id m)) st1 in
  setDeletionTimers (λ d, <[msg_id m := t]> d) st2.

End Legacy.
(** * Properties *)

(** Unfolding of the field updates. *)
Ltac unfold_setters :=
  unfold setPersistentContacts, setActiveMessages, setSelectedChat, setLoadFlags,
    setUnreadCounts, setTypingByChat, setTypingTimeouts, setDeletionTimers,
    setCutoffs, setPresence, setPending, setSent in *.

Lemma setPersistentContacts_same (f : list chat → list chat) (st : state) :
  f (persistentContacts st) = persistentContacts st →
  setPersistentContacts f st = st.
Proof. intros H. destruct st; unfold_setters; simpl in *. by rewrite H. Qed.

(** ** The chat list bump *)

Lemma list_find_absent (chatId : Z) (l : list chat) :
  chatId ∉ map chat_id l → list_find (λ c, chat_id c = chatId) l = None.
Proof.
  intros Hnot. apply list_find_None, Forall_forall. intros c Hc Heq.
  apply Hnot. rewrite <- Heq. apply list_elem_of_fmap. eauto.
Qed.

Lemma list_find_first (chatId : Z) (l1 l2 : list chat) (c : chat) :
  chatId ∉ map chat_id l1 → chat_id c = chatId →
  list_find (λ c', chat_id c' = chatId) (l1 ++ c :: l2) = Some (length l1, c).
Proof.
  induction l1 as [|a l1 IH]; intros Hnot Hc; simpl.
  - by rewrite decide_True.
  - rewrite decide_False.
    + rewrite IH; [done| |done]. intros Hin. apply Hnot. simpl. by right.
    + intros Ha. apply Hnot. simpl. rewrite Ha. by left.
Qed.

Lemma delete_middle {A} (l1 l2 : list A) (x : A) :
  delete (length l1) (l1 ++ x :: l2) = l1 ++ l2.
Proof. induction l1 as [|a l1 IH]; simpl; [done|]. by rewrite IH. Qed.

Lemma bumpList_absent (now chatId : Z) (lm : preview) (prev : list chat) :
  chatId ∉ map chat_id prev → bumpList now chatId lm prev = prev.
Proof. intros H. unfold bumpList. by rewrite list_find_absent. Qed.

Lemma bumpList_present (now chatId : Z) (lm : preview) (l1 l2 : list chat) (c : chat) :
  chatId ∉ map chat_id l1 → chat_id c = chatId →
  bumpList now chatId lm (l1 ++ c :: l2) =
    withLastMessage lm (date_or (pv_createdAt lm) (DAt now)) c :: l1 ++ l2.
Proof.
  intros Hnot Hc. unfold bumpList. rewrite list_find_first by done.
  by rewrite delete_middle.
Qed.

Lemma first_occurrence (chatId : Z) (l : list chat) :
  chatId ∈ map chat_id l →
  ∃ l1 c l2, l = l1 ++ c :: l2 ∧ chat_id c = chatId ∧ chatId ∉ map chat_id l1.
Proof.
  induction l as [|a l IH]; simpl; intros Hin.
  - by apply elem_of_nil in Hin.
  - destruct (decide (chat_id a = chatId)) as [Ha|Ha].
    + exists [], a, l. split_and!; [done|done|]. simpl. apply not_elem_of_nil.
    + apply elem_of_cons in Hin as [Hin|Hin]; [congruence|].
      destruct (IH Hin) as (l1 & c & l2 & -> & Hc & Hnot).
      exists (a :: l1), c, l2. split_and!; [done|done|].
      simpl. intros [?|?]%elem_of_cons; [congruence|done].
Qed.


(** ** Well-formed timers *)



Lemma timers_wf_view (st st' : state) :
  timerView st' = timerView st → timers_wf st → timers_wf st'.
Proof.
  unfold timerView. intros [= Hp Hn Hd Ht] [W1 W2 W3 W4].
  split; rewrite ?Hp, ?Hn, ?Hd, ?Ht; auto.
Qed.

Lemma timers_wf_init (uid : option Z) (hasSend : bool) :
  timers_wf (init_state uid hasSend).
Proof. split; simpl; [lia|intros ?? [=]..]. Qed.


Lemma timers_wf_one (st : state) : timers_wf st → oneTimerPerMessage st.
Proof.
  intros W i h1 h2 t1 t2 c1 c2 H1 J1 H2 J2.
  apply (wf_pending _ W) in H1 as [_ H1]. apply (wf_pending _ W) in H2 as [_ H2].
  rewrite J1 in H1. rewrite J2 in H2. congruence.
Qed.

(** *** [clearTimer] *)

#[local] Arguments clearTimer : simpl never.

Lemma clearTimer_deletionTimers (i : Z) (st : state) :
  deletionTimers (clearTimer i st) = delete i (deletionTimers st).
Proof.
  unfold clearTimer, clearTimeout.
  destruct (deletionTimers st !! i) as [t|]; [destruct (t =? 0)|]; reflexivity.
Qed.

Lemma clearTimer_pending (i : Z) (st : state) :
  pending (clearTimer i st) =
    match deletionTimers st !! i with
    | Some t => if t =? 0 then pending st else delete t (pending st)
    | None => pending st
    end.
Proof.
  unfold clearTimer, clearTimeout.
  destruct (deletionTimers st !! i) as [t|]; [destruct (t =? 0)|]; reflexivity.
Qed.

Lemma clearTimer_frame (i : Z) (st : state) :
  nextHandle (clearTimer i st) = nextHandle st ∧
  typingTimeouts (clearTimer i st) = typingTimeouts st ∧
  activeMessages (clearTimer i st) = activeMessages st ∧
  persistentContacts (clearTimer i st) = persistentContacts st ∧
  selectedChat (clearTimer i st) = selectedChat st ∧
  unreadCounts (clearTimer i st) = unreadCounts st ∧
  presence (clearTimer i st) = presence st ∧
  cutoffs (clearTimer i st) = cutoffs st ∧
  sent (clearTimer i st) = sent st ∧
  userId (clearTimer i st) = userId st.
Proof.
  unfold clearTimer, clearTimeout.
  destruct (deletionTimers st !! i) as [t|]; [destruct (t =? 0)|]; done.
Qed.

Lemma timers_wf_clearTimer (i : Z) (st : state) :
  timers_wf st → timers_wf (clearTimer i st).
Proof.
  intros W. pose proof (clearTimer_frame i st) as (Hn & Ht & _).
  pose proof (clearTimer_pending i st) as Hp.
  pose proof (clearTimer_deletionTimers i st) as Hd.
  assert (Hsub : ∀ h t, pending (clearTimer i st) !! h = Some t →
            pending st !! h = Some t ∧ deletionTimers st !! i ≠ Some h).
  { intros h t. rewrite Hp. destruct (deletionTimers st !! i) as [t0|] eqn:E.
    - destruct (Z.eqb_spec t0 0) as [->|Hne].
      + intros Hl. split; [done|]. intros [= <-].
        apply (wf_pending _ W) in Hl. lia.
      + intros [Hne' Hl]%lookup_delete_Some. split; [done|congruence].
    - intros Hl. by split. }
  assert (Hkeep : ∀ h t, pending st !! h = Some t → deletionTimers st !! i ≠ Some h →
            pending (clearTimer i st) !! h = Some t).
  { intros h t Hl Hne. rewrite Hp. destruct (deletionTimers st !! i) as [t0|] eqn:E.
    - destruct (t0 =? 0); [done|]. rewrite lookup_delete_ne; [done|congruence].
    - done. }
  split.
  - rewrite Hn. apply W.
  - intros h t Hl. apply Hsub in Hl as [Hl Hne].
    destruct (wf_pending _ W _ _ Hl) as [Hb Hreg]. rewrite Hn, Hd, Ht. split; [done|].
    destruct (timer_job t) as [c j|c]; [|done].
    rewrite lookup_delete_ne; [done|]. intros <-. congruence.
  - intros j h. rewrite Hd. intros [Hne Hl]%lookup_delete_Some.
    destruct (wf_deletion _ W _ _ Hl) as (t & c & Hpt & Hj).
    exists t, c. split; [|done]. apply Hkeep; [done|].
    intros Hi. destruct (wf_deletion _ W _ _ Hi) as (t' & c' & Hpt' & Hj').
    congruence.
  - intros c h. rewrite Ht. intros Hl.
    destruct (wf_typing _ W _ _ Hl) as (t & Hpt & Hj).
    exists t. split; [|done]. apply Hkeep; [done|].
    intros Hi. destruct (wf_deletion _ W _ _ Hi) as (t' & c' & Hpt' & Hj').
    congruence.
Qed.

(** *** [scheduleMessageDeletion] *)

Lemma timerDelay_nonneg (ms : Z) : 0 ≤ timerDelay ms.
Proof. unfold timerDelay. lia. Qed.

Lemma timerDelay_small (ms : Z) : 0 ≤ ms ≤ maxDelay → timerDelay ms = ms.
Proof.
  unfold timerDelay, toInt32, maxDelay. intros H. rewrite Z.mod_small by lia. lia.
Qed.

Lemma timerDelay_wraps (ms : Z) : maxDelay < ms < 4294967296 → timerDelay ms = 0.
Proof.
  unfold timerDelay, toInt32, maxDelay. intros H.
  replace (ms + 2147483648) with (ms - 2147483648 + 1 * 4294967296) by lia.
  rewrite Z_mod_plus_full, Z.mod_small by lia. lia.
Qed.

Lemma timerDelay_period (ms : Z) : timerDelay (ms + 4294967296) = timerDelay ms.
Proof.
  unfold timerDelay, toInt32.
  replace (ms + 4294967296 + 2147483648) with (ms + 2147483648 + 1 * 4294967296) by lia.
  by rewrite Z_mod_plus_full.
Qed.

(** When the timer that is armed for [m] at [now] is due. *)
Lemma expiryTimer_due (now : Z) (m : message) :
  now ≤ due (expiryTimer now m) ∧
  (inTimerRange now m →
   due (expiryTimer now m) = Z.max (expiryMs m) (now + 200) ∧
   now + 200 ≤ due (expiryTimer now m)).
Proof.
  unfold expiryTimer, inTimerRange. cbn [due].
  pose proof (timerDelay_nonneg (Z.max (expiryMs m - now) 200)). split; [lia|].
  intros Hr. rewrite timerDelay_small by (unfold maxDelay in *; lia). lia.
Qed.

Lemma schedule_invalid (now : Z) (m : message) (st : state) :
  expiryMs m = 0 → scheduleMessageDeletion now m st = st.
Proof. intros H. unfold scheduleMessageDeletion. by rewrite H. Qed.


Lemma schedule_valid (now : Z) (m : message) (st : state) :
  expiryMs m ≠ 0 →
  let st' := scheduleMessageDeletion now m st in
  deletionTimers st' = <[msg_id m := nextHandle st]> (deletionTimers st) ∧
  pending st' = <[nextHandle st := expiryTimer now m]> (pending (clearTimer (msg_id m) st)) ∧
  nextHandle st' = nextHandle st + 1 ∧
  typingTimeouts st' = typingTimeouts st.
Proof.
  intros Hexp. unfold scheduleMessageDeletion.
  destruct (Z.eqb_spec (expiryMs m) 0) as [?|_]; [done|].
  pose proof (clearTimer_frame (msg_id m) st) as (Hn & Ht & _).
  pose proof (clearTimer_deletionTimers (msg_id m) st) as Hd.
  remember (clearTimer (msg_id m) st) as st1 eqn:E1. clear E1.
  unfold setTimeout. unfold_setters. simpl. rewrite Hn, Hd, Ht.
  split_and!; try done. by rewrite insert_delete_eq.
Qed.

Lemma schedule_frame (now : Z) (m : message) (st : state) :
  let st' := scheduleMessageDeletion now m st in
  activeMessages st' = activeMessages st ∧
  persistentContacts st' = persistentContacts st ∧
  selectedChat st' = selectedChat st ∧
  unreadCounts st' = unreadCounts st ∧
  presence st' = presence st ∧
  cutoffs st' = cutoffs st ∧
  sent st' = sent st ∧
  userId st' = userId st.
Proof.
  unfold scheduleMessageDeletion. destruct (expiryMs m =? 0); [done|].
  pose proof (clearTimer_frame (msg_id m) st) as (_ & _ & Ha & Hc & Hs & Hu & Hp & Hk & Ho & Hi).
  remember (clearTimer (msg_id m) st) as st1 eqn:E1. clear E1.
  unfold setTimeout. unfold_setters. simpl. by rewrite Ha, Hc, Hs, Hu, Hp, Hk, Ho, Hi.
Qed.

Lemma timers_wf_schedule (now : Z) (m : message) (st : state) :
  timers_wf st → timers_wf (scheduleMessageDeletion now m st).
Proof.
  intros W. destruct (decide (expiryMs m = 0)) as [H0|Hv].
  { by rewrite schedule_invalid. }
  destruct (schedule_valid now m st Hv) as (Hd & Hp & Hn & Ht).
  pose proof (timers_wf_clearTimer (msg_id m) st W) as W1.
  pose proof (clearTimer_frame (msg_id m) st) as (Hn1 & Ht1 & _).
  pose proof (clearTimer_deletionTimers (msg_id m) st) as Hd1.
  split.
  - rewrite Hn. pose proof (wf_next _ W). lia.
  - intros h t. rewrite Hp, Hn, Hd, Ht.
    destruct (decide (h = nextHandle st)) as [->|Hne].
    + rewrite lookup_insert_eq. intros [= <-]. simpl. rewrite lookup_insert_eq.
      pose proof (wf_next _ W). split; [lia|done].
    + rewrite lookup_insert_ne by done. intros Hl.
      destruct (wf_pending _ W1 _ _ Hl) as [Hb Hreg]. rewrite Hn1 in Hb.
      split; [lia|]. rewrite Hd1, Ht1 in Hreg.
      destruct (timer_job t) as [c j|c]; [|done].
      apply lookup_delete_Some in Hreg as [Hij Hreg].
      by rewrite lookup_insert_ne.
  - intros j h. rewrite Hd, Hp.
    destruct (decide (j = msg_id m)) as [->|Hne].
    + rewrite lookup_insert_eq. intros [= <-]. rewrite lookup_insert_eq.
      by exists (expiryTimer now m), (msg_chatId m).
    + rewrite lookup_insert_ne by done. intros Hl.
      assert (Hl1 : deletionTimers (clearTimer (msg_id m) st) !! j = Some h).
      { rewrite Hd1. by rewrite lookup_delete_ne. }
      destruct (wf_deletion _ W1 _ _ Hl1) as (t & c & Hpt & Hj).
      exists t, c. split; [|done].
      destruct (wf_pending _ W1 _ _ Hpt) as [Hb _]. rewrite Hn1 in Hb.
      rewrite lookup_insert_ne by lia. done.
  - intros c h. rewrite Ht, Hp. intros Hl.
    assert (Hl1 : typingTimeouts (clearTimer (msg_id m) st) !! c = Some h).
    { by rewrite Ht1. }
    destruct (wf_typing _ W1 _ _ Hl1) as (t & Hpt & Hj).
    exists t. split; [|done].
    destruct (wf_pending _ W1 _ _ Hpt) as [Hb _]. rewrite Hn1 in Hb.
    rewrite lookup_insert_ne by lia. done.
Qed.

(** Scheduling arms a live, registered timer for the message. *)
Lemma schedule_arms (now : Z) (m : message) (st : state) :
  expiryMs m ≠ 0 →
  let st' := scheduleMessageDeletion now m st in
  deletionTimers st' !! msg_id m = Some (nextHandle st) ∧
  pending st' !! nextHandle st = Some (expiryTimer now m).
Proof.
  intros Hv. destruct (schedule_valid now m st Hv) as (Hd & Hp & _).
  simpl. rewrite Hd, Hp. by rewrite !lookup_insert_eq.
Qed.

(** Scheduling cancels the timer registered before for the same id. *)
Lemma schedule_cancels_prior (now : Z) (m : message) (st : state) (h : Z) :
  timers_wf st → expiryMs m ≠ 0 →
  deletionTimers st !! msg_id m = Some h →
  pending (scheduleMessageDeletion now m st) !! h = None.
Proof.
  intros W Hv Hreg. destruct (schedule_valid now m st Hv) as (_ & Hp & _).
  rewrite Hp. destruct (wf_deletion _ W _ _ Hreg) as (t & c & Hpt & _).
  destruct (wf_pending _ W _ _ Hpt) as [Hb _].
  rewrite lookup_insert_ne by lia. rewrite clearTimer_pending, Hreg.
  destruct (Z.eqb_spec h 0); [lia|]. apply lookup_delete_eq.
Qed.

(** A live timer for another message id survives a schedule. *)
Lemma schedule_keeps_other (now : Z) (m : message) (st : state) (h : Z) (t : timer)
    (c i : Z) :
  timers_wf st → pending st !! h = Some t → timer_job t = ExpireMessage c i →
  i ≠ msg_id m →
  pending (scheduleMessageDeletion now m st) !! h = Some t ∧
  deletionTimers (scheduleMessageDeletion now m st) !! i = Some h.
Proof.
  intros W Hpt Hj Hne. destruct (decide (expiryMs m = 0)) as [H0|Hv].
  { rewrite schedule_invalid by done. split; [done|].
    destruct (wf_pending _ W _ _ Hpt) as [_ Hreg]. by rewrite Hj in Hreg. }
  destruct (schedule_valid now m st Hv) as (Hd & Hp & _).
  destruct (wf_pending _ W _ _ Hpt) as [Hb Hreg]. rewrite Hj in Hreg.
  rewrite Hd, Hp. rewrite !lookup_insert_ne by (lia || done). split; [|done].
  rewrite clearTimer_pending.
  destruct (deletionTimers st !! msg_id m) as [h0|] eqn:E; [|done].
  destruct (h0 =? 0); [done|]. rewrite lookup_delete_ne; [done|].
  intros ->. destruct (wf_deletion _ W _ _ E) as (t' & c' & Hpt' & Hj'). congruence.
Qed.

(** *** A timer fires *)

Lemma fire_not_live (h : Z) (st : state) :
  pending st !! h = None → fire h st = st.
Proof. intros H. unfold fire. by rewrite H. Qed.

Lemma fire_expire_messages (h : Z) (st : state) (t : timer) (c i : Z) :
  pending st !! h = Some t → timer_job t = ExpireMessage c i →
  let st' := fire h st in
  activeMessages st' =
    <[c := filter (λ m, msg_id m ≠ i) (messagesOf st c)]> (activeMessages st) ∧
  persistentContacts st' = persistentContacts st ∧
  selectedChat st' = selectedChat st ∧
  unreadCounts st' = unreadCounts st ∧
  presence st' = presence st ∧
  cutoffs st' = cutoffs st ∧
  sent st' = sent st ∧
  userId st' = userId st ∧
  nextHandle st' = nextHandle st ∧
  typingTimeouts st' = typingTimeouts st ∧
  deletionTimers st' = delete i (deletionTimers st).
Proof.
  intros Hl Hj. unfold fire. rewrite Hl, Hj. unfold expireMessage.
  match goal with |- context [clearTimer i ?s] => remember s as st1 eqn:E1 end.
  pose proof (clearTimer_frame i st1) as (Hn & Ht & Ha & Hc & Hs & Hu & Hp & Hk & Ho & Hi).
  pose proof (clearTimer_deletionTimers i st1) as Hd.
  cbv zeta. rewrite Hn, Ht, Ha, Hc, Hs, Hu, Hp, Hk, Ho, Hi, Hd. by subst st1.
Qed.

Lemma fire_expire_pending (h : Z) (st : state) (t : timer) (c i : Z) :
  timers_wf st → pending st !! h = Some t → timer_job t = ExpireMessage c i →
  pending (fire h st) = delete h (pending st).
Proof.
  intros W Hl Hj. destruct (wf_pending _ W _ _ Hl) as [Hb Hreg]. rewrite Hj in Hreg.
  unfold fire. rewrite Hl, Hj. unfold expireMessage. rewrite clearTimer_pending.
  unfold clearTimeout. unfold_setters. simpl. rewrite Hreg.
  destruct (Z.eqb_spec h 0); [lia|]. by rewrite delete_delete_eq.
Qed.

Lemma timers_wf_remove (st st' : state) (h : Z) (t : timer) :
  timers_wf st → pending st !! h = Some t →
  pending st' = delete h (pending st) →
  nextHandle st' = nextHandle st →
  deletionTimers st' =
    match timer_job t with
    | ExpireMessage _ i => delete i (deletionTimers st)
    | ClearTyping _ => deletionTimers st
    end →
  typingTimeouts st' =
    match timer_job t with
    | ExpireMessage _ _ => typingTimeouts st
    | ClearTyping c => delete c (typingTimeouts st)
    end →
  timers_wf st'.
Proof.
  intros W Hl Hp Hn Hd Ht.
  destruct (wf_pending _ W _ _ Hl) as [Hb Hreg].
  split.
  - rewrite Hn. apply W.
  - intros h' t'. rewrite Hp, Hn, Hd, Ht. intros [Hne Hl']%lookup_delete_Some.
    destruct (wf_pending _ W _ _ Hl') as [Hb' Hreg']. split; [done|].
    destruct (timer_job t) as [c i|c], (timer_job t') as [c' i'|c']; try done.
    + rewrite lookup_delete_ne; [done|]. intros <-. congruence.
    + rewrite lookup_delete_ne; [done|]. intros <-. congruence.
  - intros j h'. rewrite Hd, Hp. intros Hreg'.
    assert (deletionTimers st !! j = Some h' ∧ h ≠ h') as [Hj Hne].
    { destruct (timer_job t) as [c i|c] eqn:E.
      - apply lookup_delete_Some in Hreg' as [Hij Hreg']. split; [done|].
        intros <-.
        destruct (wf_deletion _ W _ _ Hreg') as (t' & c' & Hpt' & Hj'). congruence.
      - split; [done|]. intros <-.
        destruct (wf_deletion _ W _ _ Hreg') as (t' & c' & Hpt' & Hj'). congruence. }
    destruct (wf_deletion _ W _ _ Hj) as (t' & c' & Hpt' & Hj').
    exists t', c'. by rewrite lookup_delete_ne.
  - intros c' h'. rewrite Ht, Hp. intros Hreg'.
    assert (typingTimeouts st !! c' = Some h' ∧ h ≠ h') as [Hj Hne].
    { destruct (timer_job t) as [c i|c] eqn:E.
      - split; [done|]. intros <-.
        destruct (wf_typing _ W _ _ Hreg') as (t' & Hpt' & Hj'). congruence.
      - apply lookup_delete_Some in Hreg' as [Hij Hreg']. split; [done|].
        intros <-.
        destruct (wf_typing _ W _ _ Hreg') as (t' & Hpt' & Hj'). congruence. }
    destruct (wf_typing _ W _ _ Hj) as (t' & Hpt' & Hj').
    exists t'. by rewrite lookup_delete_ne.
Qed.

(** *** Typing timers *)

#[local] Arguments clearTypingTimer : simpl never.

Lemma clearTypingTimer_fields (c : Z) (st : state) :
  typingTimeouts (clearTypingTimer c st) = delete c (typingTimeouts st) ∧
  pending (clearTypingTimer c st) =
    match typingTimeouts st !! c with
    | Some t => if t =? 0 then pending st else delete t (pending st)
    | None => pending st
    end ∧
  nextHandle (clearTypingTimer c st) = nextHandle st ∧
  deletionTimers (clearTypingTimer c st) = deletionTimers st ∧
  activeMessages (clearTypingTimer c st) = activeMessages st ∧
  persistentContacts (clearTypingTimer c st) = persistentContacts st ∧
  selectedChat (clearTypingTimer c st) = selectedChat st ∧
  unreadCounts (clearTypingTimer c st) = unreadCounts st ∧
  presence (clearTypingTimer c st) = presence st ∧
  cutoffs (clearTypingTimer c st) = cutoffs st ∧
  sent (clearTypingTimer c st) = sent st ∧
  userId (clearTypingTimer c st) = userId st ∧
  typingByChat (clearTypingTimer c st) = typingByChat st.
Proof.
  unfold clearTypingTimer, clearTimeout.
  destruct (typingTimeouts st !! c) as [t|]; [destruct (t =? 0)|]; done.
Qed.

Lemma timers_wf_clearTypingTimer (c : Z) (st : state) :
  timers_wf st → timers_wf (clearTypingTimer c st).
Proof.
  intros W. pose proof (clearTypingTimer_fields c st) as (Ht & Hp & Hn & Hd & _).
  destruct (typingTimeouts st !! c) as [h|] eqn:E.
  - destruct (wf_typing _ W _ _ E) as (t & Hpt & Hj).
    destruct (wf_pending _ W _ _ Hpt) as [Hb _].
    destruct (Z.eqb_spec h 0); [lia|].
    apply (timers_wf_remove st _ h t W Hpt Hp Hn); by rewrite Hj.
  - apply (timers_wf_view st); [|done]. unfold timerView.
    rewrite Hp, Hn, Hd, Ht. by rewrite delete_id.
Qed.

Lemma timers_wf_fire (h : Z) (st : state) : timers_wf st → timers_wf (fire h st).
Proof.
  intros W. destruct (pending st !! h) as [t|] eqn:Hl.
  2:{ by rewrite fire_not_live. }
  destruct (timer_job t) as [c i|c] eqn:Hj.
  - destruct (fire_expire_messages h st t c i Hl Hj) as (_&_&_&_&_&_&_&_& Hn & Ht & Hd).
    pose proof (fire_expire_pending h st t c i W Hl Hj) as Hp.
    apply (timers_wf_remove st _ h t W Hl Hp Hn); by rewrite Hj.
  - destruct (wf_pending _ W _ _ Hl) as [Hb Hreg]. rewrite Hj in Hreg.
    unfold fire. rewrite Hl, Hj.
    match goal with |- context [clearTypingTimer c ?s] => remember s as st1 eqn:E1 end.
    pose proof (clearTypingTimer_fields c st1) as (Ht & Hp & Hn & Hd & _).
    assert (Hreg1 : typingTimeouts st1 !! c = Some h) by (by subst st1).
    rewrite Hreg1 in Hp. destruct (Z.eqb_spec h 0); [lia|].
    apply (timers_wf_remove st _ h t W Hl); rewrite ?Hj, ?Hp, ?Hn, ?Hd, ?Ht; subst st1;
      simpl; try done.
    by rewrite delete_delete_eq.
Qed.

Lemma timers_wf_typing_event (now c : Z) (isTyping : bool) (st : state) :
  timers_wf st →
  timers_wf
    (let st1 := clearTypingTimer c st in
     let st2 := setTypingState c isTyping st1 in
     if isTyping then
       let '(t, st3) := setTimeout now 3000 (ClearTyping c) st2 in
       setTypingTimeouts (λ d, <[c := t]> d) st3
     else st2).
Proof.
  intros W. apply timers_wf_clearTypingTimer with (c := c) in W as W1.
  pose proof (clearTypingTimer_fields c st) as (Ht & _).
  remember (clearTypingTimer c st) as st1 eqn:E1. clear E1 W. cbv zeta.
  destruct isTyping; [|by apply (timers_wf_view st1)].
  unfold setTimeout, setTypingState. unfold_setters. simpl.
  destruct W1 as [W1 W2 W3 W4]. split; simpl.
  - lia.
  - intros h t. destruct (decide (h = nextHandle st1)) as [->|Hne].
    + rewrite lookup_insert_eq. intros [= <-]. simpl. rewrite lookup_insert_eq.
      split; [lia|done].
    + rewrite lookup_insert_ne by done. intros Hl.
      destruct (W2 _ _ Hl) as [Hb Hreg]. split; [lia|].
      destruct (timer_job t) as [c' j|c']; [done|].
      rewrite lookup_insert_ne; [done|]. intros <-.
      rewrite Ht, lookup_delete_eq in Hreg. done.
  - intros j h Hl. destruct (W3 _ _ Hl) as (t & c' & Hpt & Hj).
    exists t, c'. split; [|done]. destruct (W2 _ _ Hpt) as [Hb _].
    by rewrite lookup_insert_ne by lia.
  - intros c' h. destruct (decide (c' = c)) as [->|Hne].
    + rewrite lookup_insert_eq. intros [= <-]. rewrite lookup_insert_eq. eauto.
    + rewrite lookup_insert_ne by done. intros Hl.
      destruct (W4 _ _ Hl) as (t & Hpt & Hj). exists t. split; [|done].
      destruct (W2 _ _ Hpt) as [Hb _]. by rewrite lookup_insert_ne by lia.
Qed.

(** *** Teardown *)

Lemma clearAllTimeouts_lookup (handles : gmap Z Z) (p : gmap Z timer) (h : Z) (t : timer) :
  clearAllTimeouts handles p !! h = Some t →
  p !! h = Some t ∧ ∀ k, handles !! k ≠ Some h.
Proof.
  unfold clearAllTimeouts. revert h t.
  apply (map_fold_weak_ind
           (λ r m, ∀ h t, r !! h = Some t → p !! h = Some t ∧ ∀ k, m !! k ≠ Some h)).
  - intros h t Hl. split; [done|]. intros k. by rewrite lookup_empty.
  - intros i x m r Hi IH h t [Hne Hl]%lookup_delete_Some.
    destruct (IH _ _ Hl) as [Hp Hm]. split; [done|]. intros k.
    destruct (decide (k = i)) as [->|Hk].
    + rewrite lookup_insert_eq. congruence.
    + rewrite lookup_insert_ne by done. apply Hm.
Qed.

Lemma cleanup_no_timer (st : state) (h : Z) :
  timers_wf st → pending (cleanup st) !! h = None.
Proof.
  intros W. unfold cleanup. unfold_setters. simpl.
  destruct (clearAllTimeouts _ _ !! h) as [t|] eqn:E; [|done]. exfalso.
  apply clearAllTimeouts_lookup in E as [E Hty].
  apply clearAllTimeouts_lookup in E as [E Hde].
  destruct (wf_pending _ W _ _ E) as [_ Hreg].
  destruct (timer_job t); [by apply Hde in Hreg|by apply Hty in Hreg].
Qed.

Lemma timers_wf_cleanup (st : state) : timers_wf st → timers_wf (cleanup st).
Proof.
  intros W. pose proof (cleanup_no_timer st) as Hnone. split.
  - apply W.
  - intros h t Hl. by rewrite Hnone in Hl.
  - intros i h. unfold cleanup. unfold_setters. simpl. by rewrite lookup_empty.
  - intros c h. unfold cleanup. unfold_setters. simpl. by rewrite lookup_empty.
Qed.

(** *** Every reaction keeps the timers well formed *)

Lemma timers_wf_setPersistentContacts (f : list chat → list chat) (st : state) :
  timers_wf st → timers_wf (setPersistentContacts f st).
Proof. by apply timers_wf_view. Qed.

Lemma timers_wf_setUnreadCounts (f : gmap Z Z → gmap Z Z) (st : state) :
  timers_wf st → timers_wf (setUnreadCounts f st).
Proof. by apply timers_wf_view. Qed.

Lemma timers_wf_setActiveMessages
    (f : gmap Z (list message) → gmap Z (list message)) (st : state) :
  timers_wf st → timers_wf (setActiveMessages f st).
Proof. by apply timers_wf_view. Qed.

Lemma applyPresence_view (uid : Z) (online : bool) (st : state) :
  timerView (applyPresence uid online st) = timerView st.
Proof. unfold applyPresence. by destruct (uid =? 0). Qed.

Lemma timers_wf_schedule_all (now : Z) (msgs : list message) (st : state) :
  timers_wf st → timers_wf (foldl (λ s m, scheduleMessageDeletion now m s) st msgs).
Proof.
  revert st. induction msgs as [|m msgs IH]; intros st W; simpl; [done|].
  by apply IH, timers_wf_schedule.
Qed.

Lemma timers_wf_loadActiveMessages (now chatId : Z) (resp : option (list message))
    (st : state) :
  timers_wf st → timers_wf (loadActiveMessages now chatId resp st).
Proof.
  intros W. unfold loadActiveMessages. destruct resp as [msgs|].
  - apply timers_wf_schedule_all. by apply (timers_wf_view st).
  - by apply (timers_wf_view st).
Qed.

Lemma timers_wf_fetchContacts (showSpinner : bool) (resp : option (list chat))
    (st : state) :
  timers_wf st → timers_wf (fetchContacts showSpinner resp st).
Proof.
  intros W. apply (timers_wf_view st); [|done]. unfold fetchContacts.
  destruct (noUser st); [done|]. by destruct showSpinner, resp.
Qed.

Lemma timers_wf_selectChat (now : Z) (c : option chat) (resp : option (list message))
    (st : state) :
  timers_wf st → timers_wf (selectChat now c resp st).
Proof.
  intros W. unfold selectChat. destruct c as [ch|]; [|by apply (timers_wf_view st)].
  destruct (noUser st); [by apply (timers_wf_view st)|].
  apply timers_wf_loadActiveMessages. by apply (timers_wf_view st).
Qed.

Lemma timers_wf_deleteChat (now chatId : Z) (st : state) :
  timers_wf st → timers_wf (deleteChat now chatId st).
Proof.
  intros W. apply (timers_wf_view st); [|done]. unfold deleteChat.
  by destruct (noUser st).
Qed.

Lemma timers_wf_sendMessage_start (clk : send_clock) (content type : string) (d : option Z)
    (f : option file) (st st' : state) (ctx : send_ctx) :
  timers_wf st → sendMessage_start clk content type d f st = Some (ctx, st') →
  timers_wf st'.
Proof.
  intros W. unfold sendMessage_start. destruct (selectedChat st) as [sc|]; [|done].
  destruct (noUser st); [done|]. destruct (socketHasSend st); [|done]. simpl.
  destruct (sendThrows clk d); [done|].
  intros [= _ <-]. unfold bumpChatToTopAndUpdateLast.
  by apply timers_wf_setPersistentContacts, timers_wf_schedule,
    timers_wf_setActiveMessages.
Qed.

Lemma sendMessage_finish_view (ctx : send_ctx) (up : upload_outcome) (st : state) :
  timerView (sendMessage_finish ctx up st) = timerView st.
Proof. unfold sendMessage_finish. by destruct (ctx_file ctx), up. Qed.

Lemma timers_wf_sendMessage (clk : send_clock) (content type : string) (d : option Z)
    (f : option file) (up : upload_outcome) (st : state) :
  timers_wf st → timers_wf (sendMessage clk content type d f up st).
Proof.
  intros W. unfold sendMessage.
  destruct (sendMessage_start clk content type d f st) as [[ctx st1]|] eqn:E; [|done].
  apply (timers_wf_view st1); [apply sendMessage_finish_view|].
  by eapply timers_wf_sendMessage_start.
Qed.

Lemma timers_wf_handleWSData (now : Z) (data : ws_event) (st : state) :
  timers_wf st → timers_wf (handleWSData now data st).
Proof.
  intros W. destruct data as [ids|uid online|uid name|c s r ty|m]; simpl.
  - generalize (filter (λ x, x ≠ 0) ids). intros l.
    generalize (userId st). intros u.
    revert st W. induction l as [|x l IH]; intros st W; simpl; [done|].
    apply IH. destruct (negb (x =? 0) && negb (bool_decide (Some x = u))); [|done].
    apply (timers_wf_view st); [apply applyPresence_view|done].
  - destruct (uid =? 0); [done|].
    apply (timers_wf_view st); [apply applyPresence_view|done].
  - destruct ((uid =? 0) || bool_decide (name = EmptyString)); [done|].
    by apply (timers_wf_view st).
  - destruct ((c =? 0) || negb (bool_decide (Some r = userId st))); [done|].
    destruct (bool_decide (Some s = userId st)); [done|].
    by apply timers_wf_typing_event.
  - destruct (negb (bool_decide (Some (msg_receiverId m) = userId st))); [done|].
    destruct (rejectedByCutoff st m); [done|].
    unfold bumpChatToTopAndUpdateLast.
    match goal with
    | |- timers_wf (if ?b then _ else _) => destruct b
    end; [apply timers_wf_setUnreadCounts|];
      by apply timers_wf_setPersistentContacts, timers_wf_schedule,
        timers_wf_setActiveMessages.
Qed.

Lemma timers_wf_step (st : state) (e : event) : timers_wf st → timers_wf (step st e).
Proof.
  intros W. destruct e; simpl.
  - by apply (timers_wf_view st).
  - by apply timers_wf_fetchContacts.
  - by apply timers_wf_selectChat.
  - by apply (timers_wf_view st).
  - destruct (noUser st); [done|]. by apply (timers_wf_view st).
  - by apply timers_wf_loadActiveMessages.
  - by apply timers_wf_deleteChat.
  - by apply timers_wf_sendMessage.
  - match goal with
    | |- context [sendMessage_start ?a ?b ?c ?d ?e ?s] =>
        destruct (sendMessage_start a b c d e s) as [[ctx st1]|] eqn:E; [|done]
    end.
    by eapply timers_wf_sendMessage_start.
  - apply (timers_wf_view st); [apply sendMessage_finish_view|done].
  - destruct (noUser st); [done|]. by apply timers_wf_handleWSData.
  - by apply timers_wf_fire.
  - by apply timers_wf_cleanup.
Qed.

Lemma timers_wf_run (evs : list event) (st : state) :
  timers_wf st → timers_wf (run evs st).
Proof.
  unfold run. revert st. induction evs as [|e evs IH]; intros st W; simpl; [done|].
  by apply IH, timers_wf_step.
Qed.

(** ** Expiry timers and the message store *)


Lemma length_filter_split (i : Z) (l : list message) :
  length l = (occurrences i l + length (filter (λ m, msg_id m ≠ i) l))%nat.
Proof.
  unfold occurrences. induction l as [|m l IH]; [done|].
  rewrite !filter_cons. destruct (decide (msg_id m = i)) as [He|Hne].
  - rewrite decide_False by (intros ?; done). simpl. lia.
  - rewrite decide_True by done. simpl. lia.
Qed.

Lemma fire_shrinks_pending (h h' : Z) (t' : timer) (st : state) :
  pending (fire h st) !! h' = Some t' → pending st !! h' = Some t'.
Proof.
  unfold fire. destruct (pending st !! h) as [t|] eqn:Hl; [|done].
  destruct (timer_job t) as [c i|c].
  - unfold expireMessage. rewrite clearTimer_pending.
    unfold clearTimeout. unfold_setters. simpl.
    destruct (deletionTimers st !! i) as [h0|]; [destruct (h0 =? 0)|];
      intros H; repeat (apply lookup_delete_Some in H as [_ H]); done.
  - pose proof (clearTypingTimer_fields c
      (setTypingState c false (clearTimeout h st))) as (_ & Hp & _).
    rewrite Hp. unfold clearTimeout, setTypingState. unfold_setters. simpl.
    destruct (typingTimeouts st !! c) as [h0|]; [destruct (h0 =? 0)|];
      intros H; repeat (apply lookup_delete_Some in H as [_ H]); done.
Qed.

(** A timer that fires for another chat or another id keeps a message. *)
Lemma fire_keeps_message (h : Z) (st : state) (c : Z) (m : message) :
  (∀ t, pending st !! h = Some t → timer_job t ≠ ExpireMessage c (msg_id m)) →
  m ∈ messagesOf st c → m ∈ messagesOf (fire h st) c.
Proof.
  intros Hother Hin. destruct (pending st !! h) as [t|] eqn:Hl.
  2:{ by rewrite fire_not_live. }
  specialize (Hother t eq_refl).
  destruct (timer_job t) as [c' i|c'] eqn:Hj.
  - destruct (fire_expire_messages h st t c' i Hl Hj) as (Ha & _).
    unfold messagesOf in *. rewrite Ha.
    destruct (decide (c' = c)) as [->|Hc].
    + rewrite lookup_insert_eq. simpl. apply list_elem_of_filter. split; [|done].
      intros <-. done.
    + by rewrite lookup_insert_ne.
  - unfold fire. rewrite Hl, Hj.
    match goal with |- context [clearTypingTimer c' ?s] => remember s as st1 eqn:E1 end.
    pose proof (clearTypingTimer_fields c' st1) as (_&_&_&_& Ha & _).
    unfold messagesOf in *. rewrite Ha. by subst st1.
Qed.

Lemma fires_keep_message (hs : list Z) (st : state) (c : Z) (m : message) :
  (∀ h t, pending st !! h = Some t → timer_job t ≠ ExpireMessage c (msg_id m)) →
  m ∈ messagesOf st c → m ∈ messagesOf (foldl (λ s h, fire h s) st hs) c.
Proof.
  revert st. induction hs as [|h hs IH]; intros st Hother Hin; simpl; [done|].
  apply IH.
  - intros h' t' Hl. apply fire_shrinks_pending in Hl. by eapply Hother.
  - apply fire_keeps_message; [|done]. intros t. apply Hother.
Qed.

(** Scheduling and firing on a state with well-formed timers. *)
Lemma expiry_timers_wf (st : state) :
  timers_wf st →
  oneTimerPerMessage st ∧
  (∀ now m, expiryMs m ≠ 0 →
     let st' := scheduleMessageDeletion now m st in
     deletionTimers st' !! msg_id m = Some (nextHandle st) ∧
     pending st' !! nextHandle st = Some (expiryTimer now m) ∧
     (∀ h, deletionTimers st !! msg_id m = Some h → pending st' !! h = None) ∧
     oneTimerPerMessage st') ∧
  (∀ h t c i, pending st !! h = Some t → timer_job t = ExpireMessage c i →
     let st' := fire h st in
     messagesOf st' c = filter (λ m, msg_id m ≠ i) (messagesOf st c) ∧
     (∀ c', c' ≠ c → activeMessages st' !! c' = activeMessages st !! c') ∧
     length (messagesOf st c) =
       (occurrences i (messagesOf st c) + length (messagesOf st' c))%nat ∧
     pending st' !! h = None ∧
     deletionTimers st' !! i = None ∧
     (∀ h' t' c', pending st' !! h' = Some t' → timer_job t' ≠ ExpireMessage c' i) ∧
     fire h st' = st').
Proof.
  intros W. split_and!.
  - by apply timers_wf_one.
  - intros now m Hv st'. destruct (schedule_arms now m st Hv) as [Hd Hp].
    split_and!; [done|done| |].
    + intros h Hreg. by apply schedule_cancels_prior.
    + by apply timers_wf_one, timers_wf_schedule.
  - intros h t c i Hl Hj st'.
    destruct (fire_expire_messages h st t c i Hl Hj) as (Ha &_&_&_&_&_&_&_&_&_& Hd).
    pose proof (fire_expire_pending h st t c i W Hl Hj) as Hp.
    assert (Hm : messagesOf st' c = filter (λ m, msg_id m ≠ i) (messagesOf st c)).
    { unfold messagesOf at 1. subst st'. rewrite Ha. by rewrite lookup_insert_eq. }
    assert (Hgone : pending st' !! h = None).
    { subst st'. rewrite Hp. apply lookup_delete_eq. }
    split_and!.
    + done.
    + intros c' Hne. subst st'. rewrite Ha. by rewrite lookup_insert_ne.
    + rewrite Hm. apply length_filter_split.
    + done.
    + subst st'. rewrite Hd. apply lookup_delete_eq.
    + intros h' t' c' Hl' Hj'.
      pose proof (timers_wf_fire h st W) as W'. fold st' in W'.
      destruct (wf_pending _ W' _ _ Hl') as [_ Hreg]. rewrite Hj' in Hreg.
      subst st'. rewrite Hd, lookup_delete_eq in Hreg. done.
    + by apply fire_not_live.
Qed.

(** ** Loading the messages of a chat *)

Lemma expiryMs_zero_iff (m : message) :
  expiryMs m = 0 ↔
  toMs (msg_expiresAt m) = 0 ∧
  (date_truthy (msg_expiresAt m) = false → toMs (msg_expires_at m) = 0).
Proof.
  unfold expiryMs, date_or. destruct (date_truthy (msg_expiresAt m)) eqn:E.
  - split; [intros H; split; [done|done]|by intros [H _]].
  - split.
    + intros H. split; [|done]. by destruct (msg_expiresAt m).
    + intros [_ H]. by apply H.
Qed.

Lemma filterByCutoff_spec (chatId : Z) (msgs : list message) (cutoffIso : datelike)
    (m : message) :
  m ∈ filterByCutoff chatId msgs cutoffIso ↔
  m ∈ msgs ∧ (toMs cutoffIso = 0 ∨ toMs cutoffIso < toMs (msg_createdAt m)).
Proof.
  unfold filterByCutoff. destruct (date_truthy cutoffIso) eqn:E; simpl.
  - destruct (Z.eqb_spec (toMs cutoffIso) 0) as [H0|Hne].
    + split; [intros H; split; [done|by left]|by intros [H _]].
    + rewrite list_elem_of_filter. split.
      * intros [H1 H2]. split; [done|by right].
      * intros [H1 [H2|H2]]; [done|]. by split.
  - assert (toMs cutoffIso = 0) as H0 by (by destruct cutoffIso).
    split; [intros H; split; [done|by left]|by intros [H _]].
Qed.

Lemma schedule_all_frame (now : Z) (msgs : list message) (st : state) :
  let st' := foldl (λ s m, scheduleMessageDeletion now m s) st msgs in
  activeMessages st' = activeMessages st ∧
  persistentContacts st' = persistentContacts st ∧
  selectedChat st' = selectedChat st ∧
  unreadCounts st' = unreadCounts st ∧
  presence st' = presence st ∧
  cutoffs st' = cutoffs st ∧
  sent st' = sent st ∧
  userId st' = userId st.
Proof.
  revert st. induction msgs as [|m msgs IH]; intros st; simpl; [done|].
  destruct (IH (scheduleMessageDeletion now m st)) as (Ha & Hc & Hs & Hu & Hp & Hk & Ho & Hi).
  destruct (schedule_frame now m st) as (Ha' & Hc' & Hs' & Hu' & Hp' & Hk' & Ho' & Hi').
  simpl in *. by rewrite Ha, Hc, Hs, Hu, Hp, Hk, Ho, Hi.
Qed.

Lemma schedule_armedWith (P : Z → Prop) (now : Z) (m : message) (st : state) :
  expiryMs m ≠ 0 → P (due (expiryTimer now m)) →
  armedWith P (msg_id m) (scheduleMessageDeletion now m st).
Proof.
  intros Hv HP. destruct (schedule_arms now m st Hv) as [Hd Hp].
  by exists (nextHandle st), (expiryTimer now m), (msg_chatId m).
Qed.

Lemma schedule_armed (now : Z) (m : message) (st : state) :
  expiryMs m ≠ 0 → inTimerRange now m →
  armed now (msg_id m) (scheduleMessageDeletion now m st).
Proof.
  intros Hv Hr. apply schedule_armedWith; [done|].
  by destruct (expiryTimer_due now m) as [_ [_ ?]].
Qed.

Lemma schedule_keeps_armedWith (P : Z → Prop) (now i : Z) (m : message) (st : state) :
  timers_wf st →
  (expiryMs m ≠ 0 → msg_id m = i → P (due (expiryTimer now m))) →
  armedWith P i st → armedWith P i (scheduleMessageDeletion now m st).
Proof.
  intros W HP (h & t & c & Hd & Hp & Hj & Hdue).
  destruct (decide (expiryMs m = 0)) as [H0|Hv].
  { rewrite schedule_invalid by done. by exists h, t, c. }
  destruct (decide (i = msg_id m)) as [->|Hne].
  { apply schedule_armedWith; [done|by apply HP]. }
  destruct (schedule_keeps_other now m st h t c i W Hp Hj Hne) as [Hp' Hd'].
  by exists h, t, c.
Qed.

Lemma schedule_all_keeps_armedWith (P : Z → Prop) (now i : Z) (msgs : list message)
    (st : state) :
  timers_wf st →
  (∀ m, m ∈ msgs → expiryMs m ≠ 0 → msg_id m = i → P (due (expiryTimer now m))) →
  armedWith P i st →
  armedWith P i (foldl (λ s m, scheduleMessageDeletion now m s) st msgs).
Proof.
  revert st. induction msgs as [|m msgs IH]; intros st W HP Ha; simpl; [done|].
  apply IH; [by apply timers_wf_schedule| |].
  - intros m' Hin. apply HP. by right.
  - apply schedule_keeps_armedWith; [done| |done]. apply HP. by left.
Qed.

Lemma schedule_all_armedWith (P : Z → Prop) (now : Z) (msgs : list message) (st : state)
    (m : message) :
  timers_wf st →
  (∀ m', m' ∈ msgs → expiryMs m' ≠ 0 → msg_id m' = msg_id m →
         P (due (expiryTimer now m'))) →
  m ∈ msgs → expiryMs m ≠ 0 →
  armedWith P (msg_id m) (foldl (λ s m, scheduleMessageDeletion now m s) st msgs).
Proof.
  revert st. induction msgs as [|m0 msgs IH]; intros st W HP Hin Hv; simpl.
  - by apply elem_of_nil in Hin.
  - apply elem_of_cons in Hin as [->|Hin].
    + apply schedule_all_keeps_armedWith; [by apply timers_wf_schedule| |].
      * intros m' Hin'. apply HP. by right.
      * apply schedule_armedWith; [done|]. apply HP; [by left|done..].
    + apply IH; [by apply timers_wf_schedule| |done|done].
      intros m' Hin'. apply HP. by right.
Qed.

Lemma loadActiveMessages_messages (now chatId : Z) (msgs : list message) (st : state) :
  messagesOf (loadActiveMessages now chatId (Some msgs) st) chatId =
    filterByCutoff chatId msgs (cutoffIsoOf st chatId).
Proof.
  unfold loadActiveMessages, messagesOf.
  match goal with
  | |- context [foldl ?f ?s ?l] => destruct (schedule_all_frame now l s) as (Ha & _)
  end.
  simpl in Ha. rewrite Ha. simpl. by rewrite lookup_insert_eq.
Qed.

Lemma loadActiveMessages_wf (now chatId : Z) (msgs : list message) (st : state) :
  timers_wf st →
  let st' := loadActiveMessages now chatId (Some msgs) st in
  messagesOf st' chatId = filterByCutoff chatId msgs (cutoffIsoOf st chatId) ∧
  (∀ m, m ∈ messagesOf st' chatId ↔
        m ∈ msgs ∧
        (toMs (cutoffIsoOf st chatId) = 0 ∨
         toMs (cutoffIsoOf st chatId) < toMs (msg_createdAt m))) ∧
  (∀ (P : Z → Prop) m, m ∈ messagesOf st' chatId → expiryMs m ≠ 0 →
        (∀ m', m' ∈ messagesOf st' chatId → expiryMs m' ≠ 0 → msg_id m' = msg_id m →
               P (due (expiryTimer now m'))) →
        armedWith P (msg_id m) st') ∧
  (∀ c, c ≠ chatId → activeMessages st' !! c = activeMessages st !! c).
Proof.
  intros W st'. pose proof (loadActiveMessages_messages now chatId msgs st) as Hm.
  fold st' in Hm. split_and!.
  - done.
  - intros m. rewrite Hm. apply filterByCutoff_spec.
  - intros P m Hin Hv. rewrite Hm. rewrite Hm in Hin. intros HP. subst st'.
    unfold loadActiveMessages.
    apply schedule_all_armedWith; [by apply timers_wf_setActiveMessages|done..].
  - intros c Hne. subst st'. unfold loadActiveMessages.
    match goal with
    | |- context [foldl ?f ?s ?l] => destruct (schedule_all_frame now l s) as (Ha & _)
    end.
    simpl in Ha. rewrite Ha. simpl. by rewrite lookup_insert_ne.
Qed.

Lemma run_timer_fires (hs : list Z) (st : state) :
  run (TimerFires <$> hs) st = foldl (λ s h, fire h s) st hs.
Proof.
  unfold run. revert st. induction hs as [|h hs IH]; intros st; simpl; [done|].
  apply IH.
Qed.

(** ** Inbound messages *)

Lemma rejectedByCutoff_spec (st : state) (m : message) :
  rejectedByCutoff st m = true ↔
  toMs (cutoffIsoOf st (msg_chatId m)) ≠ 0 ∧ toMs (msg_createdAt m) ≠ 0 ∧
  toMs (msg_createdAt m) ≤ toMs (cutoffIsoOf st (msg_chatId m)).
Proof.
  unfold rejectedByCutoff.
  destruct (date_truthy (cutoffIsoOf st (msg_chatId m))) eqn:E.
  - rewrite !andb_true_iff, !negb_true_iff, !Z.eqb_neq, Z.leb_le. tauto.
  - split; [done|]. intros [H _]. by destruct (cutoffIsoOf st (msg_chatId m)).
Qed.

Lemma newMessage_wrong_receiver (now : Z) (m : message) (st : state) :
  Some (msg_receiverId m) ≠ userId st → handleWSData now (NewMessage m) st = st.
Proof. intros H. simpl. by rewrite bool_decide_eq_false_2. Qed.

Lemma newMessage_rejected (now : Z) (m : message) (st : state) :
  rejectedByCutoff st m = true → handleWSData now (NewMessage m) st = st.
Proof.
  intros H. simpl. rewrite H.
  by destruct (negb (bool_decide (Some (msg_receiverId m) = userId st))).
Qed.

(** What an accepted message does to the stores. *)
Lemma newMessage_accepted (now : Z) (m : message) (st : state) :
  Some (msg_receiverId m) = userId st → rejectedByCutoff st m = false →
  let st' := handleWSData now (NewMessage m) st in
  let c := msg_chatId m in
  messagesOf st' c =
    (if bool_decide (Exists (λ x, msg_id x = msg_id m) (messagesOf st c))
     then messagesOf st c else messagesOf st c ++ [m]) ∧
  (∀ c', c' ≠ c → activeMessages st' !! c' = activeMessages st !! c') ∧
  unreadCounts st' =
    (if isOpen st c then unreadCounts st
     else <[c := unreadOf st c + 1]> (unreadCounts st)) ∧
  persistentContacts st' =
    bumpList now c
      {| pv_id := msg_id m;
         pv_content := previewContent (msg_messageType m) (msg_content m);
         pv_createdAt := date_or (msg_createdAt m) (DAt now) |}
      (persistentContacts st) ∧
  userId st' = userId st ∧ cutoffs st' = cutoffs st ∧
  selectedChat st' = selectedChat st ∧ sent st' = sent st ∧
  presence st' = presence st.
Proof.
  intros Hrecv Hacc. simpl. rewrite bool_decide_eq_true_2 by done. rewrite Hacc. simpl.
  match goal with
  | |- context [scheduleMessageDeletion now m ?s] =>
      destruct (schedule_frame now m s) as (Ha & Hc & Hs & Hu & Hp & Hk & Ho & Hi);
      remember (scheduleMessageDeletion now m s) as st2 eqn:E2
  end.
  clear E2. simpl in *. unfold messagesOf, unreadOf, bumpChatToTopAndUpdateLast.
  destruct (isOpen st (msg_chatId m)); simpl; rewrite Ha, Hc, Hs, Hu, Hp, Hk, Ho, Hi;
    (split_and!; try done;
     [destruct (bool_decide (Exists _ _)); [done|by rewrite lookup_insert_eq]
     |intros c' Hne; destruct (bool_decide (Exists _ _)); [done|by rewrite lookup_insert_ne]]).
Qed.

Lemma occurrences_zero (i : Z) (l : list message) :
  occurrences i l = 0%nat ↔ ¬ Exists (λ x, msg_id x = i) l.
Proof.
  unfold occurrences. induction l as [|m l IH]; simpl.
  - split; [|done]. intros _ H. by apply Exists_nil in H.
  - rewrite filter_cons, Exists_cons. destruct (decide (msg_id m = i)); simpl.
    + split; [done|]. intros H. exfalso. apply H. by left.
    + rewrite IH. tauto.
Qed.

Lemma occurrences_snoc (i : Z) (l : list message) (m : message) :
  msg_id m = i → occurrences i (l ++ [m]) = S (occurrences i l).
Proof.
  intros H. unfold occurrences. rewrite filter_app, length_app.
  rewrite filter_cons, decide_True by done. simpl. lia.
Qed.

(** Delivering an accepted message once, and once more. *)
Lemma newMessage_dedup (now now2 : Z) (m : message) (st : state) :
  Some (msg_receiverId m) = userId st → rejectedByCutoff st m = false →
  let st' := handleWSData now (NewMessage m) st in
  let st'' := handleWSData now2 (NewMessage m) st' in
  let c := msg_chatId m in
  occurrences (msg_id m) (messagesOf st' c) =
    Nat.max 1 (occurrences (msg_id m) (messagesOf st c)) ∧
  messagesOf st'' c = messagesOf st' c.
Proof.
  intros Hrecv Hacc st' st'' c.
  destruct (newMessage_accepted now m st Hrecv Hacc) as (Hm & _ & _ & _ & Hi & Hk & _).
  fold st' in Hm, Hi, Hk. fold c in Hm.
  assert (Hrecv' : Some (msg_receiverId m) = userId st') by congruence.
  assert (Hacc' : rejectedByCutoff st' m = false).
  { unfold rejectedByCutoff, cutoffIsoOf in *. by rewrite Hk. }
  destruct (newMessage_accepted now2 m st' Hrecv' Hacc') as (Hm' & _).
  fold st'' in Hm'. fold c in Hm'.
  destruct (decide (Exists (λ x, msg_id x = msg_id m) (messagesOf st c))) as [Hd|Hd].
  - rewrite bool_decide_eq_true_2 in Hm by done.
    rewrite bool_decide_eq_true_2 in Hm' by (by rewrite Hm).
    split; [|done]. rewrite Hm.
    assert (occurrences (msg_id m) (messagesOf st c) ≠ 0)%nat.
    { intros H0. by apply occurrences_zero in H0. }
    lia.
  - rewrite bool_decide_eq_false_2 in Hm by done.
    rewrite bool_decide_eq_true_2 in Hm'.
    2:{ rewrite Hm. apply Exists_app. right. by constructor. }
    split; [|done]. rewrite Hm, occurrences_snoc by done.
    apply occurrences_zero in Hd. by rewrite Hd.
Qed.

(** ** Sending *)

Lemma sendMessage_start_spec (clk : send_clock) (content type : string) (d : option Z)
    (f : option file) (st st1 : state) (ctx : send_ctx) :
  sendMessage_start clk content type d f st = Some (ctx, st1) →
  ∃ sc uid,
    selectedChat st = Some sc ∧ userId st = Some uid ∧ uid ≠ 0 ∧
    socketHasSend st = true ∧
    ctx = {| tempId := at_tempId clk; ctx_chat := sc; ctx_userId := uid;
             secs := expirySeconds d; ctx_content := content; ctx_type := type;
             ctx_file := f |} ∧
    activeMessages st1 =
      <[chat_id sc := messagesOf st (chat_id sc) ++
                      [optimisticMessage clk sc uid content type d f]]>
        (activeMessages st) ∧
    persistentContacts st1 =
      bumpList (at_schedule clk) (chat_id sc)
        {| pv_id := at_tempId clk; pv_content := previewContent type content;
           pv_createdAt := DAt (at_created clk) |}
        (persistentContacts st) ∧
    (expiryMs (optimisticMessage clk sc uid content type d f) ≠ 0 →
     armedFrom (at_schedule clk) (at_tempId clk) st1 ∧
     (inTimerRange (at_schedule clk) (optimisticMessage clk sc uid content type d f) →
      armed (at_schedule clk) (at_tempId clk) st1)) ∧
    sent st1 = sent st ∧ unreadCounts st1 = unreadCounts st ∧
    selectedChat st1 = selectedChat st ∧ userId st1 = userId st ∧
    presence st1 = presence st ∧ cutoffs st1 = cutoffs st.
Proof.
  unfold sendMessage_start. destruct (selectedChat st) as [sc|] eqn:Esc; [|done].
  unfold noUser. destruct (userId st) as [uid|] eqn:Eu; [|done].
  destruct (decide (uid = 0)) as [->|Hne]; [done|].
  assert ((match uid with 0 => true | _ => false end) = false) as -> by (by destruct uid).
  destruct (socketHasSend st) eqn:Eso; [|done]. simpl.
  destruct (sendThrows clk d); [done|].
  intros [= <- <-]. exists sc, uid.
  match goal with
  | |- context [scheduleMessageDeletion ?n ?m ?s] =>
      destruct (schedule_frame n m s) as (Ha & Hc & Hs & Hu & Hp & Hk & Ho & Hi);
      pose proof (schedule_armedWith (λ due, n ≤ due) n m s) as Harm0;
      pose proof (schedule_armed n m s) as Harm;
      remember (scheduleMessageDeletion n m s) as st2 eqn:E2
  end.
  clear E2. simpl in *. unfold bumpChatToTopAndUpdateLast. unfold_setters. simpl.
  rewrite Ha, Hc, Hs, Hu, Hp, Hk, Ho, Hi. split_and!; try done.
  intros Hv. split.
  - destruct (Harm0 Hv) as (h & t & c & H1 & H2 & H3 & H4).
    { by destruct (expiryTimer_due (at_schedule clk)
                     (optimisticMessage clk sc uid content type d f)). }
    by exists h, t, c.
  - intros Hr. destruct (Harm Hv Hr) as (h & t & c & H1 & H2 & H3 & H4).
    by exists h, t, c.
Qed.

(** A call that gets past its guards starts exactly when building the
    optimistic message does not throw. *)
Lemma sendMessage_start_throws (clk : send_clock) (content type : string) (d : option Z)
    (f : option file) (st : state) :
  sendThrows clk d = true → sendMessage_start clk content type d f st = None.
Proof.
  intros Ht. unfold sendMessage_start. destruct (selectedChat st); [|done].
  destruct (noUser st); [done|]. destruct (negb (socketHasSend st)); [done|].
  by rewrite Ht.
Qed.

Lemma sendMessage_start_valid (clk : send_clock) (content type : string) (d : option Z)
    (f : option file) (st st1 : state) (ctx : send_ctx) :
  sendMessage_start clk content type d f st = Some (ctx, st1) → sendThrows clk d = false.
Proof.
  intros E. destruct (sendThrows clk d) eqn:Ht; [|done].
  by rewrite sendMessage_start_throws in E.
Qed.

Lemma sendMessage_start_total (clk : send_clock) (content type : string) (d : option Z)
    (f : option file) (st : state) :
  is_Some (selectedChat st) → noUser st = false → socketHasSend st = true →
  sendThrows clk d = false →
  is_Some (sendMessage_start clk content type d f st).
Proof.
  intros [sc Hsc] Hu Hso Ht. unfold sendMessage_start. rewrite Hsc, Hu, Hso, Ht.
  simpl. eauto.
Qed.

(** ** Unread counters *)

Lemma mergeUnread_lookup (serverUnread prev : gmap Z Z) (k : Z) :
  mergeUnread serverUnread prev !! k =
    match serverUnread !! k with
    | Some cnt => Some (Z.max (default 0 (prev !! k)) cnt)
    | None => prev !! k
    end.
Proof.
  unfold mergeUnread. revert k.
  apply (map_fold_weak_ind
           (λ r (m : gmap Z Z), ∀ k, r !! k =
              match m !! k with
              | Some cnt => Some (Z.max (default 0 (prev !! k)) cnt)
              | None => prev !! k
              end)).
  - intros k. by rewrite lookup_empty.
  - intros i x m r Hi IH k. destruct (decide (k = i)) as [->|Hne].
    + rewrite !lookup_insert_eq. rewrite IH, Hi. done.
    + rewrite !lookup_insert_ne by done. apply IH.
Qed.

Section collect.
Variable uid : option Z.

Let add (acc : gmap Z Z) (c : chat) : gmap Z Z :=
  let unread := serverUnreadOf uid c in
  if 0 <? unread then <[chat_id c := unread]> acc else acc.

Lemma collect_notin (l : list chat) (acc : gmap Z Z) (k : Z) :
  k ∉ map chat_id l → foldl add acc l !! k = acc !! k.
Proof.
  revert acc. induction l as [|c l IH]; intros acc Hnot; simpl; [done|].
  rewrite IH.
  - unfold add. destruct (0 <? serverUnreadOf uid c); [|done].
    rewrite lookup_insert_ne; [done|]. intros Heq. apply Hnot. simpl. rewrite Heq.
    by left.
  - intros Hin. apply Hnot. simpl. by right.
Qed.

Lemma collect_in (l : list chat) (acc : gmap Z Z) (c : chat) :
  NoDup (map chat_id l) → c ∈ l →
  foldl add acc l !! chat_id c =
    if 0 <? serverUnreadOf uid c then Some (serverUnreadOf uid c)
    else acc !! chat_id c.
Proof.
  revert acc. induction l as [|c0 l IH]; intros acc Hnd Hin; simpl.
  - by apply elem_of_nil in Hin.
  - simpl in Hnd. apply NoDup_cons in Hnd as [Hfresh Hnd].
    apply elem_of_cons in Hin as [->|Hin].
    + rewrite collect_notin by done. unfold add.
      destruct (0 <? serverUnreadOf uid c0); [|done]. by rewrite lookup_insert_eq.
    + rewrite IH by done. destruct (0 <? serverUnreadOf uid c); [done|].
      unfold add. destruct (0 <? serverUnreadOf uid c0); [|done].
      rewrite lookup_insert_ne; [done|]. intros Heq. apply Hfresh.
      rewrite Heq. apply list_elem_of_fmap. eauto.
Qed.

Lemma collect_positive (l : list chat) (acc : gmap Z Z) :
  (∀ k v, acc !! k = Some v → 0 < v) →
  ∀ k v, foldl add acc l !! k = Some v → 0 < v.
Proof.
  revert acc. induction l as [|c l IH]; intros acc Hacc; simpl; [done|].
  apply IH. intros k v. unfold add.
  destruct (Z.ltb_spec 0 (serverUnreadOf uid c)) as [Hpos|_]; [|apply Hacc].
  destruct (decide (k = chat_id c)) as [->|Hne].
  - rewrite lookup_insert_eq. by intros [= <-].
  - rewrite lookup_insert_ne by done. apply Hacc.
Qed.
End collect.

Lemma collectServerUnread_notin (uid : option Z) (contacts : list chat) (k : Z) :
  k ∉ map chat_id contacts → collectServerUnread uid contacts !! k = None.
Proof. intros H. unfold collectServerUnread. by rewrite collect_notin. Qed.

Lemma collectServerUnread_in (uid : option Z) (contacts : list chat) (c : chat) :
  NoDup (map chat_id contacts) → c ∈ contacts →
  collectServerUnread uid contacts !! chat_id c =
    if 0 <? serverUnreadOf uid c then Some (serverUnreadOf uid c) else None.
Proof. intros Hnd Hin. unfold collectServerUnread. by rewrite collect_in. Qed.

Lemma collectServerUnread_positive (uid : option Z) (contacts : list chat) (k v : Z) :
  collectServerUnread uid contacts !! k = Some v → 0 < v.
Proof. apply collect_positive. intros ??. by rewrite lookup_empty. Qed.

Lemma fetchContacts_unread (showSpinner : bool) (contacts : list chat) (st : state) :
  noUser st = false →
  unreadCounts (fetchContacts showSpinner (Some contacts) st) =
    mergeUnread (collectServerUnread (userId st) contacts) (unreadCounts st).
Proof. intros Hu. unfold fetchContacts. rewrite Hu. by destruct showSpinner. Qed.

Lemma fetchContacts_unread_view (showSpinner : bool) (resp : option (list chat))
    (st : state) :
  unreadCounts (fetchContacts showSpinner resp st) =
    match resp with
    | Some contacts =>
        if noUser st then unreadCounts st
        else mergeUnread (collectServerUnread (userId st) contacts) (unreadCounts st)
    | None => unreadCounts st
    end.
Proof.
  unfold fetchContacts. destruct (noUser st); [by destruct resp|].
  by destruct showSpinner, resp.
Qed.

Lemma mergeUnread_nonneg (serverUnread prev : gmap Z Z) :
  (∀ k v, serverUnread !! k = Some v → 0 < v) →
  (∀ k v, prev !! k = Some v → 0 ≤ v) →
  ∀ k v, mergeUnread serverUnread prev !! k = Some v → 0 ≤ v.
Proof.
  intros Hs Hp k v. rewrite mergeUnread_lookup.
  destruct (serverUnread !! k) as [cnt|] eqn:E; [|apply Hp].
  intros [= <-]. apply Hs in E. lia.
Qed.

Lemma selectChat_unread (now : Z) (ch : chat) (resp : option (list message)) (st : state) :
  noUser st = false →
  unreadCounts (selectChat now (Some ch) resp st) = delete (chat_id ch) (unreadCounts st).
Proof.
  intros Hu. unfold selectChat. rewrite Hu. unfold loadActiveMessages.
  destruct resp as [msgs|]; [|done].
  match goal with
  | |- context [foldl ?f ?s ?l] => destruct (schedule_all_frame now l s) as (_&_&_& H &_)
  end.
  simpl in H. by rewrite H.
Qed.

(** *** What the other reactions leave alone *)

Lemma typing_event_view (now c : Z) (isTyping : bool) (st : state) :
  storesView
    (let st1 := clearTypingTimer c st in
     let st2 := setTypingState c isTyping st1 in
     if isTyping then
       let '(t, st3) := setTimeout now 3000 (ClearTyping c) st2 in
       setTypingTimeouts (λ d, <[c := t]> d) st3
     else st2) = storesView st ∧
  activeMessages
    (let st1 := clearTypingTimer c st in
     let st2 := setTypingState c isTyping st1 in
     if isTyping then
       let '(t, st3) := setTimeout now 3000 (ClearTyping c) st2 in
       setTypingTimeouts (λ d, <[c := t]> d) st3
     else st2) = activeMessages st.
Proof.
  pose proof (clearTypingTimer_fields c st) as (_&_&_&_& Ha & Hc & Hs & Hu & Hp & Hk & Ho & Hi & _).
  remember (clearTypingTimer c st) as st1 eqn:E1. clear E1. cbv zeta.
  unfold storesView. destruct isTyping; simpl; by rewrite Ha, Hc, Hs, Hu, Hp, Hk, Ho, Hi.
Qed.

Lemma fire_view (h : Z) (st : state) : storesView (fire h st) = storesView st.
Proof.
  destruct (pending st !! h) as [t|] eqn:Hl.
  2:{ by rewrite fire_not_live. }
  destruct (timer_job t) as [c i|c] eqn:Hj.
  - destruct (fire_expire_messages h st t c i Hl Hj) as (_ & Hc & Hs & Hu & Hp & Hk & Ho & Hi & _).
    unfold storesView. by rewrite Hc, Hs, Hu, Hp, Hk, Ho, Hi.
  - unfold fire. rewrite Hl, Hj.
    match goal with |- context [clearTypingTimer c ?s] => remember s as st1 eqn:E1 end.
    pose proof (clearTypingTimer_fields c st1) as (_&_&_&_&_& Hc & Hs & Hu & Hp & Hk & Ho & Hi & _).
    unfold storesView. rewrite Hc, Hs, Hu, Hp, Hk, Ho, Hi. by subst st1.
Qed.

Lemma applyPresence_frame (uid : Z) (online : bool) (st : state) :
  unreadCounts (applyPresence uid online st) = unreadCounts st ∧
  userId (applyPresence uid online st) = userId st.
Proof. unfold applyPresence. by destruct (uid =? 0). Qed.

Lemma sendMessage_unread (clk : send_clock) (content type : string) (d : option Z)
    (f : option file) (up : upload_outcome) (st : state) :
  unreadCounts (sendMessage clk content type d f up st) = unreadCounts st.
Proof.
  unfold sendMessage.
  destruct (sendMessage_start clk content type d f st) as [[ctx st1]|] eqn:E; [|done].
  destruct (sendMessage_start_spec _ _ _ _ _ _ _ _ E)
    as (sc & uid & _ & _ & _ & _ & _ & _ & _ & _ & _ & Hu & _).
  rewrite <- Hu. unfold sendMessage_finish. by destruct (ctx_file ctx), up.
Qed.

Lemma handleWSData_unread (now : Z) (data : ws_event) (st : state) :
  unread_nonneg st → unread_nonneg (handleWSData now data st).
Proof.
  intros N. destruct data as [ids|uid online|uid name|c s r ty|m].
  - simpl. generalize (filter (λ x, x ≠ 0) ids). intros l.
    generalize (userId st). intros u.
    revert st N. induction l as [|x l IH]; intros st N; simpl; [done|].
    apply IH. destruct (negb (x =? 0) && negb (bool_decide (Some x = u))); [|done].
    unfold unread_nonneg. by rewrite (proj1 (applyPresence_frame x true st)).
  - simpl. destruct (uid =? 0); [done|].
    unfold unread_nonneg. by rewrite (proj1 (applyPresence_frame uid online st)).
  - simpl. by destruct ((uid =? 0) || bool_decide (name = EmptyString)).
  - simpl. destruct ((c =? 0) || negb (bool_decide (Some r = userId st))); [done|].
    destruct (bool_decide (Some s = userId st)); [done|].
    destruct (typing_event_view now c ty st) as [Hv _].
    unfold storesView in Hv. injection Hv as _ _ Hu _ _ _ _.
    unfold unread_nonneg. by rewrite Hu.
  - destruct (decide (Some (msg_receiverId m) = userId st)) as [Hrecv|Hrecv].
    2:{ by rewrite newMessage_wrong_receiver. }
    destruct (rejectedByCutoff st m) eqn:Hacc.
    { by rewrite newMessage_rejected. }
    destruct (newMessage_accepted now m st Hrecv Hacc) as (_ & _ & Hu & _).
    unfold unread_nonneg. rewrite Hu. destruct (isOpen st (msg_chatId m)); [done|].
    intros k v. destruct (decide (k = msg_chatId m)) as [->|Hne].
    + rewrite lookup_insert_eq. intros [= <-]. unfold unreadOf.
      destruct (unreadCounts st !! msg_chatId m) as [v0|] eqn:E; simpl; [|lia].
      apply N in E. lia.
    + rewrite lookup_insert_ne by done. apply N.
Qed.

Lemma sendMessage_finish_stores (ctx : send_ctx) (up : upload_outcome) (st : state) :
  persistentContacts (sendMessage_finish ctx up st) = persistentContacts st ∧
  selectedChat (sendMessage_finish ctx up st) = selectedChat st ∧
  unreadCounts (sendMessage_finish ctx up st) = unreadCounts st ∧
  presence (sendMessage_finish ctx up st) = presence st.
Proof. unfold sendMessage_finish. by destruct (ctx_file ctx), up. Qed.

Lemma loadActiveMessages_stores (now chatId : Z) (resp : option (list message))
    (st : state) :
  persistentContacts (loadActiveMessages now chatId resp st) = persistentContacts st ∧
  selectedChat (loadActiveMessages now chatId resp st) = selectedChat st ∧
  unreadCounts (loadActiveMessages now chatId resp st) = unreadCounts st ∧
  presence (loadActiveMessages now chatId resp st) = presence st.
Proof.
  unfold loadActiveMessages. destruct resp as [msgs|]; [|done].
  match goal with
  | |- context [foldl ?f ?s ?l] =>
      destruct (schedule_all_frame now l s) as (_ & Hc & Hs & Hu & Hp & _)
  end.
  simpl in *. by rewrite Hc, Hs, Hu, Hp.
Qed.

Lemma unread_nonneg_step (st : state) (e : event) :
  unread_nonneg st → unread_nonneg (step st e).
Proof.
  intros N. destruct e as [|sp resp|now c resp|c|ch|now chatId resp|now chatId
                            |clk content type d f up|clk content type d f|ctx up
                            |now data|h|]; simpl.
  - done.
  - unfold unread_nonneg. rewrite fetchContacts_unread_view.
    destruct resp as [contacts|]; [|done]. destruct (noUser st); [done|].
    apply mergeUnread_nonneg; [apply collectServerUnread_positive|done].
  - destruct c as [ch|]; [|done]. destruct (noUser st) eqn:Hu.
    { unfold selectChat. by rewrite Hu. }
    unfold unread_nonneg. rewrite selectChat_unread by done.
    intros k v [_ H]%lookup_delete_Some. by eapply N.
  - done.
  - destruct (noUser st); [done|]. unfold unread_nonneg, selectChat_marked.
    unfold_setters. simpl. intros k v [_ H]%lookup_delete_Some. by eapply N.
  - unfold unread_nonneg.
    by rewrite (proj1 (proj2 (proj2 (loadActiveMessages_stores now chatId resp st)))).
  - unfold deleteChat. destruct (noUser st); [done|].
    unfold unread_nonneg. unfold_setters. simpl.
    intros k v [_ H]%lookup_delete_Some. by eapply N.
  - unfold unread_nonneg. by rewrite sendMessage_unread.
  - destruct (sendMessage_start clk content type d f st) as [[ctx st1]|] eqn:E; [|done].
    destruct (sendMessage_start_spec _ _ _ _ _ _ _ _ E)
      as (sc & uid & _ & _ & _ & _ & _ & _ & _ & _ & _ & Hu & _).
    unfold unread_nonneg. by rewrite Hu.
  - unfold unread_nonneg.
    by rewrite (proj1 (proj2 (proj2 (sendMessage_finish_stores ctx up st)))).
  - destruct (noUser st); [done|]. by apply handleWSData_unread.
  - pose proof (fire_view h st) as Hv. unfold storesView in Hv.
    injection Hv as _ _ Hu _ _ _ _. unfold unread_nonneg. by rewrite Hu.
  - done.
Qed.

Lemma unread_nonneg_run (evs : list event) (st : state) :
  unread_nonneg st → unread_nonneg (run evs st).
Proof.
  unfold run. revert st. induction evs as [|e evs IH]; intros st N; simpl; [done|].
  by apply IH, unread_nonneg_step.
Qed.

Lemma unread_nonneg_init (uid : option Z) (hasSend : bool) :
  unread_nonneg (init_state uid hasSend).
Proof. intros k v. simpl. by rewrite lookup_empty. Qed.

Lemma unreadOf_nonneg (st : state) (k : Z) : unread_nonneg st → 0 ≤ unreadOf st k.
Proof.
  intros N. unfold unreadOf. destruct (unreadCounts st !! k) as [v|] eqn:E; simpl; [|lia].
  by eapply N.
Qed.

(** ** Sorting the chat list *)

Lemma insertSorted_perm {A} (cmp : A → A → option Z) (x : A) (l : list A) :
  insertSorted cmp x l ≡ₚ x :: l.
Proof.
  induction l as [|y l IH]; simpl; [done|].
  destruct (comesAfter cmp x y); [|done]. rewrite IH. apply Permutation_swap.
Qed.

Lemma arraySort_perm {A} (cmp : A → A → option Z) (l : list A) :
  arraySort cmp l ≡ₚ l.
Proof.
  unfold arraySort. induction l as [|x l IH]; simpl; [done|].
  by rewrite insertSorted_perm, IH.
Qed.

Lemma comesAfter_valid (x y : chat) :
  validKey x → validKey y →
  comesAfter compareChats x y = (sortKey x <? sortKey y).
Proof.
  intros [tx Hx] [ty Hy]. unfold comesAfter, compareChats, sortKey, toMs.
  rewrite Hx, Hy. destruct (Z.ltb_spec 0 (ty - tx)), (Z.ltb_spec tx ty); done || lia.
Qed.

Lemma insertSorted_sorted (x : chat) (l : list chat) :
  validKey x → Forall validKey l →
  StronglySorted (newestFirst sortKey) l →
  StronglySorted (newestFirst sortKey) (insertSorted compareChats x l).
Proof.
  intros Hx Hl Hs. induction Hs as [|y l Hs IH Hy]; simpl.
  - repeat constructor.
  - apply Forall_cons in Hl as [Hvy Hl].
    rewrite comesAfter_valid by done.
    destruct (Z.ltb_spec (sortKey x) (sortKey y)) as [Hlt|Hge].
    + constructor; [by apply IH|].
      rewrite insertSorted_perm. constructor; [|done]. unfold newestFirst. lia.
    + constructor; [by constructor|]. constructor; [done|].
      eapply Forall_impl; [exact Hy|]. unfold newestFirst. intros z Hz. lia.
Qed.

Lemma arraySort_sorted (l : list chat) :
  Forall validKey l → StronglySorted (newestFirst sortKey) (arraySort compareChats l).
Proof.
  unfold arraySort. induction l as [|x l IH]; intros Hl; simpl; [constructor|].
  apply Forall_cons in Hl as [Hx Hl]. apply insertSorted_sorted; [done| |by apply IH].
  fold (arraySort compareChats l). by rewrite arraySort_perm.
Qed.

Lemma fetchContacts_contacts (showSpinner : bool) (contacts : list chat) (st : state) :
  noUser st = false →
  persistentContacts (fetchContacts showSpinner (Some contacts) st) =
    map (λ c, withOnline (presenceSnapshot st (user_id (otherUser c))) c)
        (arraySort compareChats
           (map (λ c, withUnreadCount (Some (serverUnreadOf (userId st) c)) c) contacts)).
Proof. intros Hu. unfold fetchContacts. rewrite Hu. by destruct showSpinner. Qed.

Lemma fetchContacts_sorted (showSpinner : bool) (contacts : list chat) (st : state) :
  noUser st = false → Forall validKey contacts →
  let l := persistentContacts (fetchContacts showSpinner (Some contacts) st) in
  StronglySorted (newestFirst sortKey) l ∧
  chat_id <$> l ≡ₚ chat_id <$> contacts.
Proof.
  intros Hu Hv l. subst l. rewrite fetchContacts_contacts by done. split.
  - apply (StronglySorted_fmap _ (newestFirst sortKey) (newestFirst sortKey)).
    + intros a b Hab. done.
    + apply arraySort_sorted. apply Forall_fmap. eapply Forall_impl; [exact Hv|].
      intros c Hc. done.
  - rewrite <- list_fmap_compose, arraySort_perm, <- list_fmap_compose. done.
Qed.

Lemma insertSorted_stable (k : Z) (x : chat) (l : list chat) :
  validKey x → Forall validKey l →
  filter (λ c, sortKey c = k) (insertSorted compareChats x l) =
    filter (λ c, sortKey c = k) (x :: l).
Proof.
  intros Hx Hl. induction Hl as [|y l Hy Hl IH]; simpl; [done|].
  rewrite comesAfter_valid by done.
  destruct (Z.ltb_spec (sortKey x) (sortKey y)) as [Hlt|Hge]; [|done].
  rewrite filter_cons, IH, !filter_cons.
  destruct (decide (sortKey y = k)), (decide (sortKey x = k)); done || lia.
Qed.

Lemma arraySort_stable (k : Z) (l : list chat) :
  Forall validKey l →
  filter (λ c, sortKey c = k) (arraySort compareChats l) = filter (λ c, sortKey c = k) l.
Proof.
  unfold arraySort. induction l as [|x l IH]; intros Hl; simpl; [done|].
  apply Forall_cons in Hl as [Hx Hl]. rewrite insertSorted_stable.
  - rewrite !filter_cons. fold (arraySort compareChats l).
    unfold arraySort. rewrite IH by done. done.
  - done.
  - fold (arraySort compareChats l). by rewrite arraySort_perm.
Qed.

Lemma filter_key_fmap (k : Z) (f : chat → chat) (l : list chat) :
  (∀ c, sortKey (f c) = sortKey c) →
  filter (λ c, sortKey c = k) (f <$> l) = f <$> filter (λ c, sortKey c = k) l.
Proof.
  intros Hf. induction l as [|c l IH]; [done|].
  rewrite fmap_cons, !filter_cons, Hf, IH. by destruct (decide (sortKey c = k)).
Qed.

Lemma fetchContacts_stable (showSpinner : bool) (contacts : list chat) (st : state)
    (k : Z) :
  noUser st = false → Forall validKey contacts →
  chat_id <$> filter (λ c, sortKey c = k)
                (persistentContacts (fetchContacts showSpinner (Some contacts) st)) =
  chat_id <$> filter (λ c, sortKey c = k) contacts.
Proof.
  intros Hu Hv. rewrite fetchContacts_contacts by done.
  rewrite filter_key_fmap by done. rewrite arraySort_stable.
  2:{ apply Forall_fmap. eapply Forall_impl; [exact Hv|]. by intros c Hc. }
  rewrite filter_key_fmap by done. rewrite <- !list_fmap_compose. done.
Qed.

(** ** Presence *)

Lemma allOffline_setAllOffline (st : state) : allOffline (setAllOffline st).
Proof.
  unfold allOffline, setAllOffline. unfold_setters. simpl. split_and!.
  - done.
  - apply Forall_fmap, Forall_true. by intros c.
  - intros c. destruct (selectedChat st) as [c0|]; [|done]. simpl. by intros [= <-].
Qed.

Lemma presenceSnapshot_unknown (st : state) (uid : Z) :
  presence st !! uid = None → presenceSnapshot st uid = false.
Proof. intros H. unfold presenceSnapshot. rewrite H. by destruct (uid =? 0). Qed.

Lemma presenceSnapshot_applied (st : state) (uid : Z) (online : bool) :
  uid ≠ 0 → presenceSnapshot (applyPresence uid online st) uid = online.
Proof.
  intros Hne. unfold presenceSnapshot, applyPresence.
  destruct (Z.eqb_spec uid 0); [done|]. unfold_setters. simpl.
  by rewrite lookup_insert_eq.
Qed.

Lemma bumpList_Forall (P : chat → Prop) (now chatId : Z) (lm : preview) (l : list chat) :
  (∀ c p ts, P c → P (withLastMessage p ts c)) →
  Forall P l → Forall P (bumpList now chatId lm l).
Proof.
  intros HP Hl. unfold bumpList.
  destruct (list_find (λ c, chat_id c = chatId) l) as [[idx current]|] eqn:E; [|done].
  apply list_find_Some in E as (Hidx & _ & _).
  constructor.
  - apply HP. rewrite Forall_forall in Hl. apply Hl.
    apply list_elem_of_lookup. eauto.
  - by apply Forall_delete.
Qed.

Lemma allOffline_view (st st' : state) :
  presence st' = presence st →
  persistentContacts st' = persistentContacts st →
  selectedChat st' = selectedChat st →
  allOffline st → allOffline st'.
Proof. unfold allOffline. by intros -> -> ->. Qed.

Lemma allOffline_storesView (st st' : state) :
  storesView st' = storesView st → allOffline st → allOffline st'.
Proof.
  unfold storesView. intros [= Hc Hs _ Hp _ _ _]. by apply allOffline_view.
Qed.

Lemma allOffline_fetchContacts (showSpinner : bool) (resp : option (list chat))
    (st : state) :
  allOffline st → allOffline (fetchContacts showSpinner resp st).
Proof.
  intros (Hp & Hc & Hs). unfold fetchContacts. destruct (noUser st); [done|].
  destruct resp as [contacts|].
  - assert (Hoff : ∀ l : list chat,
      Forall offline
        (map (λ c, withOnline (presenceSnapshot st (user_id (otherUser c))) c) l)).
    { intros l. apply Forall_fmap, Forall_true. intros c. unfold offline. simpl.
      apply presenceSnapshot_unknown. by rewrite Hp, lookup_empty. }
    by destruct showSpinner; (split_and!; [done|apply Hoff|done]).
  - by destruct showSpinner; (split_and!; [done|done || constructor|done]).
Qed.

Lemma allOffline_selectChat (now : Z) (c : option chat) (resp : option (list message))
    (st : state) :
  (∀ ch, c = Some ch → offline ch) →
  allOffline st → allOffline (selectChat now c resp st).
Proof.
  intros Hoff (Hp & Hc & Hs). unfold selectChat.
  destruct c as [ch|]; [|by split_and!].
  destruct (noUser st).
  { split_and!; [done|done|]. simpl. intros c [= <-]. by apply Hoff. }
  unfold loadActiveMessages. destruct resp as [msgs|].
  - match goal with
    | |- context [foldl ?f ?s ?l] =>
        destruct (schedule_all_frame now l s) as (_ & Hc' & Hs' & _ & Hp' & _)
    end.
    simpl in *. unfold allOffline. rewrite Hc', Hs', Hp'. split_and!; [done| |].
    + apply Forall_fmap. eapply Forall_impl; [exact Hc|].
      intros c' Hc0. simpl. by destruct (decide (chat_id c' = chat_id ch)).
    + intros c0 [= <-]. by apply Hoff.
  - split_and!; [done| |].
    + simpl. apply Forall_fmap. eapply Forall_impl; [exact Hc|].
      intros c' Hc0. simpl. by destruct (decide (chat_id c' = chat_id ch)).
    + simpl. intros c0 [= <-]. by apply Hoff.
Qed.

Lemma allOffline_deleteChat (now chatId : Z) (st : state) :
  allOffline st → allOffline (deleteChat now chatId st).
Proof.
  intros (Hp & Hc & Hs). unfold deleteChat. destruct (noUser st); [done|].
  split_and!; simpl.
  - done.
  - rewrite Forall_forall in Hc. apply Forall_forall.
    intros c [_ Hin]%list_elem_of_filter. by apply Hc.
  - intros c. destruct (selectedChat st) as [c0|]; [|done].
    destruct (decide (chat_id c0 = chatId)); [done|]. intros [= <-]. by apply Hs.
Qed.

Lemma allOffline_sendMessage (clk : send_clock) (content type : string) (d : option Z)
    (f : option file) (up : upload_outcome) (st : state) :
  allOffline st → allOffline (sendMessage clk content type d f up st).
Proof.
  intros (Hp & Hc & Hs). unfold sendMessage.
  destruct (sendMessage_start clk content type d f st) as [[ctx st1]|] eqn:E; [|done].
  destruct (sendMessage_start_spec _ _ _ _ _ _ _ _ E)
    as (sc & uid & _ & _ & _ & _ & _ & _ & Hc1 & _ & _ & _ & Hs1 & _ & Hp1 & _).
  apply (allOffline_view st1).
  - unfold sendMessage_finish. by destruct (ctx_file ctx), up.
  - unfold sendMessage_finish. by destruct (ctx_file ctx), up.
  - unfold sendMessage_finish. by destruct (ctx_file ctx), up.
  - unfold allOffline. rewrite Hp1, Hc1, Hs1. split_and!; [done| |done].
    by apply bumpList_Forall.
Qed.

Lemma allOffline_handleWSData (now : Z) (data : ws_event) (st : state) :
  quiet (Socket now data) → allOffline st → allOffline (handleWSData now data st).
Proof.
  intros Hq (Hp & Hc & Hs). destruct data as [ids|uid online|uid name|c s r ty|m];
    try done.
  - simpl. destruct ((uid =? 0) || bool_decide (name = EmptyString)); [done|].
    split_and!; simpl.
    + done.
    + apply Forall_fmap. eapply Forall_impl; [exact Hc|].
      intros c' Hc0. simpl. by destruct (decide (user_id (otherUser c') ≠ uid)).
    + intros c'. destruct (selectedChat st) as [c0|]; [|done].
      destruct (decide (user_id (otherUser c0) ≠ uid)); intros [= <-];
        exact (Hs c0 eq_refl).
  - simpl. destruct ((c =? 0) || negb (bool_decide (Some r = userId st))); [done|].
    destruct (bool_decide (Some s = userId st)); [done|].
    destruct (typing_event_view now c ty st) as [Hv _].
    by apply (allOffline_storesView st).
  - destruct (decide (Some (msg_receiverId m) = userId st)) as [Hrecv|Hrecv].
    2:{ by rewrite newMessage_wrong_receiver. }
    destruct (rejectedByCutoff st m) eqn:Hacc.
    { by rewrite newMessage_rejected. }
    destruct (newMessage_accepted now m st Hrecv Hacc)
      as (_ & _ & _ & Hc' & _ & _ & Hs' & _ & Hp').
    unfold allOffline. rewrite Hc', Hs', Hp'. split_and!; [done| |done].
    by apply bumpList_Forall.
Qed.

Lemma allOffline_sendMessage_start (clk : send_clock) (content type : string) (d : option Z)
    (f : option file) (st st1 : state) (ctx : send_ctx) :
  sendMessage_start clk content type d f st = Some (ctx, st1) →
  allOffline st → allOffline st1.
Proof.
  intros E (Hp & Hc & Hs).
  destruct (sendMessage_start_spec _ _ _ _ _ _ _ _ E)
    as (sc & uid & _ & _ & _ & _ & _ & _ & Hc1 & _ & _ & _ & Hs1 & _ & Hp1 & _).
  unfold allOffline. rewrite Hp1, Hc1, Hs1. split_and!; [done| |done].
  by apply bumpList_Forall.
Qed.

Lemma allOffline_selectChat_marked (ch : chat) (st : state) :
  allOffline st → allOffline (selectChat_marked ch st).
Proof.
  intros (Hp & Hc & Hs). unfold selectChat_marked. split_and!; [done| |done].
  simpl. apply Forall_fmap. eapply Forall_impl; [exact Hc|].
  intros c' Hc0. simpl. by destruct (decide (chat_id c' = chat_id ch)).
Qed.

Lemma allOffline_step (st : state) (e : event) :
  quiet e → allOffline st → allOffline (step st e).
Proof.
  intros Hq Hoff.
  destruct e as [|sp resp|now c resp|c|ch|now chatId resp|now chatId
                 |clk content type d f up|clk content type d f|ctx up|now data|h|];
    simpl.
  - apply allOffline_setAllOffline.
  - by apply allOffline_fetchContacts.
  - apply allOffline_selectChat; [|done]. by intros ch ->.
  - destruct Hoff as (Hp & Hc & Hs). split_and!; [done|done|].
    simpl. intros c0 ->. exact Hq.
  - destruct (noUser st); [done|]. by apply allOffline_selectChat_marked.
  - destruct (loadActiveMessages_stores now chatId resp st) as (Hc & Hs & _ & Hp).
    by apply (allOffline_view st).
  - by apply allOffline_deleteChat.
  - by apply allOffline_sendMessage.
  - destruct (sendMessage_start clk content type d f st) as [[ctx st1]|] eqn:E; [|done].
    by eapply allOffline_sendMessage_start.
  - destruct (sendMessage_finish_stores ctx up st) as (Hc & Hs & _ & Hp).
    by apply (allOffline_view st).
  - destruct (noUser st); [done|]. by apply allOffline_handleWSData.
  - apply (allOffline_storesView st); [apply fire_view|done].
  - by apply (allOffline_view st).
Qed.

Lemma allOffline_run (evs : list event) (st : state) :
  Forall quiet evs → allOffline st → allOffline (run evs st).
Proof.
  unfold run. intros Hq. revert st.
  induction Hq as [|e evs He Hq IH]; intros st Hoff; simpl; [done|].
  by apply IH, allOffline_step.
Qed.

(** ** The calls with [await]s, and their stretches *)

Lemma selectChat_stretches (now : Z) (ch : chat) (resp : option (list message))
    (st : state) :
  noUser st = false →
  selectChat now (Some ch) resp st =
    run [SelectChatBegins (Some ch); SelectChatMarksRead ch;
         MessagesArrive now (chat_id ch) resp] st.
Proof.
  intros Hu. unfold run, selectChat. simpl.
  change (noUser (selectChat_begin (Some ch) st)) with (noUser st). by rewrite Hu.
Qed.

Lemma sendMessage_stretches (clk : send_clock) (content type : string) (d : option Z)
    (f : option file) (up : upload_outcome) (st st1 : state) (ctx : send_ctx) :
  sendMessage_start clk content type d f st = Some (ctx, st1) →
  sendMessage clk content type d f up st =
    run [SendMessageBegins clk content type d f; UploadSettles ctx up] st.
Proof. intros E. unfold run, sendMessage. simpl. by rewrite E. Qed.

(** * Further lemmas *)

(** ** The user and the cutoffs through a run *)

Lemma applyPresence_stores (uid : Z) (online : bool) (st : state) :
  userId (applyPresence uid online st) = userId st ∧
  cutoffs (applyPresence uid online st) = cutoffs st ∧
  activeMessages (applyPresence uid online st) = activeMessages st ∧
  unreadCounts (applyPresence uid online st) = unreadCounts st ∧
  typingByChat (applyPresence uid online st) = typingByChat st ∧
  sent (applyPresence uid online st) = sent st.
Proof. unfold applyPresence. by destruct (uid =? 0). Qed.

Lemma onlineUsers_fold_inv (P : state → Prop) (u : option Z) (l : list Z) (st : state) :
  (∀ s x, P s → P (applyPresence x true s)) →
  P st →
  P (foldl (λ s uid, if negb (uid =? 0) && negb (bool_decide (Some uid = u))
                     then applyPresence uid true s else s) st l).
Proof.
  intros Hstep. revert st. induction l as [|x l IH]; intros st HP; simpl; [done|].
  apply IH. destruct (negb (x =? 0) && negb (bool_decide (Some x = u))); [|done].
  by apply Hstep.
Qed.

(** The part of the state that only [deleteChat] and the props decide. *)
Lemma handleWSData_config (now : Z) (data : ws_event) (st : state) :
  userId (handleWSData now data st) = userId st ∧
  cutoffs (handleWSData now data st) = cutoffs st.
Proof.
  destruct data as [ids|uid online|uid name|c s r ty|m].
  - simpl.
    apply (onlineUsers_fold_inv (λ s, userId s = userId st ∧ cutoffs s = cutoffs st));
      [|done].
    intros s x [H1 H2]. destruct (applyPresence_stores x true s) as (Hu & Hk & _).
    by rewrite Hu, Hk.
  - simpl. destruct (uid =? 0); [done|].
    destruct (applyPresence_stores uid online st) as (Hu & Hk & _). by rewrite Hu, Hk.
  - simpl. by destruct ((uid =? 0) || bool_decide (name = EmptyString)).
  - simpl. destruct ((c =? 0) || negb (bool_decide (Some r = userId st))); [done|].
    destruct (bool_decide (Some s = userId st)); [done|].
    destruct (typing_event_view now c ty st) as [Hv _].
    unfold storesView in Hv. injection Hv as _ _ _ _ Hk _ Hu. by rewrite Hk, Hu.
  - destruct (decide (Some (msg_receiverId m) = userId st)) as [Hrecv|Hrecv].
    2:{ by rewrite newMessage_wrong_receiver. }
    destruct (rejectedByCutoff st m) eqn:Hacc.
    { by rewrite newMessage_rejected. }
    by destruct (newMessage_accepted now m st Hrecv Hacc) as (_ & _ & _ & _ & Hu & Hk & _).
Qed.

Lemma loadActiveMessages_config (now chatId : Z) (resp : option (list message))
    (st : state) :
  userId (loadActiveMessages now chatId resp st) = userId st ∧
  cutoffs (loadActiveMessages now chatId resp st) = cutoffs st.
Proof.
  unfold loadActiveMessages. destruct resp as [msgs|]; [|done].
  match goal with
  | |- context [foldl ?f ?s ?l] =>
      destruct (schedule_all_frame now l s) as (_ & _ & _ & _ & _ & Hk & _ & Hu)
  end.
  simpl in *. by rewrite Hk, Hu.
Qed.

Lemma sendMessage_finish_config (ctx : send_ctx) (up : upload_outcome) (st : state) :
  userId (sendMessage_finish ctx up st) = userId st ∧
  cutoffs (sendMessage_finish ctx up st) = cutoffs st.
Proof. unfold sendMessage_finish. by destruct (ctx_file ctx), up. Qed.

Lemma step_userId (st : state) (e : event) : userId (step st e) = userId st.
Proof.
  destruct e as [|sp resp|now c resp|c|ch|now chatId resp|now chatId
                 |clk content type d f up|clk content type d f|ctx up|now data|h|];
    simpl.
  - done.
  - unfold fetchContacts. destruct (noUser st); [done|]. by destruct sp, resp.
  - unfold selectChat. destruct c as [ch|]; [|done]. destruct (noUser st); [done|].
    by rewrite (proj1 (loadActiveMessages_config _ _ _ _)).
  - done.
  - by destruct (noUser st).
  - apply loadActiveMessages_config.
  - unfold deleteChat. by destruct (noUser st).
  - unfold sendMessage.
    destruct (sendMessage_start clk content type d f st) as [[ctx st1]|] eqn:E; [|done].
    rewrite (proj1 (sendMessage_finish_config _ _ _)).
    by destruct (sendMessage_start_spec _ _ _ _ _ _ _ _ E)
      as (sc & uid & _ & _ & _ & _ & _ & _ & _ & _ & _ & _ & _ & Hu & _).
  - destruct (sendMessage_start clk content type d f st) as [[ctx st1]|] eqn:E; [|done].
    by destruct (sendMessage_start_spec _ _ _ _ _ _ _ _ E)
      as (sc & uid & _ & _ & _ & _ & _ & _ & _ & _ & _ & _ & _ & Hu & _).
  - apply sendMessage_finish_config.
  - destruct (noUser st); [done|]. apply handleWSData_config.
  - pose proof (fire_view h st) as Hv. unfold storesView in Hv.
    by injection Hv as _ _ _ _ _ _ Hu.
  - done.
Qed.

Lemma run_userId (evs : list event) (st : state) : userId (run evs st) = userId st.
Proof.
  unfold run. revert st. induction evs as [|e evs IH]; intros st; simpl; [done|].
  by rewrite IH, step_userId.
Qed.

Lemma run_noUser (evs : list event) (st : state) : noUser (run evs st) = noUser st.
Proof. unfold noUser. by rewrite run_userId. Qed.

Lemma step_cutoffs (c : Z) (st : state) (e : event) :
  keepsCutoff c e → cutoffs (step st e) !! c = cutoffs st !! c.
Proof.
  intros Hk.
  destruct e as [|sp resp|now c0 resp|c0|ch|now chatId resp|now chatId
                 |clk content type d f up|clk content type d f|ctx up|now data|h|];
    simpl.
  - done.
  - unfold fetchContacts. destruct (noUser st); [done|]. by destruct sp, resp.
  - unfold selectChat. destruct c0 as [ch|]; [|done]. destruct (noUser st); [done|].
    by rewrite (proj2 (loadActiveMessages_config _ _ _ _)).
  - done.
  - by destruct (noUser st).
  - by rewrite (proj2 (loadActiveMessages_config _ _ _ _)).
  - unfold deleteChat. destruct (noUser st); [done|]. simpl in *.
    by rewrite lookup_insert_ne.
  - unfold sendMessage.
    destruct (sendMessage_start clk content type d f st) as [[ctx st1]|] eqn:E; [|done].
    rewrite (proj2 (sendMessage_finish_config _ _ _)).
    destruct (sendMessage_start_spec _ _ _ _ _ _ _ _ E)
      as (sc & uid & _ & _ & _ & _ & _ & _ & _ & _ & _ & _ & _ & _ & _ & Hc).
    by rewrite Hc.
  - destruct (sendMessage_start clk content type d f st) as [[ctx st1]|] eqn:E; [|done].
    destruct (sendMessage_start_spec _ _ _ _ _ _ _ _ E)
      as (sc & uid & _ & _ & _ & _ & _ & _ & _ & _ & _ & _ & _ & _ & _ & Hc).
    by rewrite Hc.
  - by rewrite (proj2 (sendMessage_finish_config _ _ _)).
  - destruct (noUser st); [done|]. by rewrite (proj2 (handleWSData_config _ _ _)).
  - pose proof (fire_view h st) as Hv. unfold storesView in Hv.
    injection Hv as _ _ _ _ Hc _ _. by rewrite Hc.
  - done.
Qed.

Lemma run_cutoffs (c : Z) (evs : list event) (st : state) :
  Forall (keepsCutoff c) evs → cutoffs (run evs st) !! c = cutoffs st !! c.
Proof.
  unfold run. intros Hk. revert st.
  induction Hk as [|e evs He Hk IH]; intros st; simpl; [done|].
  by rewrite IH, step_cutoffs.
Qed.

(** ** A deleted chat *)

Lemma deleteChat_cutoff (now c : Z) (st : state) :
  noUser st = false → cutoffIsoOf (deleteChat now c st) c = DAt now.
Proof.
  intros Hu. unfold deleteChat, cutoffIsoOf. rewrite Hu. simpl.
  by rewrite lookup_insert_eq.
Qed.

Lemma deleteChat_userId (now c : Z) (st : state) :
  userId (deleteChat now c st) = userId st.
Proof. unfold deleteChat. by destruct (noUser st). Qed.

Lemma cutoff_after_delete (now c : Z) (st : state) (evs : list event) :
  noUser st = false → Forall (keepsCutoff c) evs →
  cutoffIsoOf (run evs (deleteChat now c st)) c = DAt now.
Proof.
  intros Hu Hk. unfold cutoffIsoOf at 1. rewrite run_cutoffs by done.
  by apply deleteChat_cutoff.
Qed.

Lemma reload_after_delete (now c : Z) (st : state) (evs : list event)
    (now' : Z) (msgs : list message) (m : message) :
  noUser st = false → now ≠ 0 → Forall (keepsCutoff c) evs →
  m ∈ messagesOf (loadActiveMessages now' c (Some msgs) (run evs (deleteChat now c st))) c ↔
  m ∈ msgs ∧ now < toMs (msg_createdAt m).
Proof.
  intros Hu Hnow Hk. rewrite loadActiveMessages_messages, filterByCutoff_spec.
  rewrite cutoff_after_delete by done. unfold toMs at 1 2. simpl. split.
  - intros [H [H0|Hlt]]; [done|by split].
  - intros [H Hlt]. split; [done|by right].
Qed.

(** ** The typing indicator *)

Lemma clearTimer_typingView (i : Z) (st : state) :
  typingView (clearTimer i st) = typingView st.
Proof.
  unfold clearTimer, clearTimeout.
  destruct (deletionTimers st !! i) as [t|]; [destruct (t =? 0)|]; done.
Qed.

Lemma schedule_typingView (now : Z) (m : message) (st : state) :
  typingView (scheduleMessageDeletion now m st) = typingView st.
Proof.
  unfold scheduleMessageDeletion. destruct (expiryMs m =? 0); [done|].
  pose proof (clearTimer_typingView (msg_id m) st) as H.
  remember (clearTimer (msg_id m) st) as st1 eqn:E1. clear E1.
  unfold typingView in *. injection H as H1 H2.
  unfold setTimeout. unfold_setters. simpl. by rewrite H1, H2.
Qed.

Lemma schedule_all_typingView (now : Z) (msgs : list message) (st : state) :
  typingView (foldl (λ s m, scheduleMessageDeletion now m s) st msgs) = typingView st.
Proof.
  revert st. induction msgs as [|m msgs IH]; intros st; simpl; [done|].
  by rewrite IH, schedule_typingView.
Qed.

Lemma loadActiveMessages_typingView (now chatId : Z) (resp : option (list message))
    (st : state) :
  typingView (loadActiveMessages now chatId resp st) = typingView st.
Proof.
  unfold loadActiveMessages. destruct resp as [msgs|]; [|done].
  by rewrite schedule_all_typingView.
Qed.

Lemma sendMessage_start_typingView (clk : send_clock) (content type : string) (d : option Z)
    (f : option file) (st st1 : state) (ctx : send_ctx) :
  sendMessage_start clk content type d f st = Some (ctx, st1) →
  typingView st1 = typingView st.
Proof.
  unfold sendMessage_start. destruct (selectedChat st) as [sc|]; [|done].
  destruct (noUser st); [done|]. destruct (socketHasSend st); [|done]. simpl.
  destruct (sendThrows clk d); [done|].
  intros [= _ <-]. unfold bumpChatToTopAndUpdateLast.
  change (typingView (setPersistentContacts ?f ?s)) with (typingView s).
  by rewrite schedule_typingView.
Qed.

Lemma sendMessage_finish_typingView (ctx : send_ctx) (up : upload_outcome) (st : state) :
  typingView (sendMessage_finish ctx up st) = typingView st.
Proof. unfold sendMessage_finish. by destruct (ctx_file ctx), up. Qed.

Lemma newMessage_typingView (now : Z) (m : message) (st : state) :
  typingView (handleWSData now (NewMessage m) st) = typingView st.
Proof.
  simpl. destruct (negb (bool_decide (Some (msg_receiverId m) = userId st))); [done|].
  destruct (rejectedByCutoff st m); [done|]. unfold bumpChatToTopAndUpdateLast.
  destruct (negb (isOpen st (msg_chatId m)));
    [change (typingView (setUnreadCounts ?f ?s)) with (typingView s)|];
    change (typingView (setPersistentContacts ?f ?s)) with (typingView s);
    by rewrite schedule_typingView.
Qed.

(** A typing event that is for the local user and not from the local user. *)
Lemma typing_accepted (now c s r : Z) (isTyping : bool) (st : state) :
  c ≠ 0 → Some r = userId st → Some s ≠ userId st →
  handleWSData now (TypingEvent c s r isTyping) st =
    let st1 := clearTypingTimer c st in
    let st2 := setTypingState c isTyping st1 in
    if isTyping then
      let '(t, st3) := setTimeout now 3000 (ClearTyping c) st2 in
      setTypingTimeouts (λ d, <[c := t]> d) st3
    else st2.
Proof.
  intros Hc Hr Hs. simpl. destruct (Z.eqb_spec c 0); [done|].
  rewrite (bool_decide_eq_true_2 _ Hr), (bool_decide_eq_false_2 _ Hs). done.
Qed.

Lemma typing_rejected (now c s r : Z) (isTyping : bool) (st : state) :
  c = 0 ∨ Some r ≠ userId st ∨ Some s = userId st →
  handleWSData now (TypingEvent c s r isTyping) st = st.
Proof.
  intros [->|[Hr|Hs]]; simpl.
  - done.
  - rewrite (bool_decide_eq_false_2 _ Hr). by destruct (c =? 0).
  - rewrite (bool_decide_eq_true_2 _ Hs).
    by destruct ((c =? 0) || negb (bool_decide (Some r = userId st))).
Qed.

Lemma typing_on_fields (now c : Z) (st : state) :
  let st' :=
    (let st1 := clearTypingTimer c st in
     let st2 := setTypingState c true st1 in
     let '(t, st3) := setTimeout now 3000 (ClearTyping c) st2 in
     setTypingTimeouts (λ d, <[c := t]> d) st3) in
  typingByChat st' = <[c := true]> (typingByChat st) ∧
  typingTimeouts st' = <[c := nextHandle st]> (typingTimeouts st) ∧
  pending st' = <[nextHandle st := typingTimer now c]> (pending (clearTypingTimer c st)) ∧
  nextHandle st' = nextHandle st + 1.
Proof.
  pose proof (clearTypingTimer_fields c st)
    as (Ht & _ & Hn & _ & _ & _ & _ & _ & _ & _ & _ & _ & Hty).
  remember (clearTypingTimer c st) as st1 eqn:E1. clear E1. cbv zeta.
  unfold setTimeout, setTypingState. unfold_setters. simpl.
  rewrite Ht, Hn, Hty. split_and!; try done. by rewrite insert_delete_eq.
Qed.

Lemma typing_off_fields (c : Z) (st : state) :
  let st' := setTypingState c false (clearTypingTimer c st) in
  typingByChat st' = delete c (typingByChat st) ∧
  typingTimeouts st' = delete c (typingTimeouts st) ∧
  pending st' = pending (clearTypingTimer c st) ∧
  nextHandle st' = nextHandle st.
Proof.
  pose proof (clearTypingTimer_fields c st)
    as (Ht & _ & Hn & _ & _ & _ & _ & _ & _ & _ & _ & _ & Hty).
  remember (clearTypingTimer c st) as st1 eqn:E1. clear E1. cbv zeta.
  unfold setTypingState. unfold_setters. simpl. by rewrite Ht, Hn, Hty.
Qed.

Lemma clearTypingTimer_cancels (c h : Z) (st : state) :
  timers_wf st → typingTimeouts st !! c = Some h →
  pending (clearTypingTimer c st) = delete h (pending st).
Proof.
  intros W Hreg. destruct (clearTypingTimer_fields c st) as (_ & Hp & _).
  rewrite Hp, Hreg. destruct (wf_typing _ W _ _ Hreg) as (t & Hpt & _).
  destruct (wf_pending _ W _ _ Hpt) as [Hb _]. by destruct (Z.eqb_spec h 0); [lia|].
Qed.

Lemma fire_typing_fields (h : Z) (st : state) (t : timer) (c : Z) :
  pending st !! h = Some t → timer_job t = ClearTyping c →
  typingByChat (fire h st) = delete c (typingByChat st) ∧
  typingTimeouts (fire h st) = delete c (typingTimeouts st) ∧
  activeMessages (fire h st) = activeMessages st ∧
  deletionTimers (fire h st) = deletionTimers st.
Proof.
  intros Hl Hj. unfold fire. rewrite Hl, Hj.
  match goal with |- context [clearTypingTimer c ?s] => remember s as st1 eqn:E1 end.
  pose proof (clearTypingTimer_fields c st1)
    as (Ht & _ & _ & Hd & Ha & _ & _ & _ & _ & _ & _ & _ & Hty).
  rewrite Ht, Hd, Ha, Hty. by subst st1.
Qed.

Lemma fire_typing_pending (h : Z) (st : state) (t : timer) (c : Z) :
  timers_wf st → pending st !! h = Some t → timer_job t = ClearTyping c →
  pending (fire h st) = delete h (pending st).
Proof.
  intros W Hl Hj. destruct (wf_pending _ W _ _ Hl) as [Hb Hreg]. rewrite Hj in Hreg.
  unfold fire. rewrite Hl, Hj.
  match goal with |- context [clearTypingTimer c ?s] => remember s as st1 eqn:E1 end.
  destruct (clearTypingTimer_fields c st1) as (_ & Hp & _).
  rewrite Hp. subst st1. simpl. rewrite Hreg.
  destruct (Z.eqb_spec h 0); [lia|]. by rewrite delete_delete_eq.
Qed.

Lemma fire_expire_typingView (h : Z) (st : state) (t : timer) (c i : Z) :
  pending st !! h = Some t → timer_job t = ExpireMessage c i →
  typingView (fire h st) = typingView st.
Proof.
  intros Hl Hj. unfold fire. rewrite Hl, Hj. unfold expireMessage.
  by rewrite clearTimer_typingView.
Qed.

Lemma timers_wf_oneChat (st : state) : timers_wf st → oneTimerPerChat st.
Proof.
  intros W c h1 h2 t1 t2 H1 J1 H2 J2.
  apply (wf_pending _ W) in H1 as [_ H1]. apply (wf_pending _ W) in H2 as [_ H2].
  rewrite J1 in H1. rewrite J2 in H2. congruence.
Qed.

Lemma typingBacked_view (st st' : state) :
  typingView st' = typingView st → typingBacked st → typingBacked st'.
Proof. unfold typingView, typingBacked. by intros [= -> ->]. Qed.

Lemma typingBacked_delete (st st' : state) (c : Z) :
  typingByChat st' = delete c (typingByChat st) →
  typingTimeouts st' = delete c (typingTimeouts st) →
  typingBacked st → typingBacked st'.
Proof.
  intros Hb Ht B c' b. rewrite Hb, Ht. intros [Hne Hl]%lookup_delete_Some.
  rewrite lookup_delete_ne by done. by apply B.
Qed.

Lemma typingBacked_typing_event (now c : Z) (isTyping : bool) (st : state) :
  typingBacked st →
  typingBacked
    (let st1 := clearTypingTimer c st in
     let st2 := setTypingState c isTyping st1 in
     if isTyping then
       let '(t, st3) := setTimeout now 3000 (ClearTyping c) st2 in
       setTypingTimeouts (λ d, <[c := t]> d) st3
     else st2).
Proof.
  intros B. destruct isTyping.
  - destruct (typing_on_fields now c st) as (Hb & Ht & _).
    intros c' b. cbv zeta in *. rewrite Hb, Ht.
    destruct (decide (c' = c)) as [->|Hne].
    + rewrite !lookup_insert_eq. intros [= <-]. eauto.
    + rewrite !lookup_insert_ne by done. apply B.
  - destruct (typing_off_fields c st) as (Hb & Ht & _).
    by apply (typingBacked_delete st _ c).
Qed.

Lemma handleWSData_typingBacked (now : Z) (data : ws_event) (st : state) :
  typingBacked st → typingBacked (handleWSData now data st).
Proof.
  intros B. destruct data as [ids|uid online|uid name|c s r ty|m].
  - simpl. apply (onlineUsers_fold_inv typingBacked); [|done].
    intros s x Hs. apply (typingBacked_view s); [|done]. unfold applyPresence.
    by destruct (x =? 0).
  - simpl. destruct (uid =? 0); [done|]. apply (typingBacked_view st); [|done].
    unfold applyPresence. by destruct (uid =? 0).
  - simpl. by destruct ((uid =? 0) || bool_decide (name = EmptyString)).
  - simpl. destruct ((c =? 0) || negb (bool_decide (Some r = userId st))); [done|].
    destruct (bool_decide (Some s = userId st)); [done|].
    by apply typingBacked_typing_event.
  - apply (typingBacked_view st); [apply newMessage_typingView|done].
Qed.

Lemma typingBacked_step (st : state) (e : event) :
  mounted e → typingBacked st → typingBacked (step st e).
Proof.
  intros Hm B.
  destruct e as [|sp resp|now c resp|c|ch|now chatId resp|now chatId
                 |clk content type d f up|clk content type d f|ctx up|now data|h|];
    simpl.
  - done.
  - apply (typingBacked_view st); [|done]. unfold fetchContacts.
    destruct (noUser st); [done|]. by destruct sp, resp.
  - apply (typingBacked_view st); [|done]. unfold selectChat.
    destruct c as [ch|]; [|done]. destruct (noUser st); [done|].
    by rewrite loadActiveMessages_typingView.
  - done.
  - by destruct (noUser st).
  - apply (typingBacked_view st); [apply loadActiveMessages_typingView|done].
  - apply (typingBacked_view st); [|done]. unfold deleteChat. by destruct (noUser st).
  - apply (typingBacked_view st); [|done]. unfold sendMessage.
    destruct (sendMessage_start clk content type d f st) as [[ctx st1]|] eqn:E; [|done].
    rewrite sendMessage_finish_typingView. by eapply sendMessage_start_typingView.
  - destruct (sendMessage_start clk content type d f st) as [[ctx st1]|] eqn:E; [|done].
    apply (typingBacked_view st); [|done]. by eapply sendMessage_start_typingView.
  - apply (typingBacked_view st); [apply sendMessage_finish_typingView|done].
  - destruct (noUser st); [done|]. by apply handleWSData_typingBacked.
  - destruct (pending st !! h) as [t|] eqn:Hl.
    2:{ by rewrite fire_not_live. }
    destruct (timer_job t) as [c i|c] eqn:Hj.
    + apply (typingBacked_view st); [|done]. by eapply fire_expire_typingView.
    + destruct (fire_typing_fields h st t c Hl Hj) as (Hb & Ht & _).
      by apply (typingBacked_delete st _ c).
  - done.
Qed.

Lemma typingBacked_run (evs : list event) (st : state) :
  Forall mounted evs → typingBacked st → typingBacked (run evs st).
Proof.
  unfold run. intros Hm. revert st.
  induction Hm as [|e evs He Hm IH]; intros st B; simpl; [done|].
  by apply IH, typingBacked_step.
Qed.

Lemma typingBacked_init (uid : option Z) (hasSend : bool) :
  typingBacked (init_state uid hasSend).
Proof. intros c b. simpl. by rewrite lookup_empty. Qed.

(** ** Presence events *)

Lemma applyPresence_fields (uid : Z) (online : bool) (st : state) :
  uid ≠ 0 →
  presence (applyPresence uid online st) = <[uid := online]> (presence st) ∧
  persistentContacts (applyPresence uid online st) =
    map (λ c, if decide (user_id (otherUser c) ≠ uid) then c else withOnline online c)
        (persistentContacts st) ∧
  selectedChat (applyPresence uid online st) =
    match selectedChat st with
    | None => None
    | Some c => if decide (user_id (otherUser c) ≠ uid) then Some c
                else Some (withOnline online c)
    end.
Proof. intros Hne. unfold applyPresence. by destruct (Z.eqb_spec uid 0). Qed.

Lemma presenceSnapshot_ext (st st' : state) (oid : Z) :
  presence st' = presence st → presenceSnapshot st' oid = presenceSnapshot st oid.
Proof. unfold presenceSnapshot. by intros ->. Qed.

Lemma presenceConsistent_view (st st' : state) :
  presence st' = presence st → persistentContacts st' = persistentContacts st →
  presenceConsistent st → presenceConsistent st'.
Proof.
  unfold presenceConsistent. intros Hp -> C. eapply Forall_impl; [exact C|].
  intros c Hc. by rewrite (presenceSnapshot_ext st st').
Qed.

Lemma presenceConsistent_applyPresence (uid : Z) (online : bool) (st : state) :
  presenceConsistent st → presenceConsistent (applyPresence uid online st).
Proof.
  intros C. destruct (decide (uid = 0)) as [->|Hne]; [done|].
  destruct (applyPresence_fields uid online st Hne) as (Hp & Hc & _).
  unfold presenceConsistent, presenceSnapshot. rewrite Hp, Hc.
  apply Forall_fmap. eapply Forall_impl; [exact C|]. intros c Hcons. simpl.
  destruct (decide (user_id (otherUser c) ≠ uid)) as [Hother|Hsame].
  - rewrite lookup_insert_ne by done. exact Hcons.
  - apply dec_stable in Hsame. simpl. rewrite Hsame, lookup_insert_eq.
    by destruct (Z.eqb_spec uid 0).
Qed.

Lemma presenceConsistent_bump (now chatId : Z) (lm : preview) (st st' : state) :
  presence st' = presence st →
  persistentContacts st' = bumpList now chatId lm (persistentContacts st) →
  presenceConsistent st → presenceConsistent st'.
Proof.
  intros Hp Hc C. unfold presenceConsistent. rewrite Hc.
  apply bumpList_Forall.
  - by intros c p ts.
  - eapply Forall_impl; [exact C|]. intros c Hcons.
    by rewrite (presenceSnapshot_ext st st').
Qed.

Lemma presenceConsistent_handleWSData (now : Z) (data : ws_event) (st : state) :
  presenceConsistent st → presenceConsistent (handleWSData now data st).
Proof.
  intros C. destruct data as [ids|uid online|uid name|c s r ty|m].
  - simpl. apply (onlineUsers_fold_inv presenceConsistent); [|done].
    intros s x. apply presenceConsistent_applyPresence.
  - simpl. destruct (uid =? 0); [done|]. by apply presenceConsistent_applyPresence.
  - simpl. destruct ((uid =? 0) || bool_decide (name = EmptyString)); [done|].
    unfold presenceConsistent. simpl. apply Forall_fmap.
    eapply Forall_impl; [exact C|]. intros c Hcons. simpl.
    by destruct (decide (user_id (otherUser c) ≠ uid)).
  - simpl. destruct ((c =? 0) || negb (bool_decide (Some r = userId st))); [done|].
    destruct (bool_decide (Some s = userId st)); [done|].
    destruct (typing_event_view now c ty st) as [Hv _].
    unfold storesView in Hv. injection Hv as Hc _ _ Hp _ _ _.
    by apply (presenceConsistent_view st).
  - destruct (decide (Some (msg_receiverId m) = userId st)) as [Hrecv|Hrecv].
    2:{ by rewrite newMessage_wrong_receiver. }
    destruct (rejectedByCutoff st m) eqn:Hacc.
    { by rewrite newMessage_rejected. }
    destruct (newMessage_accepted now m st Hrecv Hacc)
      as (_ & _ & _ & Hc' & _ & _ & _ & _ & Hp').
    by eapply presenceConsistent_bump.
Qed.

Lemma presenceConsistent_fetchContacts (showSpinner : bool) (resp : option (list chat))
    (st : state) :
  presenceConsistent st → presenceConsistent (fetchContacts showSpinner resp st).
Proof.
  intros C. unfold fetchContacts. destruct (noUser st); [done|].
  destruct resp as [contacts|].
  - assert (Hnew : ∀ l : list chat,
      Forall (λ c, isOnline (otherUser c) = presenceSnapshot st (user_id (otherUser c)))
        (map (λ c, withOnline (presenceSnapshot st (user_id (otherUser c))) c) l)).
    { intros l. apply Forall_fmap, Forall_true. by intros c. }
    by destruct showSpinner; apply Hnew.
  - destruct showSpinner; [by constructor|done].
Qed.

Lemma presenceConsistent_step (st : state) (e : event) :
  presenceConsistent st → presenceConsistent (step st e).
Proof.
  intros C.
  destruct e as [|sp resp|now c resp|c|ch|now chatId resp|now chatId
                 |clk content type d f up|clk content type d f|ctx up|now data|h|];
    simpl.
  - unfold presenceConsistent, setAllOffline, presenceSnapshot. simpl.
    apply Forall_fmap, Forall_true. intros c. simpl. rewrite lookup_empty.
    by destruct (user_id (otherUser c) =? 0).
  - by apply presenceConsistent_fetchContacts.
  - unfold selectChat. destruct c as [ch|]; [|done]. destruct (noUser st); [done|].
    match goal with
    | |- presenceConsistent (loadActiveMessages ?n ?k ?r ?s) =>
        destruct (loadActiveMessages_stores n k r s) as (Hc & _ & _ & Hp);
        apply (presenceConsistent_view s); [done|done|]
    end.
    unfold presenceConsistent, selectChat_marked. simpl. apply Forall_fmap.
    eapply Forall_impl; [exact C|]. intros c' Hcons. simpl.
    by destruct (decide (chat_id c' = chat_id ch)).
  - done.
  - destruct (noUser st); [done|].
    unfold presenceConsistent, selectChat_marked. simpl. apply Forall_fmap.
    eapply Forall_impl; [exact C|]. intros c' Hcons. simpl.
    by destruct (decide (chat_id c' = chat_id ch)).
  - destruct (loadActiveMessages_stores now chatId resp st) as (Hc & _ & _ & Hp).
    by apply (presenceConsistent_view st).
  - unfold deleteChat. destruct (noUser st); [done|].
    unfold presenceConsistent in *. simpl. rewrite Forall_forall in C.
    apply Forall_forall. intros c [_ Hin]%list_elem_of_filter. by apply C.
  - unfold sendMessage.
    destruct (sendMessage_start clk content type d f st) as [[ctx st1]|] eqn:E; [|done].
    destruct (sendMessage_finish_stores ctx up st1) as (Hc & _ & _ & Hp).
    apply (presenceConsistent_view st1); [done|done|].
    destruct (sendMessage_start_spec _ _ _ _ _ _ _ _ E)
      as (sc & uid & _ & _ & _ & _ & _ & _ & Hc1 & _ & _ & _ & _ & _ & Hp1 & _).
    by eapply presenceConsistent_bump.
  - destruct (sendMessage_start clk content type d f st) as [[ctx st1]|] eqn:E; [|done].
    destruct (sendMessage_start_spec _ _ _ _ _ _ _ _ E)
      as (sc & uid & _ & _ & _ & _ & _ & _ & Hc1 & _ & _ & _ & _ & _ & Hp1 & _).
    by eapply presenceConsistent_bump.
  - destruct (sendMessage_finish_stores ctx up st) as (Hc & _ & _ & Hp).
    by apply (presenceConsistent_view st).
  - destruct (noUser st); [done|]. by apply presenceConsistent_handleWSData.
  - pose proof (fire_view h st) as Hv. unfold storesView in Hv.
    injection Hv as Hc _ _ Hp _ _ _. by apply (presenceConsistent_view st).
  - by apply (presenceConsistent_view st).
Qed.

Lemma presenceConsistent_run (evs : list event) (st : state) :
  presenceConsistent st → presenceConsistent (run evs st).
Proof.
  unfold run. revert st. induction evs as [|e evs IH]; intros st C; simpl; [done|].
  by apply IH, presenceConsistent_step.
Qed.


Lemma withUsername_twice (n n' : string) (c : chat) :
  withUsername n (withUsername n' c) = withUsername n c.
Proof. done. Qed.


(** ** Sending *)



Lemma occurrences_filter_ne (i : Z) (l : list message) :
  occurrences i (filter (λ m, msg_id m ≠ i) l) = 0%nat.
Proof.
  apply occurrences_zero. rewrite Exists_exists.
  intros (x & [Hne _]%list_elem_of_filter & Hx). done.
Qed.

(** Rewriting the messages that carry an id leaves a sequence without that
    id as it is. *)
Lemma map_absent_id (i : Z) (g : message → message) (l : list message) :
  occurrences i l = 0%nat →
  map (λ m, if decide (msg_id m = i) then g m else m) l = l.
Proof.
  intros H%occurrences_zero. induction l as [|x l IH]; [done|]. simpl.
  rewrite decide_False.
  - f_equal. apply IH. intros Hl. apply H. by right.
  - intros Hx. apply H. by left.
Qed.

Lemma sendMessage_start_eq (clk : send_clock) (content type : string) (d : option Z)
    (f : option file) (st : state) (sc : chat) :
  selectedChat st = Some sc → noUser st = false → socketHasSend st = true →
  sendThrows clk d = false →
  ∃ uid st1,
    userId st = Some uid ∧
    sendMessage_start clk content type d f st =
      Some ({| tempId := at_tempId clk; ctx_chat := sc; ctx_userId := uid;
               secs := expirySeconds d; ctx_content := content; ctx_type := type;
               ctx_file := f |}, st1) ∧
    activeMessages st1 =
      <[chat_id sc := messagesOf st (chat_id sc) ++
                      [optimisticMessage clk sc uid content type d f]]>
        (activeMessages st) ∧
    sent st1 = sent st.
Proof.
  intros Hsel Hu Hs Hok.
  destruct (sendMessage_start_total clk content type d f st) as [[ctx st1] E];
    [by rewrite Hsel|done|done|done|].
  destruct (sendMessage_start_spec _ _ _ _ _ _ _ _ E)
    as (sc' & uid & Hsel' & Huid & _ & _ & -> & Ham & _ & _ & Hsent & _).
  rewrite Hsel in Hsel'. injection Hsel' as <-.
  exists uid, st1. by rewrite E.
Qed.

(** The expiry timer of the placeholder of a send. *)
Lemma sendMessage_start_timer (clk : send_clock) (content type : string) (d : option Z)
    (f : option file) (st st1 : state) (ctx : send_ctx) :
  sendMessage_start clk content type d f st = Some (ctx, st1) →
  let opt := optimisticMessage clk (ctx_chat ctx) (ctx_userId ctx) content type d f in
  expiryMs opt = at_expires clk + expirySeconds d * 1000 ∧
  (expiryMs opt ≠ 0 →
   deletionTimers st1 !! at_tempId clk = Some (nextHandle st) ∧
   pending st1 !! nextHandle st = Some (expiryTimer (at_schedule clk) opt)).
Proof.
  intros E. unfold sendMessage_start in E.
  destruct (selectedChat st) as [sc|]; [|done].
  destruct (noUser st); [done|]. destruct (negb (socketHasSend st)); [done|].
  destruct (sendThrows clk d); [done|].
  injection E as <- <-. cbn [ctx_chat ctx_userId].
  set (opt := optimisticMessage clk sc (default 0 (userId st)) content type d f).
  split; [done|]. intros Hne.
  match goal with
  | |- context [scheduleMessageDeletion ?n opt ?s] =>
      destruct (schedule_arms n opt s Hne) as [Hd Hp]
  end.
  unfold bumpChatToTopAndUpdateLast. unfold_setters. simpl in *.
  split; [exact Hd|exact Hp].
Qed.

(** The placeholder of a send whose clock reads are the instant [now]. *)
Lemma placeholder_due (now : Z) (sc : chat) (uid : Z) (content type : string)
    (d : option Z) (f : option file) :
  0 ≤ now → expirySeconds d * 1000 ≤ maxDelay →
  let opt := optimisticMessage (atOnce now) sc uid content type d f in
  expiryMs opt ≠ 0 ∧ due (expiryTimer now opt) = now + expirySeconds d * 1000.
Proof.
  intros Hnow Hr opt.
  assert (Hsecs : 5 ≤ expirySeconds d) by (unfold expirySeconds; lia).
  assert (Hexp : expiryMs opt = now + expirySeconds d * 1000) by done.
  split; [lia|]. destruct (expiryTimer_due now opt) as [_ [Hdue _]].
  { unfold inTimerRange. lia. }
  rewrite Hdue, Hexp. lia.
Qed.

Lemma sendMessage_finish_absent (ctx : send_ctx) (up : upload_outcome) (st : state) :
  let c := chat_id (ctx_chat ctx) in
  occurrences (tempId ctx) (messagesOf st c) = 0%nat →
  occurrences (tempId ctx) (messagesOf (sendMessage_finish ctx up st) c) = 0%nat.
Proof.
  intros c Habs. unfold sendMessage_finish. fold c.
  destruct (ctx_file ctx) as [fl|]; [|done].
  destruct up as [|url oname osize].
  - unfold messagesOf. unfold_setters. cbn [activeMessages].
    rewrite lookup_insert_eq. cbn [from_option id]. apply occurrences_filter_ne.
  - unfold messagesOf, emit. unfold_setters. cbn [activeMessages].
    rewrite lookup_insert_eq. cbn [from_option id].
    fold (messagesOf st c). by rewrite (map_absent_id _ _ _ Habs).
Qed.

Lemma sendMessage_finish_sent (ctx : send_ctx) (up : upload_outcome) (st : state) :
  (delivers (ctx_file ctx) up → ∃ p, sent (sendMessage_finish ctx up st) = sent st ++ [p]) ∧
  (¬ delivers (ctx_file ctx) up → sent (sendMessage_finish ctx up st) = sent st).
Proof.
  unfold sendMessage_finish, delivers.
  destruct (ctx_file ctx) as [fl|]; [destruct up as [|url oname osize]|].
  - split; [done|]. by intros _.
  - split; [|done]. intros _. by eexists.
  - split; [|by destruct up]. intros _. by eexists.
Qed.

(** ** Inbound messages and teardown *)

Lemma rejectedByCutoff_ext (st st' : state) (m : message) :
  cutoffs st' = cutoffs st → rejectedByCutoff st' m = rejectedByCutoff st m.
Proof. intros H. unfold rejectedByCutoff, cutoffIsoOf. by rewrite H. Qed.

Lemma isOpen_ext (st st' : state) (c : Z) :
  selectedChat st' = selectedChat st → isOpen st' c = isOpen st c.
Proof. intros H. unfold isOpen. by rewrite H. Qed.


(** ** The unread badge *)

Lemma mapUnreadCount_unreadOf (st : state) (c : chat) :
  mapUnreadCount (unreadCounts st) c = unreadOf st (chat_id c).
Proof.
  unfold mapUnreadCount, unreadOf. destruct (unreadCounts st !! chat_id c) as [v|]; [|done].
  by destruct v.
Qed.

Lemma num_or_zero (v : Z) : num_or (Some v) 0 = v.
Proof. by destruct v. Qed.

Lemma listCountBacked_view (st st' : state) :
  unreadCounts st' = unreadCounts st →
  persistentContacts st' = persistentContacts st →
  listCountBacked st → listCountBacked st'.
Proof. unfold listCountBacked, unreadOf. by intros -> ->. Qed.

(** A rewrite of the summaries that keeps ids and counts. *)
Lemma listCountBacked_map (g : chat → chat) (st st' : state) :
  (∀ c, chat_id (g c) = chat_id c ∧ unreadCount (g c) = unreadCount c) →
  unreadCounts st' = unreadCounts st →
  persistentContacts st' = map g (persistentContacts st) →
  listCountBacked st → listCountBacked st'.
Proof.
  unfold listCountBacked, unreadOf, apiUnreadCount. intros Hg -> -> C.
  apply Forall_fmap. eapply Forall_impl; [exact C|]. intros c Hc. simpl.
  destruct (Hg c) as [-> ->]. exact Hc.
Qed.

Lemma listCountBacked_applyPresence (uid : Z) (online : bool) (st : state) :
  listCountBacked st → listCountBacked (applyPresence uid online st).
Proof.
  intros C. destruct (decide (uid = 0)) as [->|Hne]; [done|].
  destruct (applyPresence_fields uid online st Hne) as (_ & Hc & _).
  destruct (applyPresence_stores uid online st) as (_ & _ & _ & Hu & _).
  eapply (listCountBacked_map _ st); [|exact Hu|exact Hc|exact C].
  intros c. cbv beta. by destruct (decide (user_id (otherUser c) ≠ uid)).
Qed.

Lemma listCountBacked_bump (now chatId : Z) (lm : preview) (st st' : state) :
  (∀ k, unreadOf st k ≤ unreadOf st' k) →
  persistentContacts st' = bumpList now chatId lm (persistentContacts st) →
  listCountBacked st → listCountBacked st'.
Proof.
  intros Hu Hc C. unfold listCountBacked. rewrite Hc. apply bumpList_Forall.
  - by intros c p ts.
  - eapply Forall_impl; [exact C|]. intros c Hle. simpl in *.
    specialize (Hu (chat_id c)). lia.
Qed.

Lemma listCountBacked_marked (ch : chat) (st : state) :
  listCountBacked st → listCountBacked (selectChat_marked ch st).
Proof.
  intros C. unfold listCountBacked, selectChat_marked, unreadOf. simpl.
  apply Forall_fmap. eapply Forall_impl; [exact C|]. intros c Hle. simpl.
  destruct (decide (chat_id c = chat_id ch)) as [He|Hne]; simpl.
  - by rewrite He, lookup_delete_eq.
  - by rewrite lookup_delete_ne.
Qed.

Lemma listCountBacked_fetchContacts (showSpinner : bool) (resp : option (list chat))
    (st : state) :
  distinctChats (FetchContacts showSpinner resp) → unread_nonneg st →
  listCountBacked st → listCountBacked (fetchContacts showSpinner resp st).
Proof.
  intros Hnd N C. destruct (noUser st) eqn:Hu.
  { unfold fetchContacts. by rewrite Hu. }
  destruct resp as [contacts|].
  - unfold listCountBacked. rewrite fetchContacts_contacts by done.
    apply Forall_fmap. rewrite arraySort_perm. apply Forall_fmap, Forall_forall.
    intros c Hc. unfold apiUnreadCount, compose.
    cbn [unreadCount chat_id withOnline withUnreadCount]. rewrite num_or_zero.
    unfold unreadOf. rewrite fetchContacts_unread, mergeUnread_lookup by done.
    rewrite collectServerUnread_in by done.
    pose proof (unreadOf_nonneg st (chat_id c) N) as Hge.
    destruct (Z.ltb_spec 0 (serverUnreadOf (userId st) c)) as [Hpos|Hle]; simpl.
    + lia.
    + fold (unreadOf st (chat_id c)). lia.
  - unfold fetchContacts. rewrite Hu.
    destruct showSpinner; [by constructor|exact C].
Qed.

Lemma listCountBacked_handleWSData (now : Z) (data : ws_event) (st : state) :
  listCountBacked st → listCountBacked (handleWSData now data st).
Proof.
  intros C. destruct data as [ids|uid online|uid name|c s r ty|m].
  - simpl. apply (onlineUsers_fold_inv listCountBacked); [|done].
    intros s x. apply listCountBacked_applyPresence.
  - simpl. destruct (uid =? 0); [done|]. by apply listCountBacked_applyPresence.
  - simpl. destruct ((uid =? 0) || bool_decide (name = EmptyString)); [done|].
    eapply (listCountBacked_map _ st); [|reflexivity|reflexivity|exact C].
    intros c'. cbv beta. by destruct (decide (user_id (otherUser c') ≠ uid)).
  - simpl. destruct ((c =? 0) || negb (bool_decide (Some r = userId st))); [done|].
    destruct (bool_decide (Some s = userId st)); [done|].
    destruct (typing_event_view now c ty st) as [Hv _].
    unfold storesView in Hv. injection Hv as Hc _ Hu _ _ _ _.
    by apply (listCountBacked_view st).
  - destruct (decide (Some (msg_receiverId m) = userId st)) as [Hrecv|Hrecv].
    2:{ by rewrite newMessage_wrong_receiver. }
    destruct (rejectedByCutoff st m) eqn:Hacc.
    { by rewrite newMessage_rejected. }
    destruct (newMessage_accepted now m st Hrecv Hacc)
      as (_ & _ & Hu' & Hc' & _).
    eapply listCountBacked_bump; [|exact Hc'|exact C].
    intros k. unfold unreadOf at 2. rewrite Hu'.
    destruct (isOpen st (msg_chatId m)); [done|].
    destruct (decide (k = msg_chatId m)) as [->|Hk].
    + rewrite lookup_insert_eq. simpl. lia.
    + by rewrite lookup_insert_ne.
Qed.

Lemma listCountBacked_step (st : state) (e : event) :
  distinctChats e → unread_nonneg st →
  listCountBacked st → listCountBacked (step st e).
Proof.
  intros Hnd N C.
  destruct e as [|sp resp|now c resp|c|ch|now chatId resp|now chatId
                 |clk content type d f up|clk content type d f|ctx up|now data|h|];
    cbn [step].
  - eapply (listCountBacked_map (withOnline false) st); [done|done|done|exact C].
  - by apply listCountBacked_fetchContacts.
  - unfold selectChat. destruct c as [ch|]; [|exact C]. destruct (noUser st); [exact C|].
    match goal with
    | |- listCountBacked (loadActiveMessages ?n ?k ?r ?s) =>
        destruct (loadActiveMessages_stores n k r s) as (Hc & _ & Hu & _);
        apply (listCountBacked_view s); [done|done|]
    end.
    apply (listCountBacked_marked ch (selectChat_begin (Some ch) st)).
    by apply (listCountBacked_view st).
  - exact C.
  - destruct (noUser st); [exact C|]. by apply listCountBacked_marked.
  - destruct (loadActiveMessages_stores now chatId resp st) as (Hc & _ & Hu & _).
    by apply (listCountBacked_view st).
  - unfold deleteChat. destruct (noUser st); [exact C|].
    unfold listCountBacked, unreadOf in *. simpl. rewrite Forall_forall in C.
    apply Forall_forall. intros c [Hne Hin]%list_elem_of_filter.
    rewrite lookup_delete_ne by done. by apply C.
  - unfold sendMessage.
    destruct (sendMessage_start clk content type d f st) as [[ctx st1]|] eqn:E; [|done].
    destruct (sendMessage_finish_stores ctx up st1) as (Hc & _ & Hu & _).
    apply (listCountBacked_view st1); [done|done|].
    destruct (sendMessage_start_spec _ _ _ _ _ _ _ _ E)
      as (sc & uid & _ & _ & _ & _ & _ & _ & Hc1 & _ & _ & Hu1 & _).
    eapply listCountBacked_bump; [|exact Hc1|exact C].
    intros k. unfold unreadOf. by rewrite Hu1.
  - destruct (sendMessage_start clk content type d f st) as [[ctx st1]|] eqn:E; [|done].
    destruct (sendMessage_start_spec _ _ _ _ _ _ _ _ E)
      as (sc & uid & _ & _ & _ & _ & _ & _ & Hc1 & _ & _ & Hu1 & _).
    eapply listCountBacked_bump; [|exact Hc1|exact C].
    intros k. unfold unreadOf. by rewrite Hu1.
  - destruct (sendMessage_finish_stores ctx up st) as (Hc & _ & Hu & _).
    by apply (listCountBacked_view st).
  - destruct (noUser st); [exact C|]. by apply listCountBacked_handleWSData.
  - pose proof (fire_view h st) as Hv. unfold storesView in Hv.
    injection Hv as Hc _ Hu _ _ _ _. by apply (listCountBacked_view st).
  - by apply (listCountBacked_view st).
Qed.

Lemma listCountBacked_run (evs : list event) (st : state) :
  Forall distinctChats evs → unread_nonneg st →
  listCountBacked st → listCountBacked (run evs st).
Proof.
  unfold run. revert st. induction evs as [|e evs IH]; intros st Hd N C; simpl; [done|].
  apply Forall_cons in Hd as [He Hd].
  apply IH; [done|by apply unread_nonneg_step|by apply listCountBacked_step].
Qed.

(** ** The loading flags *)














(** ** The message bubble *)

Lemma toHook_at (v : Bubble.raw) (ms : Z) :
  Bubble.toHook v = DAt ms → v = Bubble.RAt ms.
Proof. destruct v; simpl; congruence. Qed.


(** Where the hook finds an expiry, the first field that the component
    does not skip already gives it, unless that field is the empty string. *)
Lemma expiry_agrees (b : Bubble.bubble) (m : message) :
  Bubble.reads b m → 0 < expiryMs m →
  Bubble.b_expiresAt b ≠ Bubble.REmpty →
  Bubble.expiresAtMs b = expiryMs m.
Proof.
  intros (He & He' & _ & _) Hpos Hne. unfold expiryMs in *.
  rewrite <- He, <- He' in Hpos |- *. clear He He'.
  unfold Bubble.expiresAtMs.
  destruct (Bubble.b_expiresAt b) as [| | | |e]; [| |done| |].
  - destruct (Bubble.b_expires_at b) as [| | | |e']; try done.
    cbn in *. by destruct (Z.ltb_spec 0 e'); [|lia].
  - destruct (Bubble.b_expires_at b) as [| | | |e']; try done.
    cbn in *. by destruct (Z.ltb_spec 0 e'); [|lia].
  - done.
  - cbn in *. by destruct (Z.ltb_spec 0 e); [|lia].
Qed.

Lemma showCountdown_spec (b : Bubble.bubble) (now : Z) :
  0 < Bubble.expiresAtMs b →
  Bubble.remainingMs b now = Bubble.expiresAtMs b - now ∧
  (Bubble.showCountdown b now = true ↔ now < Bubble.expiresAtMs b).
Proof.
  intros Hpos. unfold Bubble.showCountdown, Bubble.remainingMs.
  destruct (Z.eqb_spec (Bubble.expiresAtMs b) 0) as [|_]; [lia|].
  split; [done|]. rewrite andb_true_iff, !Z.ltb_lt. lia.
Qed.


(** ** The typing signal of the chat view *)

Lemma adjacent_snoc {A} (x y z : A) (l : list A) :
  Composer.adjacent x y (l ++ [z]) ↔ Composer.adjacent x y l ∨ (last l = Some x ∧ y = z).
Proof.
  unfold Composer.adjacent. split.
  - intros (l1 & l2 & E). destruct l2 as [|w l2 _] using rev_ind.
    + right. replace (l1 ++ [x; y]) with ((l1 ++ [x]) ++ [y]) in E by by rewrite <- app_assoc.
      apply app_inj_tail in E as [-> ->]. by rewrite last_snoc.
    + left. exists l1, l2.
      replace (l1 ++ x :: y :: l2 ++ [w]) with ((l1 ++ x :: y :: l2) ++ [w]) in E
        by by rewrite <- app_assoc.
      by apply app_inj_tail in E as [-> _].
  - intros [(l1 & l2 & ->)|[Hl ->]].
    + exists l1, (l2 ++ [z]). by rewrite <- app_assoc.
    + destruct l as [|w l _] using rev_ind; [done|].
      rewrite last_snoc in Hl. injection Hl as ->.
      exists l, []. by rewrite <- app_assoc.
Qed.

Lemma adjacent_nil {A} (x y : A) : ¬ Composer.adjacent x y [].
Proof. intros (l1 & l2 & E). by destruct l1. Qed.

Lemma falseAfterTrue_nil : Composer.falseAfterTrue [].
Proof. split; [done|]. intros ????. apply adjacent_nil. Qed.

Lemma falseAfterTrue_true (l : list (Z * bool * Z)) (t c : Z) :
  Composer.falseAfterTrue l → Composer.falseAfterTrue (l ++ [(t, true, c)]).
Proof.
  intros [Hhd Hadj]. split.
  - intros t' c' l' E. destruct l as [|x l]; [done|].
    injection E as -> _. by eapply Hhd.
  - intros t1 c1 t2 c2 [H|[_ [=]]]%adjacent_snoc. by eapply Hadj.
Qed.

Lemma falseAfterTrue_false (l : list (Z * bool * Z)) (t c t0 c0 : Z) :
  last l = Some (t0, true, c0) →
  Composer.falseAfterTrue l → Composer.falseAfterTrue (l ++ [(t, false, c)]).
Proof.
  intros Hl [Hhd Hadj]. split.
  - intros t' c' l' E. destruct l as [|x l]; [done|].
    injection E as -> _. by eapply Hhd.
  - intros t1 c1 t2 c2 [H|[Hl' _]]%adjacent_snoc; [by eapply Hadj|].
    rewrite Hl in Hl'. done.
Qed.




(** What [stopTyping] does when only the timeout of the ref can be live. *)
Lemma stopTyping_spec (now : Z) (p : Composer.props) (s : Composer.composer) :
  (∀ h, Composer.typingIdleTimerRef s = Some h → h ≠ 0) →
  (∀ h t, Composer.timeouts s !! h = Some t → Composer.typingIdleTimerRef s = Some h) →
  let s' := Composer.stopTyping now p s in
  Composer.typingIdleTimerRef s' = None ∧ Composer.timeouts s' = ∅ ∧
  Composer.localTypingRef s' = false ∧
  Composer.nextTimeout s' = Composer.nextTimeout s ∧
  Composer.typingThrottleRef s' = Composer.typingThrottleRef s ∧
  Composer.onTypingCalls s' =
    Composer.onTypingCalls s ++
      (if Composer.localTypingRef s then
         match Composer.selectedChat p with
         | Some c => if Composer.isConnected p then [(now, false, c)] else []
         | None => []
         end
       else []).
Proof.
  intros Hnz Hlive s'. subst s'. unfold Composer.stopTyping.
  set (s1 := match Composer.typingIdleTimerRef s with
             | Some h => if h =? 0 then s
                         else Composer.setIdleRef None (Composer.clearIdle s)
             | None => s
             end).
  assert (H1 : Composer.typingIdleTimerRef s1 = None ∧ Composer.timeouts s1 = ∅ ∧
               Composer.localTypingRef s1 = Composer.localTypingRef s ∧
               Composer.nextTimeout s1 = Composer.nextTimeout s ∧
               Composer.typingThrottleRef s1 = Composer.typingThrottleRef s ∧
               Composer.onTypingCalls s1 = Composer.onTypingCalls s).
  { subst s1. destruct (Composer.typingIdleTimerRef s) as [h|] eqn:Hr.
    - destruct (Z.eqb_spec h 0) as [->|Hh]; [by destruct (Hnz 0)|].
      unfold Composer.clearIdle. rewrite Hr.
      destruct (Z.eqb_spec h 0) as [|_]; [done|]. cbn.
      split_and!; try done. apply map_empty. intros k.
      destruct (decide (k = h)) as [->|Hk]; [apply lookup_delete_eq|].
      rewrite lookup_delete_ne by done.
      destruct (Composer.timeouts s !! k) as [t|] eqn:Hk'; [|done].
      apply Hlive in Hk'. congruence.
    - split_and!; try done. apply map_empty. intros k.
      destruct (Composer.timeouts s !! k) as [t|] eqn:Hk'; [|done].
      apply Hlive in Hk'. congruence. }
  destruct H1 as (Hr1 & Ht1 & Hl1 & Hn1 & Hth1 & Hc1).
  rewrite Hl1. destruct (Composer.localTypingRef s).
  - unfold Composer.sendTypingSafe, Composer.setLocalTyping. cbn.
    destruct (Composer.selectedChat p) as [c|];
      [destruct (Composer.isConnected p)|]; cbn; rewrite ?app_nil_r;
      split_and!; congruence.
  - rewrite app_nil_r. by split_and!.
Qed.

Lemma wf_init : Composer.wf Composer.init.
Proof. by split. Qed.

Lemma wf_stopped (s s' : Composer.composer) :
  0 < Composer.nextTimeout s' →
  Composer.typingIdleTimerRef s' = None → Composer.timeouts s' = ∅ →
  Composer.localTypingRef s' = false → Composer.wf s'.
Proof.
  intros Hn Hr Ht Hl. split.
  - done.
  - intros h t. by rewrite Ht, lookup_empty.
  - intros h. by rewrite Hr.
  - done.
  - by rewrite Hl.
Qed.

Lemma wf_ref_nonzero (s : Composer.composer) (h : Z) :
  Composer.wf s → Composer.typingIdleTimerRef s = Some h → h ≠ 0.
Proof.
  intros W Hr. destruct (Composer.wf_ref s W h Hr) as (_ & due & p & Hp & _).
  destruct (Composer.wf_live s W h _ Hp) as [_ ?]. lia.
Qed.

Lemma wf_stopTyping (now : Z) (p : Composer.props) (s : Composer.composer) :
  Composer.wf s → Composer.wf (Composer.stopTyping now p s).
Proof.
  intros W.
  destruct (stopTyping_spec now p s) as (Hr & Ht & Hl & Hn & _).
  - intros h. by apply wf_ref_nonzero.
  - intros h t Hh. by destruct (Composer.wf_live s W h t Hh).
  - apply (wf_stopped s); [|done..]. rewrite Hn. apply W.
Qed.

(** An input with text in a render that can signal. *)
Lemma handleInputChange_typing (now : Z) (p : Composer.props) (s : Composer.composer)
    (c : Z) :
  Composer.wf s → Composer.isConnected p = true → Composer.selectedChat p = Some c →
  let s' := Composer.handleInputChange now true p s in
  let refresh := negb (Composer.localTypingRef s) ||
                 (2000 <? now - Composer.typingThrottleRef s) in
  Composer.typingIdleTimerRef s' = Some (Composer.nextTimeout s) ∧
  Composer.timeouts s' = {[Composer.nextTimeout s := (now + 1200, p)]} ∧
  Composer.localTypingRef s' = true ∧
  Composer.nextTimeout s' = Composer.nextTimeout s + 1 ∧
  Composer.typingThrottleRef s' =
    (if refresh then now else Composer.typingThrottleRef s) ∧
  Composer.onTypingCalls s' =
    Composer.onTypingCalls s ++ (if refresh then [(now, true, c)] else []).
Proof.
  intros W Hc Hs s' refresh. subst s'. unfold Composer.handleInputChange.
  rewrite Hs, Hc. cbn [negb].
  set (s1 := Composer.startOrRefreshTyping now p s).
  assert (H1 : Composer.typingIdleTimerRef s1 = Composer.typingIdleTimerRef s ∧
               Composer.timeouts s1 = Composer.timeouts s ∧
               Composer.localTypingRef s1 = true ∧
               Composer.nextTimeout s1 = Composer.nextTimeout s ∧
               Composer.typingThrottleRef s1 =
                 (if refresh then now else Composer.typingThrottleRef s) ∧
               Composer.onTypingCalls s1 =
                 Composer.onTypingCalls s ++ (if refresh then [(now, true, c)] else [])).
  { subst s1 refresh. unfold Composer.startOrRefreshTyping.
    destruct (Composer.localTypingRef s) eqn:Hl; cbn [negb orb].
    - destruct (2000 <? now - Composer.typingThrottleRef s).
      + unfold Composer.sendTypingSafe. rewrite Hs, Hc. by cbn.
      + rewrite app_nil_r. by split_and!.
    - unfold Composer.sendTypingSafe. rewrite Hs, Hc. by cbn. }
  destruct H1 as (Hr1 & Ht1 & Hl1 & Hn1 & Hth1 & Hc1).
  assert (H2 : Composer.timeouts (Composer.clearIdle s1) = ∅ ∧
               Composer.localTypingRef (Composer.clearIdle s1) = true ∧
               Composer.nextTimeout (Composer.clearIdle s1) = Composer.nextTimeout s ∧
               Composer.typingThrottleRef (Composer.clearIdle s1) =
                 Composer.typingThrottleRef s1 ∧
               Composer.onTypingCalls (Composer.clearIdle s1) =
                 Composer.onTypingCalls s1).
  { unfold Composer.clearIdle. rewrite Hr1.
    destruct (Composer.typingIdleTimerRef s) as [h|] eqn:Hr.
    - destruct (Z.eqb_spec h 0) as [->|Hh]; [by destruct (wf_ref_nonzero s 0 W Hr)|].
      cbn. split_and!; try done. rewrite Ht1. apply map_empty. intros k.
      destruct (decide (k = h)) as [->|Hk]; [apply lookup_delete_eq|].
      rewrite lookup_delete_ne by done.
      destruct (Composer.timeouts s !! k) as [t|] eqn:Hk'; [|done].
      destruct (Composer.wf_live s W k t Hk'). congruence.
    - split_and!; try done. rewrite Ht1. apply map_empty. intros k.
      destruct (Composer.timeouts s !! k) as [t|] eqn:Hk'; [|done].
      destruct (Composer.wf_live s W k t Hk'). congruence. }
  destruct H2 as (Ht2 & Hl2 & Hn2 & Hth2 & Hc2). cbn.
  rewrite Ht2, Hl2, Hn2, Hth2, Hc2, Hth1, Hc1. by split_and!.
Qed.

Lemma wf_handleInputChange (now : Z) (hasText : bool) (p : Composer.props)
    (s : Composer.composer) :
  Composer.wf s → Composer.wf (Composer.handleInputChange now hasText p s).
Proof.
  intros W. destruct (Composer.selectedChat p) as [c|] eqn:Hs.
  2:{ unfold Composer.handleInputChange. by rewrite Hs. }
  destruct (Composer.isConnected p) eqn:Hc.
  2:{ unfold Composer.handleInputChange. by rewrite Hs, Hc. }
  destruct hasText.
  2:{ unfold Composer.handleInputChange. rewrite Hs, Hc. cbn [negb].
      by apply wf_stopTyping. }
  destruct (handleInputChange_typing now p s c W Hc Hs)
    as (Hr & Ht & Hl & Hn & Hth & Hcalls).
  pose proof (Composer.wf_next s W) as Hpos.
  split.
  - rewrite Hn. lia.
  - intros h t. rewrite Ht, Hr, Hn. intros [<- _]%lookup_singleton_Some. split; [done|lia].
  - intros h. rewrite Hr. intros [= <-]. split; [done|].
    exists (now + 1200), p. rewrite Ht, lookup_singleton_eq. split; [done|].
    split; [split; [done|by rewrite Hs]|]. rewrite Hth.
    destruct (Composer.localTypingRef s); cbn [negb orb]; [|lia].
    destruct (Z.ltb_spec 2000 (now - Composer.typingThrottleRef s)); lia.
  - by rewrite Hr.
  - intros _. rewrite Hcalls, Hth.
    destruct (negb (Composer.localTypingRef s) ||
              (2000 <? now - Composer.typingThrottleRef s)) eqn:Hrf.
    + exists c. by rewrite last_snoc.
    + rewrite app_nil_r. apply (Composer.wf_last s W).
      apply orb_false_iff in Hrf as [Hl' _]. by apply negb_false_iff in Hl'.
Qed.

(** The state in which the callback of the timeout [h] runs. *)
Lemma fireIdle_spec (now h due : Z) (p : Composer.props) (s : Composer.composer) :
  Composer.wf s → Composer.timeouts s !! h = Some (due, p) →
  let s' := Composer.fireIdle now h s in
  Composer.typingIdleTimerRef s' = None ∧ Composer.timeouts s' = ∅ ∧
  Composer.localTypingRef s' = false ∧
  Composer.nextTimeout s' = Composer.nextTimeout s ∧
  ∃ c, Composer.selectedChat p = Some c ∧
       Composer.onTypingCalls s' = Composer.onTypingCalls s ++ [(now, false, c)].
Proof.
  intros W Hh s'. subst s'. unfold Composer.fireIdle. rewrite Hh.
  destruct (Composer.wf_live s W h _ Hh) as [Hr _].
  destruct (Composer.wf_ref s W h Hr) as (Hl & due' & p' & Hh' & [Hc [c Hs]] & _).
  rewrite Hh in Hh'. injection Hh' as <- <-.
  match goal with
  | |- context [Composer.stopTyping now p ?s0] =>
      destruct (stopTyping_spec now p s0) as (Hr1 & Ht1 & Hl1 & Hn1 & _ & Hc1)
  end.
  - cbn. intros h0 Hh0. by apply (wf_ref_nonzero s).
  - cbn. intros h0 t [_ Hh0]%lookup_delete_Some.
    by destruct (Composer.wf_live s W h0 t Hh0).
  - cbn in Hn1, Hc1. rewrite Hl, Hs, Hc in Hc1. split_and!; try done.
    exists c. split; [done|]. rewrite Hl. exact Hc1.
Qed.

Lemma wf_step_composer (s : Composer.composer) (e : Composer.event) :
  Composer.wf s → Composer.wf (Composer.step s e).
Proof.
  intros W. destruct e as [now hasText p|now h|now p|now hasText p]; cbn [Composer.step].
  - by apply wf_handleInputChange.
  - destruct (Composer.timeouts s !! h) as [[due p]|] eqn:Hh.
    + destruct (fireIdle_spec now h due p s W Hh) as (Hr & Ht & Hl & Hn & _).
      apply (wf_stopped s); [|done..]. rewrite Hn. apply W.
    + unfold Composer.fireIdle. by rewrite Hh.
  - by apply wf_stopTyping.
  - unfold Composer.handleSendMessage. destruct (Composer.selectedChat p); [|done].
    destruct hasText; [|done]. destruct (Composer.isConnected p); [|done].
    by apply wf_stopTyping.
Qed.

Lemma wf_run_composer (evs : list Composer.event) (s : Composer.composer) :
  Composer.wf s → Composer.wf (Composer.run evs s).
Proof.
  unfold Composer.run. revert s. induction evs as [|e evs IH]; intros s W; [done|].
  by apply IH, wf_step_composer.
Qed.

Lemma stopTyping_calls (now : Z) (p : Composer.props) (s : Composer.composer) :
  Composer.wf s →
  let s' := Composer.stopTyping now p s in
  (Composer.onTypingCalls s' = Composer.onTypingCalls s ∧
   (Composer.localTypingRef s' = Composer.localTypingRef s ∨ ¬ Composer.online p)) ∨
  (∃ c, Composer.onTypingCalls s' = Composer.onTypingCalls s ++ [(now, false, c)] ∧
        Composer.localTypingRef s = true ∧ Composer.localTypingRef s' = false).
Proof.
  intros W s'.
  destruct (stopTyping_spec now p s) as (_ & _ & Hl & _ & _ & Hc).
  - intros h. by apply wf_ref_nonzero.
  - intros h t Hh. by destruct (Composer.wf_live s W h t Hh).
  - fold s' in Hl, Hc. destruct (Composer.localTypingRef s) eqn:Hls.
    + destruct (Composer.selectedChat p) as [c|] eqn:Hs.
      * destruct (Composer.isConnected p) eqn:Hcn.
        -- right. by exists c.
        -- left. rewrite app_nil_r in Hc. split; [done|]. right.
           intros [? _]. congruence.
      * left. rewrite app_nil_r in Hc. split; [done|]. right.
        intros [_ [? ?]]. congruence.
    + left. rewrite app_nil_r in Hc. split; [done|]. left. congruence.
Qed.

(** What one reaction of the view adds to the calls. *)
Lemma step_calls (s : Composer.composer) (e : Composer.event) :
  Composer.wf s →
  let s' := Composer.step s e in
  (Composer.onTypingCalls s' = Composer.onTypingCalls s ∧
   (Composer.localTypingRef s' = Composer.localTypingRef s ∨
    ∃ now p, e = Composer.ChatChanged now p ∧ ¬ Composer.online p)) ∨
  (∃ t c, Composer.onTypingCalls s' = Composer.onTypingCalls s ++ [(t, false, c)] ∧
          Composer.localTypingRef s = true ∧ Composer.localTypingRef s' = false) ∨
  (∃ c, Composer.onTypingCalls s' =
          Composer.onTypingCalls s ++ [(Composer.timeOf e, true, c)] ∧
        Composer.localTypingRef s' = true ∧
        (Composer.localTypingRef s = true →
         2000 < Composer.timeOf e - Composer.typingThrottleRef s)).
Proof.
  intros W s'. subst s'.
  assert (Hstop : ∀ now p, Composer.online p →
            (Composer.onTypingCalls (Composer.stopTyping now p s) = Composer.onTypingCalls s ∧
             (Composer.localTypingRef (Composer.stopTyping now p s) =
                Composer.localTypingRef s ∨
              ∃ now' p', e = Composer.ChatChanged now' p' ∧ ¬ Composer.online p')) ∨
            (∃ t c, Composer.onTypingCalls (Composer.stopTyping now p s) =
                      Composer.onTypingCalls s ++ [(t, false, c)] ∧
                    Composer.localTypingRef s = true ∧
                    Composer.localTypingRef (Composer.stopTyping now p s) = false) ∨
            (∃ c, Composer.onTypingCalls (Composer.stopTyping now p s) =
                    Composer.onTypingCalls s ++ [(Composer.timeOf e, true, c)] ∧
                  Composer.localTypingRef (Composer.stopTyping now p s) = true ∧
                  (Composer.localTypingRef s = true →
                   2000 < Composer.timeOf e - Composer.typingThrottleRef s))).
  { intros now p Hon. destruct (stopTyping_calls now p s W) as [[Hc [Hl|Hoff]]|(c & Hc)].
    - left. split; [done|by left].
    - done.
    - right. left. by exists now, c. }
  destruct e as [now hasText p|now h|now p|now hasText p]; cbn [Composer.step Composer.timeOf].
  - destruct (Composer.selectedChat p) as [c|] eqn:Hs.
    2:{ left. unfold Composer.handleInputChange. rewrite Hs. split; [done|by left]. }
    destruct (Composer.isConnected p) eqn:Hc.
    2:{ left. unfold Composer.handleInputChange. rewrite Hs, Hc. split; [done|by left]. }
    destruct hasText.
    2:{ unfold Composer.handleInputChange. rewrite Hs, Hc. cbn [negb].
        apply Hstop. split; [done|by rewrite Hs]. }
    destruct (handleInputChange_typing now p s c W Hc Hs)
      as (_ & _ & Hl & _ & _ & Hcalls).
    destruct (negb (Composer.localTypingRef s) ||
              (2000 <? now - Composer.typingThrottleRef s)) eqn:Hrf.
    + right. right. exists c. split; [done|]. split; [done|]. intros Hls.
      rewrite Hls in Hrf. cbn in Hrf. by apply Z.ltb_lt in Hrf.
    + left. rewrite app_nil_r in Hcalls. split; [done|]. left.
      apply orb_false_iff in Hrf as [Hl' _]. apply negb_false_iff in Hl'. congruence.
  - destruct (Composer.timeouts s !! h) as [[due p]|] eqn:Hh.
    + destruct (fireIdle_spec now h due p s W Hh) as (_ & _ & Hl & _ & c & _ & Hc).
      right. left. exists now, c. split; [done|]. split; [|done].
      destruct (Composer.wf_live s W h _ Hh) as [Hr _].
      by destruct (Composer.wf_ref s W h Hr).
    + left. unfold Composer.fireIdle. rewrite Hh. split; [done|by left].
  - destruct (stopTyping_calls now p s W) as [[Hc [Hl|Hoff]]|(c & Hc)].
    + left. split; [done|by left].
    + left. split; [done|]. right. by exists now, p.
    + right. left. by exists now, c.
  - unfold Composer.handleSendMessage.
    destruct (Composer.selectedChat p) as [c|] eqn:Hs; [|left; split; [done|by left]].
    destruct hasText; [|left; split; [done|by left]].
    destruct (Composer.isConnected p) eqn:Hc; [|left; split; [done|by left]].
    apply Hstop. split; [done|by rewrite Hs].
Qed.

Lemma falseAfterTrue_step (s : Composer.composer) (e : Composer.event) :
  Composer.wf s → Composer.falseAfterTrue (Composer.onTypingCalls s) →
  Composer.falseAfterTrue (Composer.onTypingCalls (Composer.step s e)).
Proof.
  intros W F. destruct (step_calls s e W) as [[-> _]|[(t & c & -> & Hl & _)|(c & -> & _)]].
  - done.
  - destruct (Composer.wf_last s W Hl) as [c0 Hlast]. by eapply falseAfterTrue_false.
  - by apply falseAfterTrue_true.
Qed.

Lemma falseAfterTrue_run (evs : list Composer.event) (s : Composer.composer) :
  Composer.wf s → Composer.falseAfterTrue (Composer.onTypingCalls s) →
  Composer.falseAfterTrue (Composer.onTypingCalls (Composer.run evs s)).
Proof.
  unfold Composer.run. revert s. induction evs as [|e evs IH]; intros s W F; [done|].
  apply IH; [by apply wf_step_composer|by apply falseAfterTrue_step].
Qed.



(** ** The older version of the hook *)

Lemma legacy_schedule_fields (now : Z) (m : message) (st : state) :
  let st' := Legacy.scheduleMessageDeletion now m st in
  deletionTimers st' !! msg_id m = Some (nextHandle st) ∧
  pending st' !! nextHandle st =
    Some {| due := now + timerDelay (Z.max (toMs (msg_expiresAt m) - now) 200);
            timer_job := ExpireMessage (msg_chatId m) (msg_id m) |} ∧
  activeMessages st' = activeMessages st.
Proof.
  unfold Legacy.scheduleMessageDeletion.
  pose proof (clearTimer_frame (msg_id m) st) as (Hn & _ & Ha & _).
  remember (clearTimer (msg_id m) st) as st1 eqn:E1. clear E1.
  unfold setTimeout. unfold_setters. simpl. rewrite Hn, Ha.
  by rewrite !lookup_insert_eq.
Qed.

(** * Lemmas of the main results *)

(** ** Sequences and lists that a failed send leaves as they were *)

Lemma filter_id_all (i : Z) (l : list message) :
  filter (λ m, msg_id m ≠ i) l = l ↔ occurrences i l = 0%nat.
Proof.
  rewrite occurrences_zero. split.
  - intros Hf Hex. apply Exists_exists in Hex as (x & Hx & Hid).
    rewrite <- Hf in Hx. by apply list_elem_of_filter in Hx as [Hne _].
  - intros Hno. induction l as [|x l IH]; [done|].
    rewrite filter_cons_True.
    + f_equal. apply IH. intros Hex. apply Hno. by right.
    + intros Hid. apply Hno. by left.
Qed.

Lemma withLastMessage_fixed (p : preview) (ts : datelike) (c : chat) :
  withLastMessage p ts c = c ↔ lastMessage c = Some p ∧ lastMessageTimestamp c = ts.
Proof.
  split.
  - intros H. split.
    + by rewrite <- H.
    + by rewrite <- H.
  - intros [H1 H2]. destruct c. simpl in *. by subst.
Qed.

(** The bump returns the list it was given exactly when the chat is not in
    it, or is its first entry and shows the preview already. *)
Lemma bumpList_fixed (now chatId : Z) (lm : preview) (prev : list chat) :
  bumpList now chatId lm prev = prev ↔
  chatId ∉ map chat_id prev ∨
  ∃ c l, prev = c :: l ∧ chat_id c = chatId ∧
         withLastMessage lm (date_or (pv_createdAt lm) (DAt now)) c = c.
Proof.
  split.
  - intros Hb. destruct (decide (chatId ∈ map chat_id prev)) as [Hin|Hnot]; [|by left].
    right. destruct (first_occurrence chatId prev Hin) as (l1 & c & l2 & -> & Hc & Hfresh).
    rewrite bumpList_present in Hb by done.
    destruct l1 as [|x l1].
    + simpl in Hb. injection Hb as Hb. by exists c, l2.
    + simpl in Hb. injection Hb as Hx _. exfalso. apply Hfresh. simpl.
      rewrite <- Hx. simpl. rewrite Hc. by left.
  - intros [Hnot|(c & l & -> & Hc & Hfix)]; [by apply bumpList_absent|].
    pose proof (bumpList_present now chatId lm [] l c) as Hb.
    simpl in Hb. rewrite Hb; [by rewrite Hfix|apply not_elem_of_nil|done].
Qed.

(** ** The counts that an answer of the server reports *)

Lemma collect_reported (uid : option Z) (l : list chat) (acc : gmap Z Z) (k : Z) :
  foldl (λ acc c, let unread := serverUnreadOf uid c in
                  if 0 <? unread then <[chat_id c := unread]> acc else acc) acc l !! k =
    match reportedUnread uid l k with
    | Some v => Some v
    | None => acc !! k
    end.
Proof.
  revert acc. induction l as [|c l IH]; intros acc; [done|].
  cbn [foldl]. rewrite IH. unfold reportedUnread.
  destruct (decide (chat_id c = k)) as [Hk|Hk].
  - rewrite (filter_cons_True (λ c, chat_id c = k)) by done. rewrite fmap_cons.
    destruct (Z.ltb_spec 0 (serverUnreadOf uid c)) as [Hpos|Hle].
    + rewrite (filter_cons_True (λ v, 0 < v)) by done. rewrite last_cons.
      destruct (last _) as [v|]; [done|]. cbn zeta.
      destruct (Z.ltb_spec 0 (serverUnreadOf uid c)); [|lia].
      by rewrite Hk, lookup_insert_eq.
    + rewrite (filter_cons_False (λ v, 0 < v)) by lia.
      destruct (last _) as [v|]; [done|]. cbn zeta.
      by destruct (Z.ltb_spec 0 (serverUnreadOf uid c)); [lia|].
  - rewrite (filter_cons_False (λ c, chat_id c = k)) by done.
    destruct (last _) as [v|]; [done|]. cbn zeta.
    destruct (0 <? serverUnreadOf uid c); [|done]. by rewrite lookup_insert_ne.
Qed.

Lemma collectServerUnread_reported (uid : option Z) (contacts : list chat) (k : Z) :
  collectServerUnread uid contacts !! k = reportedUnread uid contacts k.
Proof.
  unfold collectServerUnread. rewrite collect_reported, lookup_empty.
  by destruct (reportedUnread uid contacts k).
Qed.

Lemma reportedUnread_positive (uid : option Z) (contacts : list chat) (k v : Z) :
  reportedUnread uid contacts k = Some v → 0 < v.
Proof.
  rewrite <- collectServerUnread_reported. apply collectServerUnread_positive.
Qed.

(** ** The chat list after a chat is opened *)

Lemma selectChat_contacts (now : Z) (ch : chat) (resp : option (list message))
    (st : state) :
  noUser st = false →
  persistentContacts (selectChat now (Some ch) resp st) =
    map (λ c', if decide (chat_id c' = chat_id ch)
               then withUnreadCount (Some 0) c' else c') (persistentContacts st).
Proof.
  intros Hu. unfold selectChat. rewrite Hu.
  match goal with
  | |- context [loadActiveMessages ?n ?k ?r ?s] =>
      destruct (loadActiveMessages_stores n k r s) as (Hc & _)
  end.
  by rewrite Hc.
Qed.

(** ** Presence without presence events *)

Lemma presenceConsistent_setAllOffline (st : state) :
  presenceConsistent (setAllOffline st).
Proof.
  unfold presenceConsistent, setAllOffline, presenceSnapshot. simpl.
  apply Forall_fmap, Forall_true. intros c. simpl. rewrite lookup_empty.
  by destruct (user_id (otherUser c) =? 0).
Qed.

(** An event that is no presence event leaves the presence map as it is,
    or empties it. *)
Lemma presence_step (st : state) (e : event) :
  noPresence e → presence (step st e) = presence st ∨ presence (step st e) = ∅.
Proof.
  intros Hq.
  destruct e as [|sp resp|now c resp|c|ch|now chatId resp|now chatId
                 |clk content type d f up|clk content type d f|ctx up|now data|h|];
    cbn [step].
  - by right.
  - left. unfold fetchContacts. destruct (noUser st); [done|]. by destruct sp, resp.
  - left. unfold selectChat. destruct c as [ch|]; [|done]. destruct (noUser st); [done|].
    match goal with
    | |- context [loadActiveMessages ?n ?k ?r ?s] =>
        destruct (loadActiveMessages_stores n k r s) as (_ & _ & _ & Hp)
    end.
    by rewrite Hp.
  - by left.
  - left. by destruct (noUser st).
  - left. by destruct (loadActiveMessages_stores now chatId resp st) as (_ & _ & _ & Hp).
  - left. unfold deleteChat. by destruct (noUser st).
  - left. unfold sendMessage.
    destruct (sendMessage_start clk content type d f st) as [[ctx st1]|] eqn:E; [|done].
    destruct (sendMessage_finish_stores ctx up st1) as (_ & _ & _ & Hp). rewrite Hp.
    by destruct (sendMessage_start_spec _ _ _ _ _ _ _ _ E)
      as (sc & uid & _ & _ & _ & _ & _ & _ & _ & _ & _ & _ & _ & _ & Hp1 & _).
  - left.
    destruct (sendMessage_start clk content type d f st) as [[ctx st1]|] eqn:E; [|done].
    by destruct (sendMessage_start_spec _ _ _ _ _ _ _ _ E)
      as (sc & uid & _ & _ & _ & _ & _ & _ & _ & _ & _ & _ & _ & _ & Hp1 & _).
  - left. by destruct (sendMessage_finish_stores ctx up st) as (_ & _ & _ & Hp).
  - left. destruct (noUser st); [done|].
    destruct data as [ids|uid online|uid name|c s r ty|m]; try done.
    + simpl. by destruct ((uid =? 0) || bool_decide (name = EmptyString)).
    + simpl. destruct ((c =? 0) || negb (bool_decide (Some r = userId st))); [done|].
      destruct (bool_decide (Some s = userId st)); [done|].
      destruct (typing_event_view now c ty st) as [Hv _].
      unfold storesView in Hv. by injection Hv as _ _ _ Hp _ _ _.
    + destruct (decide (Some (msg_receiverId m) = userId st)) as [Hrecv|Hrecv].
      2:{ by rewrite newMessage_wrong_receiver. }
      destruct (rejectedByCutoff st m) eqn:Hacc.
      { by rewrite newMessage_rejected. }
      by destruct (newMessage_accepted now m st Hrecv Hacc)
        as (_ & _ & _ & _ & _ & _ & _ & _ & Hp').
  - left. pose proof (fire_view h st) as Hv. unfold storesView in Hv.
    by injection Hv as _ _ _ Hp _ _ _.
  - by left.
Qed.

Lemma presence_empty_run (evs : list event) (st : state) :
  Forall noPresence evs → presence st = ∅ → presence (run evs st) = ∅.
Proof.
  unfold run. intros Hq. revert st.
  induction Hq as [|e evs He Hq IH]; intros st Hp; simpl; [done|].
  apply IH. destruct (presence_step st e He) as [H|H]; congruence.
Qed.

Lemma listOffline_run (evs : list event) (st : state) :
  Forall noPresence evs → presence st = ∅ → presenceConsistent st →
  listOffline (run evs st).
Proof.
  intros Hq Hp C. pose proof (presence_empty_run evs st Hq Hp) as Hp'.
  split; [done|]. pose proof (presenceConsistent_run evs st C) as C'.
  unfold presenceConsistent in C'. eapply Forall_impl; [exact C'|].
  intros c Hc. unfold offline. rewrite Hc. apply presenceSnapshot_unknown.
  by rewrite Hp', lookup_empty.
Qed.

Lemma quiet_split (e : event) : noPresence e → opensOffline e → quiet e.
Proof.
  destruct e as [|sp resp|now c resp|c|ch|now chatId resp|now chatId
                 |clk content type d f up|clk content type d f|ctx up|now data|h|];
    done.
Qed.

(** * Main results *)

(** ** C1: Visibility after a load *)

(** C1 does not hold as the specification words it. Chat 3 has the cutoff
    1000. At time 5000 the server returns for it a message created at 2000
    that expired at 3000: [loadActiveMessages] puts it into the visible
    sequence although its expiry is not in the future, and arms a timer for
    it that is due at 5200. *)
Lemma C1_expired_message_is_loaded :
  let st := run [DeleteChat 1000 3] (init_state (Some 1) true) in
  let m := sampleMessage 7 3 (DAt 2000) (DAt 3000) DAbsent in
  let st' := loadActiveMessages 5000 3 (Some [m]) st in
  cutoffIsoOf st 3 = DAt 1000 ∧
  messagesOf st' 3 = [m] ∧
  ¬ (5000 < toMs (msg_expiresAt m)) ∧
  pending st' !! 1 = Some {| due := 5200; timer_job := ExpireMessage 3 7 |}.
Proof.
  intros st m st'. split_and!; [reflexivity|reflexivity| |reflexivity].
  vm_compute. intros H. discriminate H.
Qed.

(** C1, as it holds of the code. On every state the engine reaches, after
    [loadActiveMessages] for a chat at time [now] the visible sequence of
    the chat is the server's list filtered by the cutoff, in the server's
    order: a message is in it if and only if the server returned it and
    either no cutoff is in force for the chat (none stored, or one that does
    not parse to a non-zero time) or its creation time is strictly after the
    cutoff. The expiry is not looked at when loading; instead every message
    that is kept and has a valid expiry has a live registered timer. That
    timer is the one of a kept message with the same id and a valid expiry:
    it is due [max(expiry - now, 200)] ms after the load, the delay taken
    as the runtime takes it (as a signed 32-bit number, a negative one as
    0). So it is never due before the load, and it is due no sooner than 200
    ms after the load when the kept messages with this id expire at most
    2^31 - 1 ms after the load. The sequences of the other chats are
    untouched, and a failed fetch leaves the chat with the empty sequence. *)
Theorem C1_visible_after_load (uid : option Z) (hasSend : bool) (evs : list event)
    (now chatId : Z) (msgs : list message) :
  let st := run evs (init_state uid hasSend) in
  let st' := loadActiveMessages now chatId (Some msgs) st in
  messagesOf st' chatId = filterByCutoff chatId msgs (cutoffIsoOf st chatId) ∧
  (∀ m, m ∈ messagesOf st' chatId ↔
        m ∈ msgs ∧
        (toMs (cutoffIsoOf st chatId) = 0 ∨
         toMs (cutoffIsoOf st chatId) < toMs (msg_createdAt m))) ∧
  (∀ m, m ∈ messagesOf st' chatId → expiryMs m ≠ 0 →
        armedWith (λ d, ∃ m', m' ∈ messagesOf st' chatId ∧ msg_id m' = msg_id m ∧
                              expiryMs m' ≠ 0 ∧
                              d = now + timerDelay (Z.max (expiryMs m' - now) 200))
                  (msg_id m) st' ∧
        armedFrom now (msg_id m) st' ∧
        ((∀ m', m' ∈ messagesOf st' chatId → expiryMs m' ≠ 0 →
                msg_id m' = msg_id m → expiryMs m' - now ≤ 2147483647) →
         armed now (msg_id m) st')) ∧
  (∀ c, c ≠ chatId → activeMessages st' !! c = activeMessages st !! c) ∧
  messagesOf (loadActiveMessages now chatId None st) chatId = [].
Proof.
  intros st st'.
  destruct (loadActiveMessages_wf now chatId msgs st) as (H1 & H2 & H3 & H4).
  { apply timers_wf_run, timers_wf_init. }
  split_and!; [done|done| |done|].
  - intros m Hm Hexp. split_and!.
    + apply H3; [done|done|]. intros m' Hm' Hexp' Hid. by exists m'.
    + apply H3; [done|done|]. intros m' _ _ _.
      by destruct (expiryTimer_due now m') as [Hlo _].
    + intros Hrange. apply H3; [done|done|]. intros m' Hm' Hexp' Hid.
      destruct (expiryTimer_due now m') as [_ Hin]. by apply Hin, Hrange.
  - unfold loadActiveMessages, messagesOf. simpl. by rewrite lookup_insert_eq.
Qed.

(** C1 on a concrete run: with the cutoff 1000 for chat 3 the server returns
    a message created at 900 and one created at 2000. *)
Lemma C1_visible_after_load_witness :
  let stale := sampleMessage 6 3 (DAt 900) (DAt 9000) DAbsent in
  let recent := sampleMessage 7 3 (DAt 2000) (DAt 9000) DAbsent in
  let st := run [DeleteChat 1000 3] (init_state (Some 1) true) in
  let st' := loadActiveMessages 5000 3 (Some [stale; recent]) st in
  recent ∈ messagesOf st' 3 ∧ (stale ∉ messagesOf st' 3) ∧ armed 5000 7 st'.
Proof.
  intros stale recent st st'.
  destruct (C1_visible_after_load (Some 1) true [DeleteChat 1000 3] 5000 3 [stale; recent])
    as (_ & Hiff & Harmed & _).
  fold st in Hiff, Harmed. fold st' in Hiff, Harmed.
  assert (Hrecent : recent ∈ messagesOf st' 3).
  { apply Hiff. split.
    - apply list_elem_of_lookup. exists 1%nat. reflexivity.
    - right. vm_compute. reflexivity. }
  split; [exact Hrecent|]. split.
  - intros Hstale. apply Hiff in Hstale as [_ [H|H]]; vm_compute in H; discriminate H.
  - destruct (Harmed recent Hrecent) as (_ & _ & Hsoon).
    { vm_compute. discriminate. }
    apply Hsoon. intros m' Hm' _ _.
    apply Hiff in Hm' as [Hm' _].
    apply elem_of_cons in Hm' as [-> | Hm'].
    { vm_compute. discriminate. }
    apply list_elem_of_singleton in Hm' as ->. vm_compute. discriminate.
Defined.

(** ** C2: Inbound messages *)

(** C2 does not hold as the specification words it. Chat 3 has the cutoff
    100000. A message for the local user whose [createdAt] is the epoch, a
    creation time before the cutoff, is not rejected: it enters the sequence
    of chat 3. *)
Lemma C2_epoch_message_passes_cutoff :
  let st := run [DeleteChat 100000 3] (init_state (Some 1) true) in
  let m := sampleMessage 7 3 (DAt 0) (DAt 200000) DAbsent in
  cutoffIsoOf st 3 = DAt 100000 ∧
  toMs (msg_createdAt m) ≤ toMs (cutoffIsoOf st 3) ∧
  messagesOf (handleWSData 100500 (NewMessage m) st) 3 = [m] ∧
  handleWSData 100500 (NewMessage m) st ≠ st.
Proof.
  intros st m. split_and!; [reflexivity| |reflexivity|].
  - vm_compute. discriminate.
  - intros H. apply (f_equal nextHandle) in H. vm_compute in H. discriminate.
Qed.

(** C2, as it holds of the code. For an inbound [new_message] event: when
    the receiver of the message is not the local user the state is
    unchanged; when the chat of the message has a cutoff that parses to a
    non-zero time and the creation time of the message parses to a non-zero
    time at or before that cutoff the state is unchanged, and these are the
    only messages that the cutoff rejects (one without a creation time that
    parses passes); when the message is accepted its id occurs in the
    sequence of its chat once if it did not occur before and as often as
    before otherwise, a second delivery leaves that sequence as it is, and
    the unread count of the chat goes up by one exactly when the chat is not
    the open chat, the counts of the other chats staying as they are. *)
Theorem C2_new_message (now now2 : Z) (m : message) (st : state) :
  let st' := handleWSData now (NewMessage m) st in
  let st'' := handleWSData now2 (NewMessage m) st' in
  let c := msg_chatId m in
  (Some (msg_receiverId m) ≠ userId st → st' = st) ∧
  (toMs (cutoffIsoOf st c) ≠ 0 → toMs (msg_createdAt m) ≠ 0 →
   toMs (msg_createdAt m) ≤ toMs (cutoffIsoOf st c) → st' = st) ∧
  (rejectedByCutoff st m = true ↔
   toMs (cutoffIsoOf st c) ≠ 0 ∧ toMs (msg_createdAt m) ≠ 0 ∧
   toMs (msg_createdAt m) ≤ toMs (cutoffIsoOf st c)) ∧
  (Some (msg_receiverId m) = userId st → rejectedByCutoff st m = false →
   occurrences (msg_id m) (messagesOf st' c) =
     Nat.max 1 (occurrences (msg_id m) (messagesOf st c)) ∧
   messagesOf st'' c = messagesOf st' c ∧
   (occurrences (msg_id m) (messagesOf st c) = 0%nat →
    occurrences (msg_id m) (messagesOf st'' c) = 1%nat) ∧
   unreadOf st' c = (if isOpen st c then unreadOf st c else unreadOf st c + 1) ∧
   (∀ c', c' ≠ c → unreadCounts st' !! c' = unreadCounts st !! c')).
Proof.
  intros st' st'' c. split_and!.
  - apply newMessage_wrong_receiver.
  - intros H1 H2 H3. apply newMessage_rejected, rejectedByCutoff_spec. done.
  - apply rejectedByCutoff_spec.
  - intros Hrecv Hacc.
    destruct (newMessage_dedup now now2 m st Hrecv Hacc) as [Hocc Hsame].
    destruct (newMessage_accepted now m st Hrecv Hacc) as (_ & _ & Hu & _).
    fold st' in Hocc, Hsame, Hu. fold st'' in Hsame. fold c in Hocc, Hsame, Hu.
    split_and!.
    + done.
    + done.
    + intros H0. rewrite Hsame, Hocc, H0. done.
    + unfold unreadOf at 1. rewrite Hu. destruct (isOpen st c); [done|].
      by rewrite lookup_insert_eq.
    + intros c' Hne. rewrite Hu. destruct (isOpen st c); [done|].
      by rewrite lookup_insert_ne.
Qed.

(** C2 on a concrete run: with chat 5 open and the cutoff 1000 for chat 3, a
    message for chat 3 created at 2000 is delivered twice. *)
Lemma C2_new_message_witness :
  let st := run [DeleteChat 1000 3; SelectChat 1500 (Some (sampleChat 5 bob None DAbsent (DAt 10) None)) (Some [])]
                (init_state (Some 1) true) in
  let m := sampleMessage 7 3 (DAt 2000) (DAt 9000) DAbsent in
  let stale := sampleMessage 8 3 (DAt 900) (DAt 9000) DAbsent in
  let st' := handleWSData 2100 (NewMessage m) st in
  let st'' := handleWSData 2200 (NewMessage m) st' in
  handleWSData 2100 (NewMessage stale) st = st ∧
  occurrences 7 (messagesOf st'' 3) = 1%nat ∧
  unreadOf st' 3 = unreadOf st 3 + 1.
Proof.
  intros st m stale st' st''.
  destruct (C2_new_message 2100 2200 stale st) as (_ & Hcut & _).
  destruct (C2_new_message 2100 2200 m st) as (_ & _ & _ & Hacc).
  split.
  - apply Hcut; vm_compute; discriminate.
  - destruct (Hacc eq_refl eq_refl) as (_ & _ & Hone & Hunread & _).
    split; [apply Hone; reflexivity|exact Hunread].
Defined.

(** ** C3: A failed upload *)

(** C3 does not hold as the specification words it. A photo is sent to chat
    2 and the upload fails: the chat list is not back in its state from
    before the send. Chat 2 has moved in front of chat 1 and shows the
    preview of the message that was removed. *)
Lemma C3_chat_list_is_not_reverted :
  let st' := sendMessage (atOnce 5000) "" "image" (Some 10) (Some samplePhoto)
               UploadFailed twoChats in
  chat_id <$> persistentContacts twoChats = [1; 2] ∧
  chat_id <$> persistentContacts st' = [2; 1] ∧
  (lastMessage <$> persistentContacts st') !! 0%nat =
    Some (Some {| pv_id := 5000; pv_content := "📷 Photo"; pv_createdAt := DAt 5000 |}) ∧
  persistentContacts st' ≠ persistentContacts twoChats ∧
  messagesOf st' 2 = [] ∧ sent st' = [].
Proof.
  intros st'. split_and!; [reflexivity|reflexivity|reflexivity| |reflexivity|reflexivity].
  intros H. apply (f_equal (fmap chat_id)) in H. vm_compute in H. discriminate.
Qed.

(** C3, as it holds of the code. When [sendMessage] is called with a file
    and the upload fails, the sequence of the chat is what it was before the
    send without every entry that has the temporary id, so the placeholder
    is absent; it is the sequence from before the send exactly when no entry
    had the temporary id then (the id is the clock reading of the send). No
    frame is handed to the socket. The chat list is not restored: it stays
    as [bumpChatToTopAndUpdateLast] left it at the start of the send, which
    is the list from before the send exactly when the chat is not in the
    list, or is its first entry and shows this very preview and timestamp
    already. The failure branch itself, run on any state, removes the
    entries with the temporary id and touches neither the socket nor the
    chat list. *)
Theorem C3_upload_failure (clk : send_clock) (content type : string) (d : option Z)
    (fl : file) (st st1 : state) (ctx : send_ctx) :
  sendMessage_start clk content type d (Some fl) st = Some (ctx, st1) →
  let st' := sendMessage_finish ctx UploadFailed st1 in
  let cid := chat_id (ctx_chat ctx) in
  let pv := {| pv_id := tempId ctx; pv_content := previewContent type content;
               pv_createdAt := DAt (at_created clk) |} in
  sendMessage clk content type d (Some fl) UploadFailed st = st' ∧
  tempId ctx = at_tempId clk ∧
  messagesOf st' cid = filter (λ m, msg_id m ≠ tempId ctx) (messagesOf st cid) ∧
  (messagesOf st' cid = messagesOf st cid ↔
   occurrences (tempId ctx) (messagesOf st cid) = 0%nat) ∧
  (∀ m, m ∈ messagesOf st' cid → msg_id m ≠ tempId ctx) ∧
  sent st' = sent st ∧
  persistentContacts st' = bumpList (at_schedule clk) cid pv (persistentContacts st) ∧
  (persistentContacts st' = persistentContacts st ↔
   cid ∉ map chat_id (persistentContacts st) ∨
   ∃ c l, persistentContacts st = c :: l ∧ chat_id c = cid ∧
          lastMessage c = Some pv ∧ lastMessageTimestamp c = DAt (at_created clk)) ∧
  (∀ s, let s' := sendMessage_finish ctx UploadFailed s in
        (∀ m, m ∈ messagesOf s' cid → msg_id m ≠ tempId ctx) ∧
        sent s' = sent s ∧ persistentContacts s' = persistentContacts s).
Proof.
  intros Hstart st' cid pv.
  destruct (sendMessage_start_spec _ _ _ _ _ _ _ _ Hstart)
    as (sc & uid & Hsc & Hu & Hne & Hso & Hctx & Ha & Hc & _ & Hsent & _).
  assert (Hfin : ∀ s,
    messagesOf (sendMessage_finish ctx UploadFailed s) cid =
      filter (λ m, msg_id m ≠ tempId ctx) (messagesOf s cid)).
  { intros s. subst cid. rewrite Hctx. unfold sendMessage_finish, messagesOf. simpl.
    by rewrite lookup_insert_eq. }
  assert (Hcid : cid = chat_id sc) by (subst cid; by rewrite Hctx).
  assert (Htemp : tempId ctx = at_tempId clk) by (by rewrite Hctx).
  assert (Hseq : messagesOf st' cid =
                 filter (λ m, msg_id m ≠ tempId ctx) (messagesOf st cid)).
  { subst st'. rewrite Hfin. unfold messagesOf at 1. rewrite Ha, Hcid, lookup_insert_eq.
    cbn [default from_option id]. rewrite filter_app, filter_cons_False, filter_nil, app_nil_r; [done|].
    rewrite Htemp. simpl. intros H. by apply H. }
  assert (Hlist : persistentContacts st' =
                  bumpList (at_schedule clk) cid pv (persistentContacts st)).
  { subst st' pv. rewrite Hctx. unfold sendMessage_finish. simpl. rewrite Hc.
    by rewrite Hcid. }
  split_and!.
  - unfold sendMessage. by rewrite Hstart.
  - done.
  - done.
  - rewrite Hseq. apply filter_id_all.
  - intros m. rewrite Hseq. by intros [H _]%list_elem_of_filter.
  - subst st'. rewrite Hctx. unfold sendMessage_finish. simpl. exact Hsent.
  - done.
  - rewrite Hlist, bumpList_fixed. subst pv. cbn [pv_createdAt date_or date_truthy].
    split.
    + intros [Hnot|(c & l & Hl & Hc' & Hfix)]; [by left|]. right. exists c, l.
      apply withLastMessage_fixed in Hfix as [H1 H2]. done.
    + intros [Hnot|(c & l & Hl & Hc' & H1 & H2)]; [by left|]. right. exists c, l.
      split_and!; [done|done|]. by apply withLastMessage_fixed.
  - intros s. split_and!.
    + intros m. rewrite Hfin. by intros [H _]%list_elem_of_filter.
    + rewrite Hctx. done.
    + rewrite Hctx. done.
Qed.

(** C3 on a concrete run: the photo for chat 2 whose upload fails. *)
Lemma C3_upload_failure_witness :
  let st' := sendMessage (atOnce 5000) "" "image" (Some 10) (Some samplePhoto)
               UploadFailed twoChats in
  messagesOf st' 2 = messagesOf twoChats 2 ∧
  sent st' = sent twoChats ∧
  persistentContacts st' ≠ persistentContacts twoChats.
Proof.
  intros st'.
  destruct (sendMessage_start (atOnce 5000) "" "image" (Some 10) (Some samplePhoto) twoChats)
    as [[ctx st1]|] eqn:E; [|vm_compute in E; discriminate E].
  destruct (C3_upload_failure (atOnce 5000) "" "image" (Some 10) samplePhoto twoChats
              st1 ctx E)
    as (Hsend & _ & _ & Hm & _ & Hs & _ & Hl & _).
  assert (Hctx : ctx_chat ctx = sampleChat 2 bob None DAbsent (DAt 1000) None
                 ∧ tempId ctx = 5000).
  { vm_compute in E. injection E as <- _. split; reflexivity. }
  destruct Hctx as [Hchat Htemp]. rewrite Hchat, Htemp in Hm, Hl. simpl in Hm, Hl.
  subst st'. rewrite Hsend. split_and!.
  - apply Hm. reflexivity.
  - exact Hs.
  - intros Heq. apply Hl in Heq as [Hnot|(c & l & Hcl & Hc & Hlast & _)].
    + apply Hnot. vm_compute. right. left.
    + vm_compute in Hcl. injection Hcl as <- _. vm_compute in Hc. discriminate Hc.
Defined.

(** ** C4: Merging the unread counts *)

(** C4 does not hold as the specification words it. The local count of chat
    4 is 0. The server's answer lists chat 4 twice, with the count 5 and
    then with the count 1: the count after the refresh is 1, not the
    maximum 5 of the old count and the count of the first entry. *)
Lemma C4_last_listed_count_wins :
  let st := init_state (Some 1) true in
  let first := sampleChat 4 bob None DAbsent (DAt 20) (Some 5) in
  let second := sampleChat 4 bob None DAbsent (DAt 30) (Some 1) in
  let st' := fetchContacts false (Some [first; second]) st in
  first ∈ [first; second] ∧
  unreadOf st 4 = 0 ∧ serverUnreadOf (userId st) first = 5 ∧
  unreadOf st' 4 = 1 ∧
  unreadOf st' 4 ≠ Z.max (unreadOf st 4) (serverUnreadOf (userId st) first).
Proof.
  intros st first second st'.
  split_and!; [by left|reflexivity|reflexivity|reflexivity|].
  vm_compute. discriminate.
Qed.

(** C4, as it holds of the code. On every state the engine reaches, for a
    user that is logged in, a refresh of the contact list merges the unread
    counts as follows. The count that the answer reports for a chat id is
    the last positive count that it lists for a chat with this id, in the
    local user's participant slot, and 0 when there is none; the new local
    count of every chat id is the maximum of the old local count and the
    reported count. So when the chat ids of the answer are distinct, the new
    count of every chat of the answer is the maximum of its old local count
    and its count in the answer. For a chat id that is not in the answer
    the entry of the counter map is untouched, and no count of any chat
    decreases. Selecting a chat removes its entry from the counter map, so
    its count is 0, and sets to 0 the unread count of every chat summary of
    the list with this id, so the badge of the chat shows 0; the other
    entries of the counter map and the other chat summaries stay as they
    are. *)
Theorem C4_unread_merge (uid : option Z) (hasSend : bool) (evs : list event)
    (showSpinner : bool) (contacts : list chat) :
  let st := run evs (init_state uid hasSend) in
  noUser st = false →
  let st' := fetchContacts showSpinner (Some contacts) st in
  (∀ k, unreadOf st' k =
        Z.max (unreadOf st k) (default 0 (reportedUnread (userId st) contacts k))) ∧
  (NoDup (map chat_id contacts) →
   ∀ c, c ∈ contacts →
        unreadOf st' (chat_id c) =
          Z.max (unreadOf st (chat_id c)) (serverUnreadOf (userId st) c)) ∧
  (∀ k, k ∉ map chat_id contacts → unreadCounts st' !! k = unreadCounts st !! k) ∧
  (∀ k, unreadOf st k ≤ unreadOf st' k) ∧
  (∀ now ch resp,
     let st2 := selectChat now (Some ch) resp st in
     unreadCounts st2 !! chat_id ch = None ∧
     unreadOf st2 (chat_id ch) = 0 ∧
     (∀ k, k ≠ chat_id ch → unreadCounts st2 !! k = unreadCounts st !! k) ∧
     length (persistentContacts st2) = length (persistentContacts st) ∧
     (∀ i c, persistentContacts st !! i = Some c →
        ∃ c2, persistentContacts st2 !! i = Some c2 ∧
              chat_id c2 = chat_id c ∧
              (chat_id c = chat_id ch →
               unreadCount c2 = Some 0 ∧ finalUnreadCount (unreadCounts st2) c2 = 0) ∧
              (chat_id c ≠ chat_id ch → c2 = c))).
Proof.
  intros st Hu st'.
  assert (N : unread_nonneg st) by apply unread_nonneg_run, unread_nonneg_init.
  pose proof (fetchContacts_unread showSpinner contacts st Hu) as Hm. fold st' in Hm.
  split_and!.
  - intros k. unfold unreadOf at 1. rewrite Hm, mergeUnread_lookup.
    rewrite collectServerUnread_reported.
    pose proof (unreadOf_nonneg st k N) as Hge.
    destruct (reportedUnread (userId st) contacts k) as [v|]; simpl.
    + done.
    + fold (unreadOf st k). lia.
  - intros Hnd c Hc. unfold unreadOf at 1. rewrite Hm, mergeUnread_lookup.
    rewrite collectServerUnread_in by done.
    pose proof (unreadOf_nonneg st (chat_id c) N) as Hge.
    destruct (Z.ltb_spec 0 (serverUnreadOf (userId st) c)) as [Hpos|Hle]; simpl.
    + done.
    + fold (unreadOf st (chat_id c)). lia.
  - intros k Hk. rewrite Hm, mergeUnread_lookup.
    by rewrite collectServerUnread_notin.
  - intros k. unfold unreadOf at 2. rewrite Hm, mergeUnread_lookup.
    destruct (collectServerUnread (userId st) contacts !! k) as [cnt|]; simpl.
    + fold (unreadOf st k). lia.
    + fold (unreadOf st k). lia.
  - intros now ch resp st2.
    pose proof (selectChat_unread now ch resp st Hu) as Hcnt. fold st2 in Hcnt.
    pose proof (selectChat_contacts now ch resp st Hu) as Hlist. fold st2 in Hlist.
    assert (Hnone : unreadCounts st2 !! chat_id ch = None).
    { by rewrite Hcnt, lookup_delete_eq. }
    split_and!.
    + done.
    + unfold unreadOf. by rewrite Hnone.
    + intros k Hk. by rewrite Hcnt, lookup_delete_ne.
    + by rewrite Hlist, length_map.
    + intros i c Hi. rewrite Hlist.
      change (map ?g ?l) with (g <$> l). rewrite list_lookup_fmap, Hi. simpl.
      destruct (decide (chat_id c = chat_id ch)) as [Heq|Hne].
      * eexists. split; [done|]. split; [done|]. split; [|done]. intros _.
        split; [done|]. unfold finalUnreadCount, apiUnreadCount, mapUnreadCount.
        cbn [withUnreadCount unreadCount chat_id num_or]. by rewrite Heq, Hnone.
      * exists c. split; [done|]. split; [done|]. split; [done|]. done.
Qed.

(** C4 on a concrete run: the server has listed chat 3 with the count 4,
    and two messages for it arrive while no chat is open, so its local count
    is 6 and its summary in the list carries the 4; then the server lists
    chat 3 with the count 1 and chat 4 with the count 5; in the end chat 3
    is opened. *)
Lemma C4_unread_merge_witness :
  let c3 := sampleChat 3 alice None DAbsent (DAt 10) (Some 4) in
  let evs := [FetchContacts false (Some [c3]);
              Socket 1000 (NewMessage (sampleMessage 7 3 (DAt 900) (DAt 9000) DAbsent));
              Socket 1001 (NewMessage (sampleMessage 8 3 (DAt 950) (DAt 9000) DAbsent))] in
  let st := run evs (init_state (Some 1) true) in
  let c3' := sampleChat 3 alice None DAbsent (DAt 10) (Some 1) in
  let c4 := sampleChat 4 bob None DAbsent (DAt 20) (Some 5) in
  let st' := fetchContacts false (Some [c3'; c4]) st in
  let st2 := selectChat 2000 (Some c3) (Some []) st in
  unreadOf st 3 = 6 ∧ unreadOf st' 3 = 6 ∧ unreadOf st' 4 = 5 ∧
  (unreadCount <$> persistentContacts st) = [Some 4] ∧
  unreadOf st2 3 = 0 ∧
  ∃ c2, persistentContacts st2 !! 0%nat = Some c2 ∧ unreadCount c2 = Some 0 ∧
        finalUnreadCount (unreadCounts st2) c2 = 0.
Proof.
  intros c3 evs st c3' c4 st' st2.
  destruct (C4_unread_merge (Some 1) true evs false [c3'; c4] eq_refl)
    as (_ & Hmax & _ & _ & Hsel).
  assert (Hnd : NoDup (map chat_id [c3'; c4])).
  { simpl. repeat constructor.
    - intros H. apply elem_of_cons in H as [H|H]; [discriminate H|].
      by apply elem_of_nil in H.
    - intros H. by apply elem_of_nil in H. }
  destruct (Hsel 2000 c3 (Some [])) as (_ & Hzero & _ & _ & Hbadge).
  split; [reflexivity|]. split; [|split; [|split; [reflexivity|split]]].
  - apply (Hmax Hnd c3'). by left.
  - apply (Hmax Hnd c4). right. by left.
  - exact Hzero.
  - assert (Hex : ∃ c, persistentContacts st !! 0%nat = Some c ∧ chat_id c = 3).
    { vm_compute. eexists. split; reflexivity. }
    destruct Hex as (c & Hc & Hid).
    destruct (Hbadge 0%nat c Hc) as (c2 & Hc2 & _ & Hz & _).
    exists c2. split; [exact Hc2|]. apply Hz. exact Hid.
Defined.

(** ** C5: The order of the chat list *)

(** C5 does not hold as the specification words it. The last message of chat
    1 is from 100 and its last-activity timestamp is 900; the last message
    of chat 2 is from 500. The most recent timestamp of chat 1 (900) is
    after that of chat 2 (500), but the list that [fetchContacts] stores has
    chat 2 first: it is not in descending order of the most recent of the
    three timestamps. *)
Lemma C5_not_sorted_by_most_recent :
  let c1 := sampleChat 1 alice (Some {| pv_id := 11; pv_content := "a"; pv_createdAt := DAt 100 |})
              (DAt 900) (DAt 50) None in
  let c2 := sampleChat 2 bob (Some {| pv_id := 12; pv_content := "b"; pv_createdAt := DAt 500 |})
              DAbsent (DAt 50) None in
  let l := persistentContacts
             (fetchContacts true (Some [c1; c2]) (init_state (Some 1) true)) in
  chat_id <$> l = [2; 1] ∧ specSortKey <$> l = [500; 900] ∧
  ¬ StronglySorted (newestFirst specSortKey) l.
Proof.
  intros c1 c2 l. split; [reflexivity|]. split; [reflexivity|].
  intros Hs. apply (StronglySorted_fmap specSortKey _ (λ a b : Z, b ≤ a)) in Hs.
  2:{ intros a b Hab. exact Hab. }
  change (specSortKey <$> l) with [500; 900] in Hs.
  inversion Hs as [|a l' _ Hall]; subst. apply Forall_cons in Hall as [Hle _]. lia.
Qed.

(** C5, as it holds of the code. For a user that is logged in and an answer
    in which the sort time of every chat is a date, the chat list after
    [fetchContacts] is the server's list in descending order of a per-chat
    key that is the first one present (not the most recent) of the creation
    time of the chat's last message, its last-activity timestamp and its
    creation timestamp, in this order of preference; chats with equal keys
    keep the server's order. *)
Theorem C5_sorted_by_first_present (showSpinner : bool) (contacts : list chat)
    (st : state) :
  noUser st = false → Forall validKey contacts →
  let l := persistentContacts (fetchContacts showSpinner (Some contacts) st) in
  StronglySorted (newestFirst sortKey) l ∧
  chat_id <$> l ≡ₚ chat_id <$> contacts ∧
  (∀ k, chat_id <$> filter (λ c, sortKey c = k) l =
        chat_id <$> filter (λ c, sortKey c = k) contacts) ∧
  (∀ c, sortKey c =
        toMs (let last := match lastMessage c with
                          | Some p => pv_createdAt p
                          | None => DAbsent
                          end in
              if date_truthy last then last
              else if date_truthy (lastMessageTimestamp c) then lastMessageTimestamp c
              else chat_createdAt c)).
Proof.
  intros Hu Hv l.
  destruct (fetchContacts_sorted showSpinner contacts st Hu Hv) as [Hs Hp].
  split_and!; [done|done| |done].
  intros k. by apply fetchContacts_stable.
Qed.

(** C5 on a concrete run: the two chats of the counterexample. *)
Lemma C5_sorted_by_first_present_witness :
  let c1 := sampleChat 1 alice (Some {| pv_id := 11; pv_content := "a"; pv_createdAt := DAt 100 |})
              (DAt 900) (DAt 50) None in
  let c2 := sampleChat 2 bob (Some {| pv_id := 12; pv_content := "b"; pv_createdAt := DAt 500 |})
              DAbsent (DAt 50) None in
  let l := persistentContacts
             (fetchContacts true (Some [c1; c2]) (init_state (Some 1) true)) in
  StronglySorted (newestFirst sortKey) l ∧ sortKey <$> l = [500; 100].
Proof.
  intros c1 c2 l.
  destruct (C5_sorted_by_first_present true [c1; c2] (init_state (Some 1) true) eq_refl)
    as (Hs & _).
  { repeat constructor; eexists; reflexivity. }
  split; [exact Hs|reflexivity].
Defined.

(** ** C6: Expiry timers *)

(** C6 does not hold as the specification words it. "When a timer fires it
    removes exactly one entry" fails: after an inbound message for chat 3
    and the deletion of chat 3 the timer of the message is live, and when it
    fires the sequence of chat 3 has as many entries as before (none). *)
Lemma C6_fire_may_remove_nothing :
  pending afterDeleteChat !! 1 = Some {| due := 6000; timer_job := ExpireMessage 3 7 |} ∧
  length (messagesOf afterDeleteChat 3) ≠ S (length (messagesOf (fire 1 afterDeleteChat) 3)) ∧
  length (messagesOf (fire 1 afterDeleteChat) 3) = length (messagesOf afterDeleteChat 3).
Proof. vm_compute. split_and!; [reflexivity|discriminate|reflexivity]. Qed.

(** C6, as it holds of the code. On every state the engine reaches: at most
    one live expiry timer names a message id; scheduling a message with a
    valid expiry registers one fresh live timer for its id and cancels the
    timer that was registered for that id, so there is still at most one; a
    timer that fires removes from the sequence of its chat every entry with
    its id (one entry when the id occurs once there, none when the message
    is gone already) and nothing else, is live no more, is forgotten by the
    timer map, leaves no live timer for that id, and cannot fire a second
    time. *)
Theorem C6_expiry_timers (uid : option Z) (hasSend : bool) (evs : list event) :
  let st := run evs (init_state uid hasSend) in
  oneTimerPerMessage st ∧
  (∀ now m, expiryMs m ≠ 0 →
     let st' := scheduleMessageDeletion now m st in
     deletionTimers st' !! msg_id m = Some (nextHandle st) ∧
     pending st' !! nextHandle st = Some (expiryTimer now m) ∧
     (∀ h, deletionTimers st !! msg_id m = Some h → pending st' !! h = None) ∧
     oneTimerPerMessage st') ∧
  (∀ h t c i, pending st !! h = Some t → timer_job t = ExpireMessage c i →
     let st' := fire h st in
     messagesOf st' c = filter (λ m, msg_id m ≠ i) (messagesOf st c) ∧
     (∀ c', c' ≠ c → activeMessages st' !! c' = activeMessages st !! c') ∧
     length (messagesOf st c) =
       (occurrences i (messagesOf st c) + length (messagesOf st' c))%nat ∧
     pending st' !! h = None ∧
     deletionTimers st' !! i = None ∧
     (∀ h' t' c', pending st' !! h' = Some t' → timer_job t' ≠ ExpireMessage c' i) ∧
     fire h st' = st').
Proof. intros st. apply expiry_timers_wf, timers_wf_run, timers_wf_init. Qed.

(** C6 on a concrete run: a message arrived; it is scheduled again, and its
    timer fires. *)
Lemma C6_expiry_timers_witness :
  let m := sampleMessage 7 3 (DAt 900) (DAt 6000) DAbsent in
  let st := run [Socket 1000 (NewMessage m)] (init_state (Some 1) true) in
  (expiryMs m ≠ 0 ∧ pending (scheduleMessageDeletion 2000 m st) !! 1 = None) ∧
  (pending st !! 1 = Some (expiryTimer 1000 m) ∧
   messagesOf (fire 1 st) 3 = filter (λ x, msg_id x ≠ 7) (messagesOf st 3) ∧
   fire 1 (fire 1 st) = fire 1 st).
Proof.
  intros m st.
  destruct (C6_expiry_timers (Some 1) true [Socket 1000 (NewMessage m)])
    as (_ & Hsched & Hfire).
  assert (Hv : expiryMs m ≠ 0) by (vm_compute; discriminate).
  assert (Hl : pending st !! 1 = Some (expiryTimer 1000 m)) by reflexivity.
  split.
  - split; [exact Hv|]. destruct (Hsched 2000 m Hv) as (_ & _ & Hcancel & _).
    apply Hcancel. reflexivity.
  - split; [exact Hl|].
    destruct (Hfire 1 (expiryTimer 1000 m) 3 7 Hl eq_refl) as (Hm & _ & _ & _ & _ & _ & Hf).
    split; [exact Hm|exact Hf].
Defined.

(** ** C7: Presence after a disconnect *)

(** C7 does not hold as the specification words it. The transport
    disconnects, so everybody reads offline. Then a chat is opened with a
    chat object whose other participant reads online (the object of a chat
    that was just created, as the server answered it): [selectChat] stores
    the object as it is, so the open chat reads online although the
    presence map is empty and no presence event has arrived. *)
Lemma C7_opened_chat_reads_online :
  let st := step bothOnline Disconnected in
  let created := sampleChat 5 alice None DAbsent (DAt 3000) None in
  let st' := run [SelectChat 4000 (Some created) (Some [])] st in
  allOffline st ∧
  noPresence (SelectChat 4000 (Some created) (Some [])) ∧
  presence st' = ∅ ∧
  (isOnline <$> (otherUser <$> selectedChat st')) = Some true.
Proof.
  intros st created st'. split_and!; [|done|reflexivity|reflexivity].
  apply allOffline_setAllOffline.
Qed.

(** C7, as it holds of the code. When the transport reports disconnected
    the presence map is empty and the other participant of every chat
    summary and of the open chat reads offline. Through every sequence of
    reactions that contains no presence event ([online_users],
    [user_status]), refreshes of the contact list included, the presence map
    stays empty, every chat summary of the list reads offline and the
    presence of every user id reads offline. The open chat reads what the
    chat object read that [selectChat] was given: it stays offline as well
    when every chat that is opened in the meantime reads offline. A presence
    event for a user makes that user read as the event says. The presence of
    a user id that the map does not know reads offline. *)
Theorem C7_presence_reset (st : state) :
  let st' := step st Disconnected in
  (presence st' = ∅ ∧
   Forall (λ c, isOnline (otherUser c) = false) (persistentContacts st') ∧
   (∀ c, selectedChat st' = Some c → isOnline (otherUser c) = false)) ∧
  (∀ uid, presenceSnapshot st' uid = false) ∧
  (∀ evs, Forall noPresence evs →
     presence (run evs st') = ∅ ∧
     Forall (λ c, isOnline (otherUser c) = false) (persistentContacts (run evs st')) ∧
     (∀ uid, presenceSnapshot (run evs st') uid = false) ∧
     (Forall opensOffline evs →
      ∀ c, selectedChat (run evs st') = Some c → isOnline (otherUser c) = false)) ∧
  (∀ now ch resp s, selectedChat (selectChat now (Some ch) resp s) = Some ch) ∧
  (∀ s uid, presence s !! uid = None → presenceSnapshot s uid = false) ∧
  (∀ s uid online, uid ≠ 0 → presenceSnapshot (applyPresence uid online s) uid = online).
Proof.
  intros st'. pose proof (allOffline_setAllOffline st) as Hoff.
  split; [exact Hoff|]. split_and!.
  - intros uid. apply presenceSnapshot_unknown.
    exact (eq_trans (f_equal (λ p : gmap Z bool, p !! uid) (proj1 Hoff)) (lookup_empty uid)).
  - intros evs Hq.
    destruct (listOffline_run evs st' Hq (proj1 Hoff) (presenceConsistent_setAllOffline st))
      as [Hp Hl].
    split_and!.
    + done.
    + done.
    + intros uid. apply presenceSnapshot_unknown. by rewrite Hp, lookup_empty.
    + intros Ho.
      assert (Hquiet : Forall quiet evs).
      { apply Forall_forall. intros e He. apply quiet_split.
        - by apply (proj1 (Forall_forall _ _) Hq).
        - by apply (proj1 (Forall_forall _ _) Ho). }
      by destruct (allOffline_run evs st' Hquiet Hoff) as (_ & _ & Hs).
  - intros now ch resp s. unfold selectChat.
    destruct (noUser s); [done|].
    match goal with
    | |- context [loadActiveMessages ?n ?k ?r ?s0] =>
        destruct (loadActiveMessages_stores n k r s0) as (_ & Hsel & _)
    end.
    by rewrite Hsel.
  - apply presenceSnapshot_unknown.
  - intros s uid online. apply presenceSnapshot_applied.
Qed.

(** C7 on a concrete run: the transport disconnects, then the contact list
    is refreshed with an answer that lists alice as online. *)
Lemma C7_presence_reset_witness :
  let evs := [FetchContacts false
                (Some [sampleChat 1 alice None DAbsent (DAt 2000) None])] in
  let st' := run evs (step bothOnline Disconnected) in
  isOnline <$> (otherUser <$> persistentContacts bothOnline) = [true; true] ∧
  presence st' = ∅ ∧
  Forall (λ c, isOnline (otherUser c) = false) (persistentContacts st') ∧
  presenceSnapshot st' 2 = false ∧
  (isOnline <$> (otherUser <$> selectedChat st')) = Some false.
Proof.
  intros evs st'.
  destruct (C7_presence_reset bothOnline) as (_ & _ & Hstay & _).
  assert (Hq : Forall noPresence evs) by (repeat constructor).
  assert (Ho : Forall opensOffline evs) by (repeat constructor).
  destruct (Hstay evs Hq) as (Hp & Hl & Hsnap & Hsel).
  split; [reflexivity|]. split; [exact Hp|]. split; [exact Hl|].
  split; [exact (Hsnap 2)|].
  assert (Hopen : ∃ c, selectedChat st' = Some c) by (vm_compute; eexists; reflexivity).
  destruct Hopen as [c Hc]. rewrite Hc. simpl. f_equal. exact (Hsel Ho c Hc).
Defined.

(** ** C8: The floor of the expiry *)




(** ** C9: Messages without an expiry *)

(** C9 does not hold as the specification words it. A message whose
    [expiresAt] is absent and whose [expires_at] holds a date gets a timer:
    scheduling it changes the state and registers handle 1 for it. *)
Lemma C9_expires_at_fallback_arms_timer :
  let m := sampleMessage 7 3 (DAt 900) DAbsent (DAt 6000) in
  let st := init_state (Some 1) true in
  msg_expiresAt m = DAbsent ∧
  scheduleMessageDeletion 1000 m st ≠ st ∧
  deletionTimers (scheduleMessageDeletion 1000 m st) !! 7 = Some 1 ∧
  pending (scheduleMessageDeletion 1000 m st) !! 1 =
    Some {| due := 6000; timer_job := ExpireMessage 3 7 |}.
Proof.
  intros m st. split_and!; [reflexivity| |reflexivity|reflexivity].
  intros H. apply (f_equal nextHandle) in H. vm_compute in H. discriminate.
Qed.

(** C9, as it holds of the code. The expiry that is scheduled is
    [expiresAt], or [expires_at] when [expiresAt] is absent. When that value
    does not parse to a non-zero timestamp (that is: [expiresAt] does not,
    and [expires_at] does not either in case [expiresAt] is absent),
    [scheduleMessageDeletion] returns the state it was given: no timer, and
    the timer map and every store unchanged. Such a message, when no live
    timer names its chat and id already, stays in the sequence of its chat
    however many timers fire afterwards. *)
Theorem C9_no_expiry_no_timer (now : Z) (m : message) (st : state) :
  expiryMs m = 0 →
  (toMs (msg_expiresAt m) = 0 ∧
   (date_truthy (msg_expiresAt m) = false → toMs (msg_expires_at m) = 0)) ∧
  scheduleMessageDeletion now m st = st ∧
  ∀ (c : Z) (hs : list Z),
    (∀ h t, pending st !! h = Some t → timer_job t ≠ ExpireMessage c (msg_id m)) →
    m ∈ messagesOf st c →
    m ∈ messagesOf (run (TimerFires <$> hs) (scheduleMessageDeletion now m st)) c.
Proof.
  intros H0. split; [|split].
  - by apply expiryMs_zero_iff.
  - by apply schedule_invalid.
  - intros c hs Hother Hin. rewrite schedule_invalid by done.
    rewrite run_timer_fires. by apply fires_keep_message.
Qed.

(** C9 on a concrete run: of two messages in chat 3 the first has an expiry
    and the second has none; the timer of the first fires. *)
Lemma C9_no_expiry_no_timer_witness :
  let m1 := sampleMessage 7 3 (DAt 900) (DAt 6000) DAbsent in
  let m2 := sampleMessage 8 3 (DAt 950) DInvalid (DAt 6000) in
  let st := run [Socket 1000 (NewMessage m1); Socket 1001 (NewMessage m2)]
                (init_state (Some 1) true) in
  expiryMs m2 = 0 ∧
  scheduleMessageDeletion 1002 m2 st = st ∧
  m2 ∈ messagesOf (run (TimerFires <$> [1; 2]) (scheduleMessageDeletion 1002 m2 st)) 3.
Proof.
  intros m1 m2 st.
  assert (H0 : expiryMs m2 = 0) by reflexivity.
  destruct (C9_no_expiry_no_timer 1002 m2 st H0) as (_ & Hsame & Hstay).
  split; [exact H0|]. split; [exact Hsame|].
  apply Hstay.
  - intros h t Hl Hj.
    destruct (decide (h = 1)) as [->|Hne].
    + vm_compute in Hl. injection Hl as <-. discriminate Hj.
    + assert (pending st !! h = None) as Hnone.
      { change (pending st) with ({[1 := expiryTimer 1000 m1]} : gmap Z timer).
        by apply lookup_singleton_ne. }
      rewrite Hnone in Hl. discriminate Hl.
  - apply list_elem_of_lookup. exists 1%nat. reflexivity.
Defined.

(** ** C10: The frame of the chat list bump *)

(** C10. [bumpChatToTopAndUpdateLast] with a chat id that does not occur in
    the chat list leaves the whole state as it is, so no chat entry is
    created. With a chat id that occurs, the first chat [c] with that id is
    replaced by a copy that differs in [lastMessage] and
    [lastMessageTimestamp] only and moves to the front; the other chats
    [l1 ++ l2] are the same records in the same relative order, and nothing
    but the chat list changes. *)
Theorem C10_bump_frame (now chatId : Z) (lm : preview) (st : state) :
  (chatId ∉ map chat_id (persistentContacts st) →
     bumpChatToTopAndUpdateLast now chatId lm st = st) ∧
  (chatId ∈ map chat_id (persistentContacts st) →
     ∃ l1 c l2,
       persistentContacts st = l1 ++ c :: l2 ∧ chat_id c = chatId ∧
       chatId ∉ map chat_id l1) ∧
  (∀ l1 c l2,
     persistentContacts st = l1 ++ c :: l2 → chat_id c = chatId →
     chatId ∉ map chat_id l1 →
     let updated := withLastMessage lm (date_or (pv_createdAt lm) (DAt now)) c in
     bumpChatToTopAndUpdateLast now chatId lm st =
       setPersistentContacts (λ _, updated :: l1 ++ l2) st ∧
     chat_id updated = chat_id c ∧ otherUser updated = otherUser c ∧
     participant1Id updated = participant1Id c ∧
     participant2Id updated = participant2Id c ∧
     chat_createdAt updated = chat_createdAt c ∧
     unreadCount updated = unreadCount c ∧
     unreadCount1 updated = unreadCount1 c ∧ unreadCount2 updated = unreadCount2 c ∧
     length (persistentContacts (bumpChatToTopAndUpdateLast now chatId lm st)) =
       length (persistentContacts st)).
Proof.
  split_and!.
  - intros Hnot. apply setPersistentContacts_same. by apply bumpList_absent.
  - apply first_occurrence.
  - intros l1 c l2 Hsplit Hc Hnot updated.
    assert (Hb : bumpList now chatId lm (persistentContacts st) = updated :: l1 ++ l2).
    { rewrite Hsplit. by apply bumpList_present. }
    split_and!; try reflexivity.
    + unfold bumpChatToTopAndUpdateLast. destruct st; unfold_setters; simpl in *.
      by rewrite Hb.
    + unfold bumpChatToTopAndUpdateLast. unfold_setters; simpl. rewrite Hb, Hsplit.
      simpl. rewrite !length_app. simpl. lia.
Qed.

(** C10 on a concrete run: in the list of chats 1 and 2, chat 2 is bumped
    and chat 9 is not there. *)
Lemma C10_bump_frame_witness :
  let p := {| pv_id := 7; pv_content := "hi"; pv_createdAt := DAt 4000 |} in
  bumpChatToTopAndUpdateLast 4000 9 p twoChats = twoChats ∧
  chat_id <$> persistentContacts (bumpChatToTopAndUpdateLast 4000 2 p twoChats) = [2; 1] ∧
  (persistentContacts (bumpChatToTopAndUpdateLast 4000 2 p twoChats)) !! 1%nat =
    persistentContacts twoChats !! 0%nat.
Proof.
  intros p.
  destruct (C10_bump_frame 4000 9 p twoChats) as (Habsent & _ & _).
  destruct (C10_bump_frame 4000 2 p twoChats) as (_ & _ & Hpresent).
  split.
  - apply Habsent. vm_compute. intros H.
    repeat (apply elem_of_cons in H as [H|H]; [discriminate H|]).
    by apply elem_of_nil in H.
  - destruct (persistentContacts twoChats) as [|c1 [|c2 [|]]] eqn:E;
      try (vm_compute in E; discriminate E).
    assert (Hc2 : chat_id c2 = 2 ∧ chat_id c1 = 1).
    { vm_compute in E. injection E as <- <-. split; reflexivity. }
    destruct Hc2 as [Hc2 Hc1].
    destruct (Hpresent [c1] c2 [] eq_refl Hc2) as (Hb & _).
    { simpl. rewrite Hc1. intros H.
      repeat (apply elem_of_cons in H as [H|H]; [discriminate H|]).
      by apply elem_of_nil in H. }
    rewrite Hb. simpl. rewrite Hc2, Hc1. split; reflexivity.
Defined.

(** * Further properties of the engine *)

(** ** Deleting a chat *)

(** X1. After a logged-in user deletes a chat at a time [now] other than
    the epoch, and whatever the engine does next short of deleting that chat
    again, the cutoff of the chat is [now], and every later load of the chat
    shows exactly the messages of the server's answer that were created
    strictly after [now]: what was deleted does not come back. *)
Theorem X1_deleted_chat_stays_hidden (now c : Z) (st : state) (evs : list event)
    (now' : Z) (msgs : list message) :
  noUser st = false → now ≠ 0 → Forall (keepsCutoff c) evs →
  let st1 := run evs (deleteChat now c st) in
  cutoffIsoOf st1 c = DAt now ∧
  (∀ m, m ∈ messagesOf (loadActiveMessages now' c (Some msgs) st1) c ↔
        m ∈ msgs ∧ now < toMs (msg_createdAt m)) ∧
  (Forall (λ m, toMs (msg_createdAt m) ≤ now) msgs →
   messagesOf (loadActiveMessages now' c (Some msgs) st1) c = []).
Proof.
  intros Hu Hnow Hk st1. split_and!.
  - by apply cutoff_after_delete.
  - intros m. by apply reload_after_delete.
  - intros Hold.
    destruct (messagesOf (loadActiveMessages now' c (Some msgs) st1) c) as [|m l] eqn:E;
      [done|].
    assert (Hin : m ∈ messagesOf (loadActiveMessages now' c (Some msgs) st1) c).
    { rewrite E. by left. }
    apply reload_after_delete in Hin as [Hin Hlt]; [|done..].
    rewrite Forall_forall in Hold. apply Hold in Hin. lia.
Qed.

(** X1 on a concrete run: chat 3 is deleted at 100, a contact refresh
    follows, and the server still returns a message from 90 and one from
    110. *)
Lemma X1_deleted_chat_stays_hidden_witness :
  let m90 := sampleMessage 6 3 (DAt 90) (DAt 9000) DAbsent in
  let m110 := sampleMessage 7 3 (DAt 110) (DAt 9000) DAbsent in
  let st1 := run [FetchContacts false (Some [])]
                 (deleteChat 100 3 (init_state (Some 1) true)) in
  messagesOf (loadActiveMessages 200 3 (Some [m90; m110]) st1) 3 = [m110] ∧
  m110 ∈ messagesOf (loadActiveMessages 200 3 (Some [m90; m110]) st1) 3.
Proof.
  intros m90 m110 st1.
  destruct (X1_deleted_chat_stays_hidden 100 3 (init_state (Some 1) true)
              [FetchContacts false (Some [])] 200 [m90; m110])
    as (_ & Hiff & _).
  - reflexivity.
  - discriminate.
  - repeat constructor.
  - split; [reflexivity|]. apply Hiff. split.
    + right. by left.
    + vm_compute. reflexivity.
Defined.

(** X2. After a logged-in user deletes a chat at [now], and whatever the
    engine does next short of deleting that chat again, an inbound message
    for the user in that chat whose creation time is a non-zero time at or
    before [now] changes nothing, and one created after [now] is taken: an
    entry with its id is in the sequence of the chat afterwards, and the
    message itself is the last entry when its id was not there before. *)
Theorem X2_inbound_after_delete (now c : Z) (st : state) (evs : list event)
    (now' : Z) (m : message) :
  noUser st = false → Forall (keepsCutoff c) evs →
  msg_chatId m = c → Some (msg_receiverId m) = userId st →
  let st1 := run evs (deleteChat now c st) in
  let st2 := handleWSData now' (NewMessage m) st1 in
  (now ≠ 0 → toMs (msg_createdAt m) ≠ 0 → toMs (msg_createdAt m) ≤ now → st2 = st1) ∧
  (now < toMs (msg_createdAt m) →
   Exists (λ x, msg_id x = msg_id m) (messagesOf st2 c) ∧
   (¬ Exists (λ x, msg_id x = msg_id m) (messagesOf st1 c) →
    last (messagesOf st2 c) = Some m)).
Proof.
  intros Hu Hk Hc Hrecv st1 st2.
  assert (Hcut : cutoffIsoOf st1 (msg_chatId m) = DAt now).
  { rewrite Hc. by apply cutoff_after_delete. }
  assert (Hrecv1 : Some (msg_receiverId m) = userId st1).
  { subst st1. by rewrite run_userId, deleteChat_userId. }
  split.
  - intros Hnow H0 Hle. apply newMessage_rejected, rejectedByCutoff_spec.
    rewrite Hcut. unfold toMs at 1 3. simpl. done.
  - intros Hlt.
    assert (Hacc : rejectedByCutoff st1 m = false).
    { destruct (rejectedByCutoff st1 m) eqn:E; [|done].
      apply rejectedByCutoff_spec in E as (_ & _ & Hle). rewrite Hcut in Hle.
      unfold toMs at 2 in Hle. simpl in Hle. lia. }
    destruct (newMessage_accepted now' m st1 Hrecv1 Hacc) as (Hm & _).
    fold st2 in Hm. rewrite Hc in Hm. rewrite Hm. case_bool_decide as Hex.
    + split; [done|]. by intros Hnot.
    + split.
      * apply Exists_app. right. by constructor.
      * intros _. apply last_snoc.
Qed.

(** X2 on a concrete run: chat 3 is deleted at 100; a message from 90 and
    one from 110 arrive. *)
Lemma X2_inbound_after_delete_witness :
  let m90 := sampleMessage 6 3 (DAt 90) (DAt 9000) DAbsent in
  let m110 := sampleMessage 7 3 (DAt 110) (DAt 9000) DAbsent in
  let st1 := deleteChat 100 3 (init_state (Some 1) true) in
  handleWSData 120 (NewMessage m90) st1 = st1 ∧
  last (messagesOf (handleWSData 120 (NewMessage m110) st1) 3) = Some m110.
Proof.
  intros m90 m110 st1.
  destruct (X2_inbound_after_delete 100 3 (init_state (Some 1) true) [] 120 m90
              eq_refl (Forall_nil_2 _) eq_refl eq_refl) as (Hrej & _).
  destruct (X2_inbound_after_delete 100 3 (init_state (Some 1) true) [] 120 m110
              eq_refl (Forall_nil_2 _) eq_refl eq_refl) as (_ & Hacc).
  split.
  - apply Hrej; vm_compute; discriminate.
  - destruct Hacc as [_ Hlast]; [reflexivity|]. apply Hlast.
    intros Hex. vm_compute in Hex. by apply Exists_nil in Hex.
Defined.

(** X3. Deleting a chat a second time, at a time that is not before the
    first, never brings a message back: whatever a load of the chat shows
    after the second deletion, the same load would have shown after the
    first one alone, and the cutoff is then the time of the second
    deletion. *)
Theorem X3_second_delete_hides_more (now1 now2 c : Z) (st : state)
    (evs1 evs2 : list event) (now' : Z) (msgs : list message) :
  noUser st = false → 0 < now1 → now1 ≤ now2 →
  Forall (keepsCutoff c) evs1 → Forall (keepsCutoff c) evs2 →
  let st1 := run evs1 (deleteChat now1 c st) in
  let st2 := run evs2 (deleteChat now2 c st1) in
  cutoffIsoOf st2 c = DAt now2 ∧
  ∀ m, m ∈ messagesOf (loadActiveMessages now' c (Some msgs) st2) c →
       m ∈ messagesOf (loadActiveMessages now' c (Some msgs) st1) c.
Proof.
  intros Hu H1 H12 Hk1 Hk2 st1 st2.
  assert (Hu1 : noUser st1 = false).
  { subst st1. rewrite run_noUser. unfold noUser. by rewrite deleteChat_userId. }
  split.
  - by apply cutoff_after_delete.
  - intros m Hin. apply reload_after_delete in Hin as [Hin Hlt]; [|done|lia|done].
    apply reload_after_delete; [done|lia|done|]. split; [done|lia].
Qed.

(** X3 on a concrete run: chat 3 is deleted at 100 and again at 200; the
    server returns messages from 150 and 250. *)
Lemma X3_second_delete_hides_more_witness :
  let m150 := sampleMessage 6 3 (DAt 150) (DAt 9000) DAbsent in
  let m250 := sampleMessage 7 3 (DAt 250) (DAt 9000) DAbsent in
  let st1 := run [] (deleteChat 100 3 (init_state (Some 1) true)) in
  let st2 := run [] (deleteChat 200 3 st1) in
  cutoffIsoOf st2 3 = DAt 200 ∧
  ∀ m, m ∈ messagesOf (loadActiveMessages 300 3 (Some [m150; m250]) st2) 3 →
       m ∈ messagesOf (loadActiveMessages 300 3 (Some [m150; m250]) st1) 3.
Proof.
  intros m150 m250.
  apply (X3_second_delete_hides_more 100 200 3 (init_state (Some 1) true) [] []
           300 [m150; m250]).
  - reflexivity.
  - lia.
  - lia.
  - constructor.
  - constructor.
Defined.

(** X4. For a logged-in user [deleteChat] takes the chat out of the chat
    list (the other chats keep their order), empties its message sequence
    and its unread count, and closes it when it was the open chat, so that
    the view is handed no messages and no typing indicator; when another
    chat is open the view is handed the same messages and indicator as
    before. The messages, unread counts and cutoffs of the other chats, the
    timers, the presence map and the socket are not touched. Without a user
    [deleteChat] does nothing. *)
Theorem X4_deleteChat_effect (now c : Z) (st : state) :
  let st' := deleteChat now c st in
  (noUser st = true → st' = st) ∧
  (noUser st = false →
   persistentContacts st' = filter (λ x, chat_id x ≠ c) (persistentContacts st) ∧
   messagesOf st' c = [] ∧ unreadOf st' c = 0 ∧
   (isOpen st c = true →
    selectedChat st' = None ∧ messages st' = [] ∧ isOtherTyping st' = false) ∧
   (isOpen st c = false →
    selectedChat st' = selectedChat st ∧ messages st' = messages st ∧
    isOtherTyping st' = isOtherTyping st) ∧
   (∀ c', c' ≠ c →
      messagesOf st' c' = messagesOf st c' ∧ unreadOf st' c' = unreadOf st c' ∧
      cutoffIsoOf st' c' = cutoffIsoOf st c') ∧
   timerView st' = timerView st ∧ presence st' = presence st ∧ sent st' = sent st).
Proof.
  intros st'. subst st'. unfold deleteChat. split.
  - by intros ->.
  - intros ->. unfold messagesOf, unreadOf, cutoffIsoOf, messages, isOtherTyping, isOpen.
    unfold messagesOf. simpl. split_and!; try done.
    + by rewrite lookup_delete_eq.
    + by rewrite lookup_delete_eq.
    + destruct (selectedChat st) as [sc|]; [|done]. intros Ho.
      apply bool_decide_eq_true in Ho. by rewrite decide_True.
    + destruct (selectedChat st) as [sc|]; [|done]. intros Ho.
      apply bool_decide_eq_false in Ho. rewrite decide_False by done.
      split_and!; [done| |done]. by rewrite lookup_delete_ne.
    + intros c' Hne. by rewrite !lookup_delete_ne, lookup_insert_ne.
Qed.

(** X4 on a concrete run: chat 2 is open and holds a message; chat 2 is
    deleted, or chat 1 is. *)
Lemma X4_deleteChat_effect_witness :
  let st := run [Socket 3500 (NewMessage (sampleMessage 7 2 (DAt 3400) (DAt 9000) DAbsent))]
                twoChats in
  length (messages st) = 1%nat ∧
  messages (deleteChat 4000 2 st) = [] ∧
  chat_id <$> persistentContacts (deleteChat 4000 2 st) = [1] ∧
  messages (deleteChat 4000 1 st) = messages st.
Proof.
  intros st.
  destruct (X4_deleteChat_effect 4000 2 st) as (_ & Hdel2).
  destruct (X4_deleteChat_effect 4000 1 st) as (_ & Hdel1).
  destruct (Hdel2 eq_refl) as (Hlist & _ & _ & Hopen & _).
  destruct (Hdel1 eq_refl) as (_ & _ & _ & _ & Hother & _).
  split; [reflexivity|]. split; [exact (proj1 (proj2 (Hopen eq_refl)))|].
  split; [by rewrite Hlist|exact (proj1 (proj2 (Hother eq_refl)))].
Defined.

(** ** The typing indicator *)

(** X5. On every state the engine reaches, a typing event that says
    "typing", is addressed to the local user and does not come from the
    local user sets the flag of its chat and arms one idle timer for the
    chat, due 3000 ms later, under a fresh handle that the hook registers;
    an idle timer that was registered for the chat before is cancelled, so
    that at most one is live per chat. When the new timer fires the flag and
    the registration are gone, no message is touched, and the timer cannot
    fire again. *)
Theorem X5_typing_indicator_expires (uid : option Z) (hasSend : bool)
    (evs : list event) (now c s r : Z) :
  let st := run evs (init_state uid hasSend) in
  c ≠ 0 → Some r = userId st → Some s ≠ userId st →
  let st' := handleWSData now (TypingEvent c s r true) st in
  let h := nextHandle st in
  typingByChat st' !! c = Some true ∧
  typingTimeouts st' !! c = Some h ∧
  pending st' !! h = Some (typingTimer now c) ∧
  (∀ h0, typingTimeouts st !! c = Some h0 → pending st' !! h0 = None) ∧
  oneTimerPerChat st' ∧
  typingByChat (fire h st') !! c = None ∧
  typingTimeouts (fire h st') !! c = None ∧
  pending (fire h st') !! h = None ∧
  activeMessages (fire h st') = activeMessages st ∧
  fire h (fire h st') = fire h st'.
Proof.
  intros st Hc Hr Hs st' h.
  assert (W : timers_wf st) by apply timers_wf_run, timers_wf_init.
  assert (W' : timers_wf st').
  { apply timers_wf_handleWSData, W. }
  assert (Hst' : st' = handleWSData now (TypingEvent c s r true) st) by done.
  rewrite typing_accepted in Hst' by done.
  destruct (typing_on_fields now c st) as (Hb & Ht & Hp & Hn).
  cbv zeta in Hb, Ht, Hp, Hn, Hst'. rewrite <- Hst' in Hb, Ht, Hp, Hn.
  assert (Hlive : pending st' !! h = Some (typingTimer now c)).
  { rewrite Hp. apply lookup_insert_eq. }
  destruct (fire_typing_fields h st' _ c Hlive eq_refl) as (Hfb & Hft & Hfa & _).
  pose proof (fire_typing_pending h st' _ c W' Hlive eq_refl) as Hfp.
  assert (Hgone : pending (fire h st') !! h = None).
  { rewrite Hfp. apply lookup_delete_eq. }
  split_and!.
  - rewrite Hb. apply lookup_insert_eq.
  - rewrite Ht. apply lookup_insert_eq.
  - done.
  - intros h0 Hreg. rewrite Hp.
    destruct (wf_typing _ W _ _ Hreg) as (t0 & Hpt & _).
    destruct (wf_pending _ W _ _ Hpt) as [Hb0 _].
    rewrite lookup_insert_ne by (subst h; lia).
    rewrite (clearTypingTimer_cancels c h0 st W Hreg). apply lookup_delete_eq.
  - by apply timers_wf_oneChat.
  - rewrite Hfb. apply lookup_delete_eq.
  - rewrite Hft. apply lookup_delete_eq.
  - done.
  - rewrite Hfa, Hst'.
    pose proof (clearTypingTimer_fields c st) as (_ & _ & _ & _ & Ha & _).
    remember (clearTypingTimer c st) as st1 eqn:E1. clear E1.
    unfold setTimeout, setTypingState. unfold_setters. simpl. done.
  - by apply fire_not_live.
Qed.

(** X5 on a concrete run: user 2 types in chat 3, twice. *)
Lemma X5_typing_indicator_expires_witness :
  let evs := [Socket 1000 (TypingEvent 3 2 1 true)] in
  let st := run evs (init_state (Some 1) true) in
  let st' := handleWSData 2000 (TypingEvent 3 2 1 true) st in
  typingTimeouts st !! 3 = Some 1 ∧
  pending st' !! 1 = None ∧
  pending st' !! 2 = Some (typingTimer 2000 3) ∧
  typingByChat (fire 2 st') !! 3 = None.
Proof.
  intros evs st st'.
  destruct (X5_typing_indicator_expires (Some 1) true evs 2000 3 2 1)
    as (_ & _ & Hlive & Hcancel & _ & Hoff & _); [done..|].
  split; [reflexivity|]. split; [apply Hcancel; reflexivity|].
  split; [exact Hlive|exact Hoff].
Defined.

(** X6. A typing event for chat id 0, for another receiver, or sent by the
    local user itself changes nothing. On every state the engine reaches, an
    accepted typing event that says "not typing" clears the flag of its
    chat and cancels the idle timer of the chat: no registration and no live
    idle timer for the chat is left, and the messages are not touched. *)
Theorem X6_typing_stops (uid : option Z) (hasSend : bool) (evs : list event)
    (now c s r : Z) (isTyping : bool) :
  let st := run evs (init_state uid hasSend) in
  (c = 0 ∨ Some r ≠ userId st ∨ Some s = userId st →
   handleWSData now (TypingEvent c s r isTyping) st = st) ∧
  (c ≠ 0 → Some r = userId st → Some s ≠ userId st →
   let st' := handleWSData now (TypingEvent c s r false) st in
   typingByChat st' !! c = None ∧
   typingTimeouts st' !! c = None ∧
   (∀ h t, pending st' !! h = Some t → timer_job t ≠ ClearTyping c) ∧
   (∀ h0, typingTimeouts st !! c = Some h0 → pending st' !! h0 = None) ∧
   activeMessages st' = activeMessages st).
Proof.
  intros st. split; [apply typing_rejected|].
  intros Hc Hr Hs st'.
  assert (W : timers_wf st) by apply timers_wf_run, timers_wf_init.
  assert (W' : timers_wf st') by apply timers_wf_handleWSData, W.
  assert (Hst' : st' = handleWSData now (TypingEvent c s r false) st) by done.
  rewrite typing_accepted in Hst' by done.
  destruct (typing_off_fields c st) as (Hb & Ht & Hp & Hn).
  cbv zeta in Hb, Ht, Hp, Hn, Hst'. rewrite <- Hst' in Hb, Ht, Hp, Hn.
  split_and!.
  - rewrite Hb. apply lookup_delete_eq.
  - rewrite Ht. apply lookup_delete_eq.
  - intros h t Hl Hj. destruct (wf_pending _ W' _ _ Hl) as [_ Hreg].
    rewrite Hj, Ht, lookup_delete_eq in Hreg. done.
  - intros h0 Hreg. rewrite Hp, (clearTypingTimer_cancels c h0 st W Hreg).
    apply lookup_delete_eq.
  - rewrite Hst'.
    pose proof (clearTypingTimer_fields c st) as (_ & _ & _ & _ & Ha & _).
    remember (clearTypingTimer c st) as st1 eqn:E1. clear E1.
    unfold setTypingState. unfold_setters. simpl. done.
Qed.

(** X6 on a concrete run: user 2 types in chat 3 and stops; the echo of the
    local user's own typing is ignored. *)
Lemma X6_typing_stops_witness :
  let evs := [Socket 1000 (TypingEvent 3 2 1 true)] in
  let st := run evs (init_state (Some 1) true) in
  handleWSData 1500 (TypingEvent 3 1 1 true) st = st ∧
  typingByChat (handleWSData 1500 (TypingEvent 3 2 1 false) st) !! 3 = None ∧
  pending (handleWSData 1500 (TypingEvent 3 2 1 false) st) !! 1 = None.
Proof.
  intros evs st.
  destruct (X6_typing_stops (Some 1) true evs 1500 3 1 1 true) as (Hecho & _).
  destruct (X6_typing_stops (Some 1) true evs 1500 3 2 1 false) as (_ & Hstop).
  split; [apply Hecho; right; right; reflexivity|].
  destruct Hstop as (Hflag & _ & _ & Hcancel & _); [done..|].
  split; [exact Hflag|apply Hcancel; reflexivity].
Defined.

(** X7. Between mount and teardown a typing indicator cannot stick: on
    every state the engine reaches without the teardown, a chat that is
    flagged as typing has an idle timer that is registered and live, and
    when that timer fires the flag is gone. *)
Theorem X7_typing_flag_has_timer (uid : option Z) (hasSend : bool)
    (evs : list event) (c : Z) (b : bool) :
  Forall mounted evs →
  let st := run evs (init_state uid hasSend) in
  typingByChat st !! c = Some b →
  b = true ∧
  ∃ h t, typingTimeouts st !! c = Some h ∧ pending st !! h = Some t ∧
         timer_job t = ClearTyping c ∧
         typingByChat (fire h st) !! c = None.
Proof.
  intros Hm st Hflag.
  assert (W : timers_wf st) by apply timers_wf_run, timers_wf_init.
  destruct (typingBacked_run evs _ Hm (typingBacked_init uid hasSend) c b Hflag)
    as [Hb [h Hreg]].
  split; [done|]. destruct (wf_typing _ W _ _ Hreg) as (t & Hpt & Hj).
  exists h, t. split_and!; [done|done|done|].
  destruct (fire_typing_fields h st t c Hpt Hj) as (Hfb & _).
  rewrite Hfb. apply lookup_delete_eq.
Qed.

(** X7 on a concrete run: user 2 types in chat 3 while a message arrives
    and the contact list is refreshed. *)
Lemma X7_typing_flag_has_timer_witness :
  let evs := [Socket 1000 (TypingEvent 3 2 1 true);
              Socket 1100 (NewMessage (sampleMessage 7 3 (DAt 900) (DAt 9000) DAbsent));
              FetchContacts false (Some [])] in
  let st := run evs (init_state (Some 1) true) in
  ∃ h t, typingTimeouts st !! 3 = Some h ∧ pending st !! h = Some t ∧
         timer_job t = ClearTyping 3 ∧ typingByChat (fire h st) !! 3 = None.
Proof.
  intros evs st.
  destruct (X7_typing_flag_has_timer (Some 1) true evs 3 true) as [_ H].
  - repeat constructor.
  - reflexivity.
  - exact H.
Defined.

(** ** Presence and profile events *)

(** X8. On every state the engine reaches, each chat summary of the list
    shows its other participant online exactly when the presence map
    records that user as online; a user the map does not know, or whose id
    is 0, is shown offline, whatever flag the server sent with the chat. *)
Theorem X8_presence_shown_as_recorded (uid : option Z) (hasSend : bool)
    (evs : list event) (c : chat) :
  let st := run evs (init_state uid hasSend) in
  c ∈ persistentContacts st →
  isOnline (otherUser c) = presenceSnapshot st (user_id (otherUser c)) ∧
  (presence st !! user_id (otherUser c) = None → isOnline (otherUser c) = false).
Proof.
  intros st Hin.
  assert (C : presenceConsistent st).
  { apply presenceConsistent_run. unfold presenceConsistent. simpl. constructor. }
  unfold presenceConsistent in C. rewrite Forall_forall in C.
  specialize (C c Hin). split; [exact C|].
  intros Hnone. rewrite C. unfold presenceSnapshot. rewrite Hnone.
  by destruct (user_id (otherUser c) =? 0).
Qed.

(** X8 on a concrete run: the server lists alice with the online flag set,
    no presence event has arrived, and the list shows alice offline. *)
Lemma X8_presence_shown_as_recorded_witness :
  let evs := [FetchContacts true
                (Some [sampleChat 1 alice None DAbsent (DAt 2000) None;
                       sampleChat 2 bob None DAbsent (DAt 1000) None])] in
  let st := run evs (init_state (Some 1) true) in
  let c := withUnreadCount (Some 0)
             (withOnline false (sampleChat 1 alice None DAbsent (DAt 2000) None)) in
  isOnline alice = true ∧ c ∈ persistentContacts st ∧
  isOnline (otherUser c) = false.
Proof.
  intros evs st c. split; [reflexivity|].
  assert (Hin : c ∈ persistentContacts st) by (vm_compute; left).
  split; [exact Hin|].
  destruct (X8_presence_shown_as_recorded (Some 1) true evs c Hin) as [_ H].
  apply H. reflexivity.
Defined.





(** ** Sending *)



(** X12. The placeholder of a send expires on its own schedule, whatever
    the upload does.  When a send starts at [now] with valid dates, all its
    clock readings giving [now], and an expiry of at most 2^31 - 1 ms, a
    timer is armed that is due exactly [max(requested, 5)] seconds later,
    at least five seconds away; the end of the upload leaves the timers as
    they are.  Once that timer has fired the chat holds no message with the
    temporary id, and an upload that settles only afterwards does not
    bring the placeholder back, although a successful one still puts its
    frame on the socket. *)
Theorem X12_placeholder_expires_on_schedule (now : Z) (content type : string)
    (d : option Z) (f : option file) (st : state) (sc : chat) (uid : Z) :
  selectedChat st = Some sc → userId st = Some uid → uid ≠ 0 →
  socketHasSend st = true → 0 ≤ now →
  sendThrows (atOnce now) d = false → expirySeconds d * 1000 ≤ 2147483647 →
  let ctx := {| tempId := now; ctx_chat := sc; ctx_userId := uid;
                secs := expirySeconds d; ctx_content := content; ctx_type := type;
                ctx_file := f |} in
  let st1 := step st (SendMessageBegins (atOnce now) content type d f) in
  let h := nextHandle st in
  let c := chat_id sc in
  pending st1 !! h =
    Some {| due := now + expirySeconds d * 1000; timer_job := ExpireMessage c now |} ∧
  5 ≤ expirySeconds d ∧
  (∀ up, timerView (step st1 (UploadSettles ctx up)) = timerView st1) ∧
  let st2 := step st1 (TimerFires h) in
  occurrences now (messagesOf st2 c) = 0%nat ∧
  ∀ up, let st3 := step st2 (UploadSettles ctx up) in
        occurrences now (messagesOf st3 c) = 0%nat ∧
        (delivers f up → ∃ p, sent st3 = sent st ++ [p]).
Proof.
  intros Hsel Huid Hne Hs Hnow Hval Hrange ctx st1 h c.
  assert (Hu : noUser st = false).
  { unfold noUser. rewrite Huid. by destruct uid. }
  destruct (sendMessage_start_eq (atOnce now) content type d f st sc Hsel Hu Hs Hval)
    as (uid' & s1 & Huid' & E & Ham & Hsent).
  rewrite Huid in Huid'. injection Huid' as <-.
  change (at_tempId (atOnce now)) with now in E. fold ctx in E.
  assert (Hst1 : st1 = s1) by (subst st1; simpl; by rewrite E).
  destruct (sendMessage_start_timer _ _ _ _ _ _ _ _ E) as [_ Hp].
  destruct (placeholder_due now sc uid content type d f Hnow Hrange) as [Hexp Hdue].
  destruct (Hp Hexp) as [_ Hp']. clear Hp.
  assert (Hp : pending st1 !! h =
    Some {| due := now + expirySeconds d * 1000; timer_job := ExpireMessage c now |}).
  { rewrite Hst1. etrans; [exact Hp'|]. f_equal. rewrite <- Hdue. reflexivity. }
  rewrite <- Hst1 in Ham, Hsent. clear E Hst1 s1 Hp'.
  split; [exact Hp|]. split; [unfold expirySeconds; lia|].
  split; [intros up; apply sendMessage_finish_view|].
  intros st2.
  destruct (fire_expire_messages h st1 _ c now Hp eq_refl) as (Hfm & Hrest).
  assert (Habs : occurrences now (messagesOf st2 c) = 0%nat).
  { unfold messagesOf at 1. subst st2. cbn [step]. rewrite Hfm, lookup_insert_eq.
    apply occurrences_filter_ne. }
  split; [exact Habs|]. intros up st3. split.
  - apply (sendMessage_finish_absent ctx up st2 Habs).
  - intros Hdel. destruct (sendMessage_finish_sent ctx up st2) as [Hyes _].
    destruct (Hyes Hdel) as [p Hp']. exists p. subst st3. cbn [step]. rewrite Hp'.
    destruct Hrest as (_ & _ & _ & _ & _ & Hs2 & _). subst st2. cbn [step].
    by rewrite Hs2, Hsent.
Qed.

(** X12 on a concrete run: a photo with a 30 second timer is sent at 5000;
    the timer is due at 35000, and the upload that ends after it still
    sends its frame. *)
Lemma X12_placeholder_expires_on_schedule_witness :
  let sc := sampleChat 2 bob None DAbsent (DAt 1000) None in
  let st := run [SelectChat 3000 (Some sc) (Some [])] (init_state (Some 1) true) in
  let ctx := {| tempId := 5000; ctx_chat := sc; ctx_userId := 1; secs := 30;
                ctx_content := ""; ctx_type := "image";
                ctx_file := Some samplePhoto |} in
  let st3 := run [SendMessageBegins (atOnce 5000) "" "image" (Some 30) (Some samplePhoto);
                  TimerFires (nextHandle st);
                  UploadSettles ctx (UploadOk "/uploads/cat.png" None None)] st in
  occurrences 5000 (messagesOf st3 2) = 0%nat ∧ ∃ p, sent st3 = sent st ++ [p].
Proof.
  intros sc st ctx st3.
  destruct (X12_placeholder_expires_on_schedule 5000 "" "image" (Some 30)
              (Some samplePhoto) st sc 1) as (_ & _ & _ & _ & H);
    [vm_compute; reflexivity|vm_compute; reflexivity|done|vm_compute; reflexivity|done
    |vm_compute; reflexivity|vm_compute; discriminate|].
  destruct (H (UploadOk "/uploads/cat.png" None None)) as [Habs Hsent].
  split; [exact Habs|]. apply Hsent. exact I.
Defined.

(** ** Inbound messages and teardown *)

(** X13. The unread counter counts deliveries, not messages.  When an
    accepted message for a chat that is not open is delivered a second
    time, the chat's sequence stays as it was after the first delivery,
    with one more entry than before if the id was new, and yet the unread
    counter of the chat has gone up by two. *)
Theorem X13_duplicate_is_counted_again (now1 now2 : Z) (m : message) (st : state) :
  Some (msg_receiverId m) = userId st → rejectedByCutoff st m = false →
  isOpen st (msg_chatId m) = false →
  let st1 := handleWSData now1 (NewMessage m) st in
  let st2 := handleWSData now2 (NewMessage m) st1 in
  let c := msg_chatId m in
  messagesOf st2 c = messagesOf st1 c ∧
  (occurrences (msg_id m) (messagesOf st c) = 0%nat →
   messagesOf st2 c = messagesOf st c ++ [m]) ∧
  unreadOf st1 c = unreadOf st c + 1 ∧
  unreadOf st2 c = unreadOf st c + 2.
Proof.
  intros Hrecv Hacc Hclosed st1 st2 c. fold c in Hclosed.
  destruct (newMessage_accepted now1 m st Hrecv Hacc)
    as (Hm1 & _ & Hu1 & _ & Hid1 & Hcut1 & Hsel1 & _).
  fold st1 c in Hm1, Hu1, Hid1, Hcut1, Hsel1.
  assert (Hrecv1 : Some (msg_receiverId m) = userId st1) by by rewrite Hid1.
  assert (Hacc1 : rejectedByCutoff st1 m = false)
    by by rewrite (rejectedByCutoff_ext st st1).
  destruct (newMessage_accepted now2 m st1 Hrecv1 Hacc1) as (_ & _ & Hu2 & _).
  fold st2 c in Hu2.
  rewrite (isOpen_ext st st1) in Hu2 by done. rewrite Hclosed in Hu1, Hu2.
  destruct (newMessage_dedup now1 now2 m st Hrecv Hacc) as [_ Hsame].
  fold st1 st2 c in Hsame.
  assert (H1 : unreadOf st1 c = unreadOf st c + 1).
  { unfold unreadOf at 1. by rewrite Hu1, lookup_insert_eq. }
  split_and!.
  - exact Hsame.
  - intros Hnew%occurrences_zero. rewrite Hsame, Hm1.
    by rewrite bool_decide_eq_false_2.
  - exact H1.
  - unfold unreadOf at 1. rewrite Hu2, lookup_insert_eq. simpl. rewrite H1. lia.
Qed.

(** X13 on a concrete run: the same message arrives twice for chat 3 while
    no chat is open. *)
Lemma X13_duplicate_is_counted_again_witness :
  let m := sampleMessage 7 3 (DAt 900) (DAt 9000) DAbsent in
  let st := init_state (Some 1) true in
  let st2 := handleWSData 1100 (NewMessage m) (handleWSData 1000 (NewMessage m) st) in
  messagesOf st2 3 = [m] ∧ unreadOf st2 3 = 2.
Proof.
  intros m st st2.
  destruct (X13_duplicate_is_counted_again 1000 1100 m st) as (_ & Hm & _ & Hu);
    [reflexivity..|].
  split; [by apply Hm|exact Hu].
Defined.


(** ** The sidebar *)

(** X15. The number on the unread badge of the sidebar is the unread
    counter of the hook.  As long as no response of the server lists a chat
    twice, on every state the engine reaches the count that a chat summary
    of the list carries is at most the counter of its chat, so the badge
    value [max(chat.unreadCount || 0, unreadCounts.get(chat.id) || 0)] is
    that counter, and it is never negative.  After the user has opened a
    chat, every summary of that chat shows no badge. *)
Theorem X15_badge_is_the_counter (uid : option Z) (hasSend : bool)
    (evs : list event) :
  Forall distinctChats evs →
  let st := run evs (init_state uid hasSend) in
  (∀ c, c ∈ persistentContacts st →
        finalUnreadCount (unreadCounts st) c = unreadOf st (chat_id c) ∧
        0 ≤ finalUnreadCount (unreadCounts st) c) ∧
  (noUser st = false →
   ∀ now ch resp c,
     let st' := selectChat now (Some ch) resp st in
     c ∈ persistentContacts st' → chat_id c = chat_id ch →
     finalUnreadCount (unreadCounts st') c = 0).
Proof.
  intros Hd st.
  assert (Hbadge : ∀ evs', Forall distinctChats evs' →
            ∀ c, c ∈ persistentContacts (run evs' (init_state uid hasSend)) →
                 finalUnreadCount (unreadCounts (run evs' (init_state uid hasSend))) c =
                   unreadOf (run evs' (init_state uid hasSend)) (chat_id c) ∧
                 0 ≤ unreadOf (run evs' (init_state uid hasSend)) (chat_id c)).
  { intros evs' Hd' c Hc.
    assert (C : listCountBacked (run evs' (init_state uid hasSend))).
    { apply listCountBacked_run; [done|apply unread_nonneg_init|].
      unfold listCountBacked. simpl. constructor. }
    assert (N : unread_nonneg (run evs' (init_state uid hasSend)))
      by apply unread_nonneg_run, unread_nonneg_init.
    unfold listCountBacked in C. rewrite Forall_forall in C. specialize (C c Hc).
    unfold finalUnreadCount. rewrite mapUnreadCount_unreadOf.
    pose proof (unreadOf_nonneg _ (chat_id c) N). simpl in C. split; lia. }
  subst st. split.
  - intros c Hc. destruct (Hbadge evs Hd c Hc) as [-> Hge]. done.
  - intros Hu now ch resp c st' Hc Hid.
    assert (Hrun : st' = run (evs ++ [SelectChat now (Some ch) resp])
                           (init_state uid hasSend)).
    { unfold run. by rewrite foldl_app. }
    rewrite Hrun in Hc |- *.
    destruct (Hbadge (evs ++ [SelectChat now (Some ch) resp])) with (c := c)
      as [-> _]; [|done|].
    { apply Forall_app. split; [done|]. by repeat constructor. }
    rewrite <- Hrun, Hid. unfold unreadOf. subst st'.
    by rewrite selectChat_unread, lookup_delete_eq.
Qed.

(** X15 on a concrete run: the server reports three unread messages for
    chat 1 and a fourth message arrives over the socket. *)
Lemma X15_badge_is_the_counter_witness :
  let listed := sampleChat 1 alice None DAbsent (DAt 2000) (Some 3) in
  let evs := [FetchContacts true (Some [listed]);
              Socket 2500 (NewMessage (sampleMessage 7 1 (DAt 2400) (DAt 9000) DAbsent))] in
  let st := run evs (init_state (Some 1) true) in
  length (persistentContacts st) = 1%nat ∧
  Forall (λ c, finalUnreadCount (unreadCounts st) c = 4) (persistentContacts st).
Proof.
  intros listed evs st. split; [vm_compute; reflexivity|].
  apply Forall_forall. intros c Hc.
  destruct (X15_badge_is_the_counter (Some 1) true evs) as [H _].
  { apply Forall_cons. split; [apply NoDup_singleton|].
    apply Forall_cons. split; [exact I|constructor]. }
  destruct (H c Hc) as [Hb _]. etrans; [exact Hb|].
  assert (Hid : chat_id c = 1).
  { assert (Hl : chat_id <$> persistentContacts st = [1]) by (vm_compute; reflexivity).
    assert (Hin : chat_id c ∈ chat_id <$> persistentContacts st)
      by (apply list_elem_of_fmap; by exists c).
    rewrite Hl in Hin. by apply list_elem_of_singleton in Hin. }
  rewrite Hid. vm_compute. reflexivity.
Defined.

(** ** Loading the chat list *)



(** ** The countdown of a message bubble *)





(** X19. For the placeholder of a send the bubble and the hook agree.
    Whatever component reads the placeholder that [sendMessage] stores at
    [now], all clock readings of the send giving [now] and the expiry
    being at most 2^31 - 1 ms, its countdown starts at [max(requested, 5)]
    seconds and ends at the instant at which the expiry timer of the
    placeholder is due. *)
Theorem X19_placeholder_countdown (now : Z) (content type : string) (d : option Z)
    (f : option file) (st st1 : state) (ctx : send_ctx) (b : Bubble.bubble) :
  0 ≤ now → expirySeconds d * 1000 ≤ 2147483647 →
  sendMessage_start (atOnce now) content type d f st = Some (ctx, st1) →
  Bubble.reads b (optimisticMessage (atOnce now) (ctx_chat ctx) (ctx_userId ctx)
                    content type d f) →
  ∃ h t, deletionTimers st1 !! now = Some h ∧ pending st1 !! h = Some t ∧
         due t = Bubble.expiresAtMs b ∧
         Bubble.remainingMs b now = expirySeconds d * 1000 ∧
         (∀ now', Bubble.showCountdown b now' = true ↔ now' < due t).
Proof.
  intros Hnow Hrange E Hr.
  destruct (sendMessage_start_timer _ _ _ _ _ _ _ _ E) as [Hexp Hp].
  assert (Hsecs : 5 ≤ expirySeconds d) by (unfold expirySeconds; lia).
  destruct (placeholder_due now (ctx_chat ctx) (ctx_userId ctx) content type d f
              Hnow Hrange) as [Hnz Hdue].
  set (opt := optimisticMessage (atOnce now) (ctx_chat ctx) (ctx_userId ctx)
                content type d f) in *.
  change (at_expires (atOnce now)) with now in Hexp.
  change (at_tempId (atOnce now)) with now in Hp.
  change (at_schedule (atOnce now)) with now in Hp.
  destruct (Hp Hnz) as [Hd Ht].
  assert (Hag : Bubble.expiresAtMs b = expiryMs opt).
  { apply expiry_agrees; [done|lia|]. destruct Hr as (He & _). intros Hb.
    by rewrite Hb in He. }
  eexists _, _. split; [exact Hd|]. split; [exact Ht|].
  rewrite Hdue, Hag, Hexp. split; [done|].
  split.
  - destruct (showCountdown_spec b now) as [Hrem _]; lia.
  - intros now'. destruct (showCountdown_spec b now') as [_ Hs]; [lia|].
    by rewrite Hs, Hag, Hexp.
Qed.

(** X19 on a concrete run: a text with a 30 second timer is sent at 5000. *)
Lemma X19_placeholder_countdown_witness :
  let sc := sampleChat 2 bob None DAbsent (DAt 1000) None in
  let st := run [SelectChat 3000 (Some sc) (Some [])] (init_state (Some 1) true) in
  let b := {| Bubble.b_expiresAt := Bubble.RAt 35000;
              Bubble.b_expires_at := Bubble.RUndefined;
              Bubble.b_expiresAtIso := Bubble.RUndefined;
              Bubble.b_expiresAtISO := Bubble.RUndefined;
              Bubble.b_createdAt := Bubble.RAt 5000;
              Bubble.b_destructTimer := Some 30;
              Bubble.b_destruct_timer := None |} in
  Bubble.remainingMs b 5000 = 30 * 1000.
Proof.
  intros sc st b.
  destruct (sendMessage_start (atOnce 5000) "hello" "text" (Some 30) None st)
    as [[ctx st1]|] eqn:E; [|by vm_compute in E].
  assert (Hctx : ctx_chat ctx = sc ∧ ctx_userId ctx = 1).
  { vm_compute in E. by injection E as <- _. }
  destruct Hctx as [Hc Hu].
  destruct (X19_placeholder_countdown 5000 "hello" "text" (Some 30) None st st1 ctx b)
    as (h & t & _ & _ & _ & Hrem & _); [done|vm_compute; discriminate|exact E| |exact Hrem].
  rewrite Hc, Hu. by split_and!.
Defined.

(** ** Typing, from the sender to the receiver *)

(** X20. A typing frame does at the peer what the sender asked for, and
    nothing at the sender.  When a user with an open chat and a socket
    calls [sendTyping], a frame is handed to the socket; relayed unchanged
    to the other participant of that chat, it sets the typing flag of the
    chat there for [true] and removes it for [false], and it is what the
    hook there shows for the chat when that chat is open.  The same frame
    coming back to its sender is ignored, and so is a frame for a chat
    with oneself. *)
Theorem X20_typing_round_trip (flag : bool) (now : Z) (stA stB : state)
    (sc : chat) (a : Z) :
  selectedChat stA = Some sc → userId stA = Some a → a ≠ 0 →
  socketHasSend stA = true → chat_id sc ≠ 0 →
  userId stB = Some (user_id (otherUser sc)) →
  ∃ f, sendTyping flag stA = Some f ∧
       handleWSData now (relayed f) stA = stA ∧
       let stB' := handleWSData now (relayed f) stB in
       (user_id (otherUser sc) = a → stB' = stB) ∧
       (user_id (otherUser sc) ≠ a →
        typingByChat stB' !! chat_id sc = (if flag then Some true else None) ∧
        (∀ cB, selectedChat stB = Some cB → chat_id cB = chat_id sc →
               isOtherTyping stB' = flag)).
Proof.
  intros Hsel Ha Ha0 Hsend Hc Hb.
  assert (Hu : noUser stA = false) by (unfold noUser; rewrite Ha; by destruct a).
  exists {| tf_chatId := chat_id sc; tf_senderId := a;
            tf_receiverId := user_id (otherUser sc); tf_isTyping := flag |}.
  split.
  { unfold sendTyping. by rewrite Hsel, Hu, Hsend, Ha. }
  unfold relayed. cbn [tf_chatId tf_senderId tf_receiverId tf_isTyping].
  assert (Hecho : handleWSData now
            (TypingEvent (chat_id sc) a (user_id (otherUser sc)) flag) stA = stA).
  { apply typing_rejected. right. destruct (decide (user_id (otherUser sc) = a)) as [He|Hne].
    - right. by rewrite Ha.
    - left. rewrite Ha. congruence. }
  split; [exact Hecho|].
  set (stB' := handleWSData now
                 (TypingEvent (chat_id sc) a (user_id (otherUser sc)) flag) stB).
  split.
  - intros He. subst stB'. apply typing_rejected. right. right. rewrite Hb. congruence.
  - intros Hne.
    assert (Hacc : stB' =
              let st1 := clearTypingTimer (chat_id sc) stB in
              let st2 := setTypingState (chat_id sc) flag st1 in
              if flag then
                let '(t, st3) := setTimeout now 3000 (ClearTyping (chat_id sc)) st2 in
                setTypingTimeouts (λ d, <[chat_id sc := t]> d) st3
              else st2).
    { subst stB'. apply typing_accepted; [done|by rewrite Hb|rewrite Hb; congruence]. }
    assert (Hflag : typingByChat stB' !! chat_id sc = if flag then Some true else None).
    { rewrite Hacc. destruct flag.
      - destruct (typing_on_fields now (chat_id sc) stB) as (Hf & _).
        etrans; [exact (f_equal (λ d, d !! chat_id sc) Hf)|apply lookup_insert_eq].
      - destruct (typing_off_fields (chat_id sc) stB) as (Hf & _).
        etrans; [exact (f_equal (λ d, d !! chat_id sc) Hf)|apply lookup_delete_eq]. }
    split; [exact Hflag|]. intros cB HselB Hid.
    assert (HselB' : selectedChat stB' = selectedChat stB).
    { rewrite Hacc. destruct (typing_event_view now (chat_id sc) flag stB) as [Hv _].
      unfold storesView in Hv. by injection Hv as _ Hs _ _ _ _ _. }
    unfold isOtherTyping. rewrite HselB', HselB, Hid, Hflag. by destruct flag.
Qed.

(** X20 on a concrete pair: user 1 has chat 2 with bob (user 3) open and
    types; bob's hook has the same chat open. *)
Lemma X20_typing_round_trip_witness :
  let sc := sampleChat 2 bob None DAbsent (DAt 1000) None in
  let stA := run [SelectChat 3000 (Some sc) (Some [])] (init_state (Some 1) true) in
  let stB := run [SelectChatBegins (Some sc)] (init_state (Some 3) true) in
  ∃ f, sendTyping true stA = Some f ∧
       isOtherTyping (handleWSData 3100 (relayed f) stB) = true.
Proof.
  intros sc stA stB.
  destruct (X20_typing_round_trip true 3100 stA stB sc 1) as (f & Hf & _ & _ & H);
    [vm_compute; reflexivity|vm_compute; reflexivity|done|vm_compute; reflexivity
    |done|vm_compute; reflexivity|].
  exists f. split; [exact Hf|].
  destruct H as [_ Hshow]; [done|]. by apply (Hshow sc).
Defined.

(** ** The typing signal of the chat view *)

(** X21. The typing signal of the chat view always comes to an end.  On
    every state that the view reaches, only the idle timeout held in the
    ref can be live, and it is live exactly while the view counts as
    typing; no [onTyping(false)] is a first call or follows another
    [false]; and while the view counts as typing, the live timeout belongs
    to a render with a chat, and when it fires [onTyping(false)] is called
    for that chat, the view no longer counts as typing and no timeout is
    left. *)
Theorem X21_typing_signal_ends (evs : list Composer.event) :
  let s := Composer.run evs Composer.init in
  (∀ h t, Composer.timeouts s !! h = Some t → Composer.typingIdleTimerRef s = Some h) ∧
  (Composer.localTypingRef s = true ↔ is_Some (Composer.typingIdleTimerRef s)) ∧
  Composer.falseAfterTrue (Composer.onTypingCalls s) ∧
  (Composer.localTypingRef s = true →
   ∃ h due p c,
     Composer.typingIdleTimerRef s = Some h ∧
     Composer.timeouts s !! h = Some (due, p) ∧
     Composer.selectedChat p = Some c ∧
     ∀ now, let s' := Composer.step s (Composer.IdleTimeout now h) in
            Composer.onTypingCalls s' = Composer.onTypingCalls s ++ [(now, false, c)] ∧
            Composer.localTypingRef s' = false ∧ Composer.timeouts s' = ∅).
Proof.
  intros s.
  assert (W : Composer.wf s) by apply wf_run_composer, wf_init.
  assert (Href : Composer.localTypingRef s = true →
                 is_Some (Composer.typingIdleTimerRef s)).
  { intros Hl. destruct (Composer.typingIdleTimerRef s) as [h|] eqn:Hr; [done|].
    pose proof (Composer.wf_idle s W Hr). congruence. }
  split_and!.
  - intros h t Hh. by destruct (Composer.wf_live s W h t Hh).
  - split; [exact Href|]. intros [h Hr]. by destruct (Composer.wf_ref s W h Hr).
  - apply falseAfterTrue_run; [apply wf_init|apply falseAfterTrue_nil].
  - intros Hl. destruct (Href Hl) as [h Hr].
    destruct (Composer.wf_ref s W h Hr) as (_ & due & p & Hh & [_ [c Hs]] & _).
    exists h, due, p, c. split_and!; try done. intros now s'.
    destruct (fireIdle_spec now h due p s W Hh) as (_ & Ht & Hl' & _ & c' & Hs' & Hc).
    rewrite Hs in Hs'. injection Hs' as <-. by split_and!.
Qed.



(** ** The older version of the hook *)

(** X23. The two versions of [scheduleMessageDeletion] differ only on
    messages without a readable [expiresAt].  For a message whose
    [expiresAt] is a date other than the epoch the older version does what
    the current one does.  For a message whose [expiresAt] gives no time
    the older version still arms a timer, due 200 ms after the call, and
    when it fires the message is gone from its chat; the current version
    arms nothing for such a message unless [expires_at] gives a time. *)
Theorem X23_older_schedule (now e : Z) (m : message) (st : state) :
  (msg_expiresAt m = DAt e → e ≠ 0 →
   Legacy.scheduleMessageDeletion now m st = scheduleMessageDeletion now m st) ∧
  (toMs (msg_expiresAt m) = 0 → 0 ≤ now →
   let st' := Legacy.scheduleMessageDeletion now m st in
   let h := nextHandle st in
   deletionTimers st' !! msg_id m = Some h ∧
   pending st' !! h =
     Some {| due := now + 200; timer_job := ExpireMessage (msg_chatId m) (msg_id m) |} ∧
   occurrences (msg_id m) (messagesOf (fire h st') (msg_chatId m)) = 0%nat ∧
   (expiryMs m = 0 → scheduleMessageDeletion now m st = st)).
Proof.
  split.
  - intros He Hne. unfold Legacy.scheduleMessageDeletion, scheduleMessageDeletion.
    assert (Hexp : expiryMs m = e) by (unfold expiryMs; by rewrite He).
    rewrite Hexp, He. cbn [toMs getTime].
    by destruct (Z.eqb_spec e 0).
  - intros Hz Hnow st' h.
    destruct (legacy_schedule_fields now m st) as (Hd & Hp & Ha).
    fold st' h in Hd, Hp, Ha. rewrite Hz in Hp.
    replace (Z.max (0 - now) 200) with 200 in Hp by lia.
    rewrite timerDelay_small in Hp by (unfold maxDelay; lia).
    split_and!; [done|done| |].
    + destruct (fire_expire_messages h st' _ (msg_chatId m) (msg_id m) Hp eq_refl)
        as (Hfm & _).
      unfold messagesOf at 1. rewrite Hfm, lookup_insert_eq.
      apply occurrences_filter_ne.
    + intros Hexp. unfold scheduleMessageDeletion. by rewrite Hexp.
Qed.

(** X23 on a concrete message: it has no expiry and is scheduled at 1000
    after it arrived. *)
Lemma X23_older_schedule_witness :
  let m := sampleMessage 7 3 (DAt 900) DAbsent DAbsent in
  let st := run [Socket 1000 (NewMessage m)] (init_state (Some 1) true) in
  let st' := Legacy.scheduleMessageDeletion 1000 m st in
  messagesOf st 3 = [m] ∧
  occurrences 7 (messagesOf (fire (nextHandle st) st') 3) = 0%nat ∧
  scheduleMessageDeletion 1000 m st = st.
Proof.
  intros m st st'.
  destruct (X23_older_schedule 1000 0 m st) as [_ H].
  destruct H as (_ & _ & Hgone & Hsame); [done..|].
  split_and!; [vm_compute; reflexivity|exact Hgone|by apply Hsame].
Defined.
